(** * padertorch: loss functions and training hooks

    A shallow embedding of [padertorch/ops/losses/loss.py] and
    [padertorch/train/hooks.py], and the properties of them that the
    specification states.

    Conventions of the embedding.
    - A finite floating-point number is a rational in canonical form
      ([Qc]); the non-finite outcomes of a division by zero or of the
      mean of nothing (numpy's and torch's [nan]/[inf]) are the one
      value [NaN].  Tensor entries are finite.  Where the value of a
      result depends on the rounding, in [kl_normal_multivariatenormals],
      every operation is rounded by an arithmetic [Float]; elsewhere
      the operations are exact.
    - A tensor is its size and its entries in row-major order, as a
      contiguous torch tensor is.
    - A Python call either returns a value or raises: [result].
    - Python dicts are association lists in insertion order. *)

From Stdlib Require Import String Ascii List Bool Arith ZArith Lia.
From Stdlib Require Import QArith Qcanon Qround Qreduction.
From Stdlib Require Import DecimalString.
Import ListNotations.

Set Implicit Arguments.
Close Scope Q_scope.
Close Scope Qc_scope.

(** ** Python values *)

Module Py.

(** The exceptions the two modules can raise. [StopTraining] is the
    class declared at the end of hooks.py. *)
Inductive exn : Type :=
| ValueError (msg : string)
| AssertionError
| IndexError
| RuntimeError
| TypeError
| StopTraining.

Inductive result (A : Type) : Type :=
| Return (a : A)
| Raise (e : exn).

Arguments Return {A} a.
Arguments Raise {A} e.

Definition bind {A B : Type} (r : result A) (k : A -> result B) : result B :=
  match r with
  | Return a => k a
  | Raise e => Raise e
  end.

Definition assert (b : bool) : result unit :=
  if b then Return tt else Raise AssertionError.

(** [str(n)] of a non-negative integer. *)
Definition str_nat (n : nat) : string :=
  NilEmpty.string_of_uint (Nat.to_uint n).

(** A dict, in insertion order. *)
Definition dict (V : Type) : Type := list (string * V).

Fixpoint get {V : Type} (d : dict V) (key : string) : option V :=
  match d with
  | [] => None
  | (k, v) :: d' => if String.eqb k key then Some v else get d' key
  end.

(** [d[key] = v]: overwrite in place, or append a new key. *)
Fixpoint set {V : Type} (d : dict V) (key : string) (v : V) : dict V :=
  match d with
  | [] => [(key, v)]
  | (k, w) :: d' =>
      if String.eqb k key then (k, v) :: d' else (k, w) :: set d' key v
  end.

Definition contains {V : Type} (d : dict V) (key : string) : bool :=
  match get d key with Some _ => true | None => false end.

End Py.

Import Py.

Declare Scope py_scope.
Delimit Scope py_scope with py.
Notation "x <- c1 ;; c2" := (Py.bind c1 (fun x => c2))
  (at level 61, c1 at next level, right associativity) : py_scope.
Notation "c1 ;;; c2" := (Py.bind c1 (fun _ => c2))
  (at level 61, right associativity) : py_scope.

(** ** Numbers *)

Module Num.

Local Open Scope Qc_scope.

(** A float: finite, or not. *)
Inductive float : Type :=
| Fin (q : Qc)
| NaN.

Definition of_nat (n : nat) : Qc := Q2Qc (inject_Z (Z.of_nat n)).
Definition of_Z (z : Z) : Qc := Q2Qc (inject_Z z).

Definition sum (l : list Qc) : Qc := fold_right Qcplus 0 l.

Definition is_zero (q : Qc) : bool :=
  if Qc_eq_dec q 0 then true else false.

(** [a / b] on floats that are finite: not finite when [b] is zero. *)
Definition true_divide (a b : Qc) : float :=
  if is_zero b then NaN else Fin (a / b).

(** [a // b]: the quotient rounded down to an integer. *)
Definition floor_divide (a b : Qc) : float :=
  if is_zero b then NaN else Fin (of_Z (Qfloor (a / b)%Qc)).

(** [np.mean] and [Tensor.mean]: [nan] on no samples. *)
Definition mean (l : list Qc) : float :=
  true_divide (sum l) (of_nat (length l)).

Definition leb (a b : Qc) : bool := Qle_bool a b.

(** The smaller of two floats; [nan] wins, as in [torch.min]. *)
Definition fmin (a b : float) : float :=
  match a, b with
  | Fin x, Fin y => Fin (if leb x y then x else y)
  | _, _ => NaN
  end.

Definition fadd (a b : float) : float :=
  match a, b with
  | Fin x, Fin y => Fin (x + y)
  | _, _ => NaN
  end.

Definition fdiv (a b : float) : float :=
  match a, b with
  | Fin x, Fin y => true_divide x y
  | _, _ => NaN
  end.

(** Mean of a sequence of floats. *)
Definition fmean (l : list float) : float :=
  fdiv (fold_right fadd (Fin 0) l) (Fin (of_nat (length l))).

End Num.

Import Num.

(** ** Tensors *)

Module Torch.

Local Open Scope Qc_scope.

Record Tensor (A : Type) : Type := mkTensor {
  size : list nat;
  data : list A
}.

Definition numel (s : list nat) : nat := fold_right Nat.mul 1%nat s.

(** A tensor holds as many entries as its size says. *)
Definition well_formed {A : Type} (t : Tensor A) : Prop :=
  length (data t) = numel (size t).

(** [k] consecutive runs of [w] entries. *)
Fixpoint chunk {A : Type} (w k : nat) (l : list A) : list (list A) :=
  match k with
  | O => []
  | S k' => firstn w l :: chunk w k' (skipn w l)
  end.

Definition size_eqb (s1 s2 : list nat) : bool :=
  if list_eq_dec Nat.eq_dec s1 s2 then true else false.

(** [torch.nn.utils.rnn.PackedSequence]: the frames of all sequences,
    time-major, and how many sequences are alive at each time step. *)
Record PackedSequence (A : Type) : Type := mkPacked {
  pdata : Tensor A;
  batch_sizes : list nat
}.

(** What a loss function can be handed: a tensor, a packed sequence, or
    an object of some other class. *)
Inductive pyarg (A : Type) : Type :=
| ATensor (t : Tensor A)
| APacked (p : PackedSequence A)
| AOther (cls : string).

Arguments AOther {A} cls.

(** [type(x)], as an f-string prints it. *)
Definition type_repr {A : Type} (x : pyarg A) : string :=
  match x with
  | ATensor _ => "<class 'torch.Tensor'>"
  | APacked _ => "<class 'torch.nn.utils.rnn.PackedSequence'>"
  | AOther cls => "<class '" ++ cls ++ "'>"
  end%string.

Definition incompatible_types {A B : Type} (x : pyarg A) (t : pyarg B) : exn :=
  ValueError ("Incompatible types: " ++ type_repr x ++ ", " ++ type_repr t)%string.

(** [x.size()[0]]. *)
Definition size0 {A : Type} (x : Tensor A) : result nat :=
  match size x with
  | n :: _ => Return n
  | [] => Raise IndexError
  end.

Definition torch_sum (t : Tensor Qc) : Qc := Num.sum (data t).

(** [t ** 2], entry by entry. *)
Definition pow2 (t : Tensor Qc) : Tensor Qc :=
  mkTensor (size t) (map (fun v => v * v) (data t)).

(** Modelled from the spec: [padertorch.ops.einsum.einsum] is not among
    the sources; the three calls in [deep_clustering_loss] are the
    contractions ['ne,nK->eK'] that the spec writes [X^T T]: for
    operands of sizes (n, e) and (n, k) the entry (i, j) of the result
    is the sum over r of [a[r, i] * b[r, j]]. Operands that are not
    two-dimensional or disagree on n are refused. *)
Definition einsum (a b : Tensor Qc) : result (Tensor Qc) :=
  match size a, size b with
  | [n; e], [n'; k] =>
      if Nat.eqb n n' then
        Return (mkTensor [e; k]
          (flat_map (fun i =>
             map (fun j =>
               Num.sum (map (fun r =>
                 nth (r * e + i) (data a) 0 * nth (r * k + j) (data b) 0)
                 (seq 0 n)))
               (seq 0 k))
             (seq 0 e)))
      else Raise RuntimeError
  | _, _ => Raise RuntimeError
  end.

End Torch.

Import Torch.

(** ** The numeric kernels of the tensor library

    Logarithms are not rational: [Tensor.log] and [log_softmax] are left
    uninterpreted, so every statement below holds whatever they compute. *)

Class Libm : Type := {
  ln : Qc -> Qc;
  log_softmax : list Qc -> list Qc
}.

(** ** Floating-point arithmetic

    The entries of a tensor are floats, and an operation on floats
    returns the exact result rounded to the format: [fl]. Three kernels
    of the library add up in an order of their own, which is left to
    them: the sum along an axis, the product of a vector with a row of
    a matrix, and the inverse of a matrix. The rounding is written out
    in [kl_normal_multivariatenormals], whose value depends on it. *)

Class Float : Type := {
  fl : Qc -> Qc;
  fl_sum : list Qc -> Qc;
  fl_dot : list Qc -> list Qc -> Qc;
  fl_inverse : list (list Qc) -> result (list (list Qc))
}.

(** ** loss.py *)

Module Loss.

Local Open Scope Qc_scope.
Local Open Scope py_scope.

Definition IGNORE_INDEX : Z := (-1)%Z.

(** *** softmax_cross_entropy *)

Section CrossEntropy.

Context {libm : Libm}.

(** The term of one position: minus the log-probability of its class.
    A class outside [0, K) is refused. *)
Definition nll_term (row : list Qc) (c : Z) : result Qc :=
  if ((0 <=? c)%Z && (c <? Z.of_nat (length row))%Z)%bool
  then Return (- nth (Z.to_nat c) (log_softmax row) 0)
  else Raise IndexError.

(** [torch.nn.CrossEntropyLoss(ignore_index=...)], mean reduction: one
    pass over the positions that skips the ignored ones and keeps the
    running total and the number of positions counted. *)
Fixpoint nll_accumulate (ignore_index : Z) (positions : list (list Qc * Z))
    (total : Qc) (count : nat) : result (Qc * nat) :=
  match positions with
  | [] => Return (total, count)
  | (row, c) :: rest =>
      if (c =? ignore_index)%Z
      then nll_accumulate ignore_index rest total count
      else
        v <- nll_term row c ;;
        nll_accumulate ignore_index rest (total + v) (S count)
  end.

Definition CrossEntropyLoss (ignore_index : Z)
    (positions : list (list Qc * Z)) : result float :=
  acc <- nll_accumulate ignore_index positions 0 O ;;
  Return (true_divide (fst acc) (of_nat (snd acc))).

(** [loss_fn(move_axis(x, -1, 1), t)]. The criterion wants the class
    axis second and [move_axis] brings the last axis of [x] there, so
    the logits of the i-th position are the i-th run of K entries of
    [x], and its label is the i-th entry of [t]. A single vector of K
    logits with one label is one position. *)
Definition positions (x : Tensor Qc) (t : Tensor Z) : result (list (list Qc * Z)) :=
  match rev (size x) with
  | [] => Raise IndexError
  | K :: _ => Return (combine (chunk K (numel (size t)) (data x)) (data t))
  end.

Definition softmax_cross_entropy_tensor (x : Tensor Qc) (t : Tensor Z)
    : result float :=
  assert (size_eqb (removelast (size x)) (size t)) ;;;
  ps <- positions x t ;;
  CrossEntropyLoss IGNORE_INDEX ps.

Definition softmax_cross_entropy (x : pyarg Qc) (t : pyarg Z) : result float :=
  match x, t with
  | ATensor x', ATensor t' => softmax_cross_entropy_tensor x' t'
  | APacked x', APacked t' =>
      softmax_cross_entropy_tensor (pdata x') (pdata t')
  | _, _ => Raise (incompatible_types x t)
  end.

(** The loss with the ignored positions taken out by hand: the plain
    mean of the terms of the positions that remain. *)
Fixpoint nll_terms (positions : list (list Qc * Z)) : result (list Qc) :=
  match positions with
  | [] => Return []
  | (row, c) :: rest =>
      v <- nll_term row c ;;
      vs <- nll_terms rest ;;
      Return (v :: vs)
  end.

Definition mean_cross_entropy (positions : list (list Qc * Z)) : result float :=
  vs <- nll_terms positions ;;
  Return (Num.mean vs).

Definition not_ignored (p : list Qc * Z) : bool :=
  negb (snd p =? IGNORE_INDEX)%Z.

End CrossEntropy.

(** *** deep_clustering_loss *)

(** The branch for two plain tensors. *)
Definition deep_clustering_loss_tensor (x t : Tensor Qc) : result float :=
  N <- size0 x ;;
  xx <- einsum x x ;;
  xt <- einsum x t ;;
  tt <- einsum t t ;;
  Return (floor_divide
            (torch_sum (pow2 xx) - (1 + 1) * torch_sum (pow2 xt)
             + torch_sum (pow2 tt))
            (of_nat (N ^ 2))).

(** [pad_packed_sequence]: the number of frames of each sequence ... *)
Definition num_frames (batch_sizes : list nat) : list nat :=
  map (fun b => length (filter (fun alive => Nat.ltb b alive) batch_sizes))
      (seq 0 (hd O batch_sizes)).

(** ... and where frame [tau] of sequence [b] starts in the packed data,
    counted in frames. *)
Definition frame_index (batch_sizes : list nat) (tau b : nat) : nat :=
  fold_right Nat.add O (firstn tau batch_sizes) + b.

(** [pad_packed_sequence(x)[0][:n, b, :, :].view(-1, x.size()[-1])] for
    packed data of size (sum_T, F, E): the [n] first frames of sequence
    [b], as [n * F] rows of [E] entries. Frames below the length of a
    sequence are never padding. [view] cannot infer -1 next to a zero,
    and it does not copy: in a padded batch of B sequences the frames
    of one sequence lie B * F * E entries apart, so that the F rows of
    two or more frames are one run of rows only if B is 1 or F is 1. *)
Definition sequence_rows (x : PackedSequence Qc) (n b : nat) : result (Tensor Qc) :=
  match size (pdata x) with
  | [_; F; E] =>
      if Nat.eqb E 0 then Raise RuntimeError
      else if Nat.ltb 1 (hd O (batch_sizes x)) && Nat.ltb 1 n && Nat.ltb 1 F
      then Raise RuntimeError
      else
        Return (mkTensor [n * F; E]
          (flat_map (fun tau =>
             firstn (F * E)
               (skipn (frame_index (batch_sizes x) tau b * (F * E))
                      (data (pdata x))))
             (seq 0 n)))%nat
  | _ => Raise IndexError
  end.

Fixpoint sequence_losses (x t : PackedSequence Qc) (b : nat) (lengths : list nat)
    : result (list float) :=
  match lengths with
  | [] => Return []
  | n :: rest =>
      xb <- sequence_rows x n b ;;
      tb <- sequence_rows t n b ;;
      l <- deep_clustering_loss_tensor xb tb ;;
      ls <- sequence_losses x t (S b) rest ;;
      Return (l :: ls)
  end.

(** [torch.mean(torch.stack(losses))]; nothing to stack is an error. *)
Definition mean_of_stack (losses : list float) : result float :=
  match losses with
  | [] => Raise RuntimeError
  | _ => Return (fmean losses)
  end.

Definition deep_clustering_loss (x t : pyarg Qc) : result float :=
  match x, t with
  | ATensor x', ATensor t' => deep_clustering_loss_tensor x' t'
  | APacked x', APacked t' =>
      ls <- sequence_losses x' t' O (num_frames (batch_sizes t')) ;;
      mean_of_stack ls
  | _, _ => Raise (incompatible_types x t)
  end.

(** The loss as the specification words it: the combination of squared
    Frobenius norms, divided by N squared. *)
Definition frobenius_sq (m : Tensor Qc) : Qc := torch_sum (pow2 m).

Definition deep_clustering_objective (x t : Tensor Qc) : result float :=
  N <- size0 x ;;
  xx <- einsum x x ;;
  xt <- einsum x t ;;
  tt <- einsum t t ;;
  Return (true_divide
            (frobenius_sq xx - (1 + 1) * frobenius_sq xt + frobenius_sq tt)
            (of_nat (N ^ 2))).

(** *** pit_mse_loss *)

(** [target[:, permutation, :]]: along the second axis, the slots that
    [permutation] lists, in its order. *)
Definition select_sources (target : Tensor Qc) (permutation : list nat)
    : result (Tensor Qc) :=
  match size target with
  | T :: K :: F :: more =>
      if forallb (fun k => Nat.ltb k K) permutation then
        let inner := numel (F :: more) in
        Return (mkTensor (T :: length permutation :: F :: more)
          (flat_map (fun tau =>
             flat_map (fun k =>
               firstn inner (skipn ((tau * K + k) * inner) (data target)))
               permutation)
             (seq 0 T)))
      else Raise IndexError
  | _ => Raise IndexError
  end.

(** [torch.nn.functional.mse_loss], mean reduction, on operands of one
    size (the sizes met here are equal or cannot be broadcast). *)
Definition squared_error (p : Qc * Qc) : Qc :=
  (fst p - snd p) * (fst p - snd p).

Definition mse_loss (a b : Tensor Qc) : result float :=
  if size_eqb (size a) (size b)
  then Return (Num.mean (map squared_error (combine (data a) (data b))))
  else Raise RuntimeError.

(** [itertools.permutations(range(2))]. *)
Definition permutations_of_two : list (list nat) := [[0; 1]; [1; 0]]%nat.

Fixpoint candidates (estimate target : Tensor Qc) (perms : list (list nat))
    : result (list float) :=
  match perms with
  | [] => Return []
  | permutation :: rest =>
      permuted <- select_sources target permutation ;;
      c <- mse_loss estimate permuted ;;
      cs <- candidates estimate target rest ;;
      Return (c :: cs)
  end.

(** [torch.min(torch.stack(candidates))]. *)
Definition min_of_stack (cs : list float) : result float :=
  match cs with
  | [] => Raise RuntimeError
  | c :: rest => Return (fold_left fmin rest c)
  end.

Definition pit_mse_loss (estimate target : Tensor Qc) : result float :=
  assert (size_eqb (size estimate) (size target)) ;;;
  cs <- candidates estimate target permutations_of_two ;;
  min_of_stack cs.

(** *** kl_normal_multivariatenormals *)

(** [torch.distributions.Normal]: mean and scale per dimension. *)
Module Normal.
Record t : Type := make { loc : Tensor Qc; scale : Tensor Qc }.
End Normal.

(** [torch.distributions.MultivariateNormal]: mean and lower-triangular
    factor of the covariance. *)
Module MultivariateNormal.
Record t : Type := make { loc : Tensor Qc; scale_tril : Tensor Qc }.
End MultivariateNormal.

Definition matrix : Type := list (list Qc).

Fixpoint zip_with {A B C : Type} (f : A -> B -> C) (l : list A) (l' : list B)
    : list C :=
  match l, l' with
  | a :: r, b :: r' => f a b :: zip_with f r r'
  | _, _ => []
  end.

Definition sq (v : Qc) : Qc := v * v.

Definition half : Qc := / (1 + 1).

(** [s[-1]]. *)
Definition last_dim (s : list nat) : result nat :=
  match rev s with
  | [] => Raise IndexError
  | d :: _ => Return d
  end.

(** [t.contiguous().view(-1, w)]: the rows of [w] entries. The size -1
    cannot be inferred next to a zero, nor when [w] does not divide the
    number of entries. *)
Definition view_rows (w : nat) (t : Tensor Qc) : result (list (list Qc)) :=
  if Nat.eqb w 0 then Raise RuntimeError
  else if Nat.eqb (length (data t) mod w) 0
       then Return (chunk w (length (data t) / w) (data t))
       else Raise RuntimeError.

(** [l[::step]]. *)
Definition slice_step (step : nat) (l : list Qc) : list Qc :=
  map (fun i => nth (i * step) l 0) (seq 0 ((length l + step - 1) / step)).

(** [_batch_diag] on one matrix: flatten it, take every (n+1)-th entry. *)
Definition _batch_diag (m : matrix) : list Qc :=
  slice_step (length m + 1) (concat m).

Section KL.

Context {libm : Libm} {fp : Float}.

(** [m.inverse() for m in flat_bmat]. *)
Fixpoint inverses (ms : list matrix) : result (list matrix) :=
  match ms with
  | [] => Return []
  | m :: rest =>
      i <- fl_inverse m ;;
      rest' <- inverses rest ;;
      Return (i :: rest')
  end.

(** [_batch_inverse]: invert matrix by matrix and stack the inverses;
    [torch.stack] refuses to stack nothing. *)
Definition _batch_inverse (ms : list matrix) : result (list matrix) :=
  stacked <- inverses ms ;;
  match stacked with
  | [] => Raise RuntimeError
  | _ => Return stacked
  end.

(** [L.pow(2).sum(-2)]: per column, the sum of the squared entries. *)
Definition column_square_sums (D : nat) (L : matrix) : list Qc :=
  map (fun d => fl_sum (map (fun row => fl (sq (nth d row 0))) L)) (seq 0 D).

(** [v @ L.transpose()]: entry j is the product of [v] with row j. *)
Definition matmul_transposed (v : list Qc) (L : matrix) : list Qc :=
  map (fun row => fl_dot v row) L.

(** [_batch_diag(p_scale_tril).log().sum(-1) - q_scale.log().sum(-1)];
    the logarithm is a number on positive scales only. *)
Definition term1 (p_scale_tril : matrix) (q_scale : list Qc) : Qc :=
  fl (fl_sum (map ln (_batch_diag p_scale_tril)) - fl_sum (map ln q_scale)).

(** [(L.pow(2).sum(-2) * q_scale.pow(2)).sum(-1)]. *)
Definition term2 (D : nat) (L : matrix) (q_scale : list Qc) : Qc :=
  fl_sum (zip_with (fun c s => fl (c * s)) (column_square_sums D L)
            (map (fun s => fl (sq s)) q_scale)).

(** [((p_loc - q_loc) @ L.transpose(1, 2)).pow(2.0).sum(-1)]. *)
Definition term3 (L : matrix) (p_loc q_loc : list Qc) : Qc :=
  fl_sum (map (fun v => fl (sq v))
            (matmul_transposed (zip_with (fun a b => fl (a - b)) p_loc q_loc) L)).

(** One entry of the result, [term1 + 0.5 * (term2 + term3 - D)]:
    posterior [(q_loc, q_scale)] against the component
    [(p_loc, p_scale_tril)] whose inverted factor is [L]. *)
Definition kl_entry (D : nat) (q_loc q_scale p_loc : list Qc)
    (p_scale_tril L : matrix) : Qc :=
  fl (term1 p_scale_tril q_scale
      + fl (half * fl (fl (term2 D L q_scale + term3 L p_loc q_loc)
                       - fl (of_nat D)))).

Definition kl_normal_multivariatenormals (q : Normal.t) (p : MultivariateNormal.t)
    : result (Tensor Qc) :=
  let batch_shape := removelast (size (Normal.loc q)) in
  D <- last_dim (size (Normal.loc q)) ;;
  let component_shape := removelast (size (MultivariateNormal.loc p)) in
  D' <- last_dim (size (MultivariateNormal.loc p)) ;;
  assert (Nat.eqb D' D) ;;;
  q_loc <- view_rows D (Normal.loc q) ;;
  q_scale <- view_rows D (Normal.scale q) ;;
  p_loc <- view_rows D (MultivariateNormal.loc p) ;;
  flat <- view_rows (D * D) (MultivariateNormal.scale_tril p) ;;
  let p_scale_tril := map (chunk D D) flat in
  L <- _batch_inverse p_scale_tril ;;
  (* the operands of the broadcast sums have to line up, as the
     parameters of a distribution do *)
  if negb (Nat.eqb (length q_scale) (length q_loc)
           && Nat.eqb (length p_scale_tril) (length p_loc)) then Raise RuntimeError
  else
    let component := combine p_loc (combine p_scale_tril L) in
    let kl :=
      flat_map (fun qb =>
        map (fun pk =>
          kl_entry D (fst qb) (snd qb) (fst pk) (fst (snd pk)) (snd (snd pk)))
          component)
        (combine q_loc q_scale) in
    (* kl.view( *batch_shape, *component_shape): [view] wants a size *)
    match batch_shape ++ component_shape with
    | [] => Raise TypeError
    | shape =>
        if Nat.eqb (numel shape) (length kl)
        then Return (mkTensor shape kl)
        else Raise RuntimeError
    end.

End KL.

End Loss.

(** ** Arithmetics

    [Exact] is the arithmetic that does not round; its inverse is found
    by Gauss-Jordan elimination, and in exact arithmetic every inversion
    scheme returns the same matrix. [Binary] rounds to the nearest
    number with p binary digits, ties to even, as IEEE 754 does while
    nothing leaves the range of the format: p = 53 is double precision,
    p = 24 single precision. *)

Module Exact.

Import Loss.
Local Open Scope Qc_scope.

(** [Tensor.inverse] by Gauss-Jordan elimination on the rows of [m]
    extended by those of the identity. *)
Definition unit_vector (n i : nat) : list Qc :=
  map (fun j => if Nat.eqb i j then 1 else 0) (seq 0 n).

Definition augment (m : matrix) : matrix :=
  zip_with (fun row i => row ++ unit_vector (length m) i) m (seq 0 (length m)).

(** [r - r[j] * p]: clear column [j] of row [r] with the pivot row [p]. *)
Definition eliminate (j : nat) (p r : list Qc) : list Qc :=
  zip_with (fun a b => a - nth j r 0 * b) r p.

(** The first row with a non-zero entry in column [j], and the others. *)
Fixpoint find_pivot (j : nat) (rows : matrix) : option (list Qc * matrix) :=
  match rows with
  | [] => None
  | r :: rest =>
      if is_zero (nth j r 0) then
        match find_pivot j rest with
        | Some (p, others) => Some (p, r :: others)
        | None => None
        end
      else Some (r, rest)
  end.

Fixpoint gauss_jordan (columns : list nat) (done todo : matrix) : option matrix :=
  match columns with
  | [] => Some done
  | j :: columns' =>
      match find_pivot j todo with
      | None => None
      | Some (p, others) =>
          let p' := map (fun v => v / nth j p 0) p in
          gauss_jordan columns'
            (map (eliminate j p') done ++ [p'])
            (map (eliminate j p') others)
      end
  end.

Definition inverse (m : matrix) : result matrix :=
  match gauss_jordan (seq 0 (length m)) [] (augment m) with
  | Some rows => Return (map (skipn (length m)) rows)
  | None => Raise RuntimeError
  end.

Definition dot (v row : list Qc) : Qc := Num.sum (zip_with Qcmult v row).

Definition arithmetic : Float :=
  {| fl := fun v => v; fl_sum := Num.sum; fl_dot := dot; fl_inverse := inverse |}.

End Exact.

Module Binary.

Local Open Scope Z_scope.

(** [num / den] rounded to the nearest integer, ties to even. *)
Definition nearest_even (num den : Z) : Z :=
  let k := num / den in
  match 2 * (num mod den) ?= den with
  | Lt => k
  | Gt => k + 1
  | Eq => if Z.even k then k else k + 1
  end.

(** [2 ^ e] where [e] is positive and 1 elsewhere, so that [2 ^ e] is
    [up e / up (- e)] for every [e]. *)
Definition up (e : Z) : Z := 2 ^ Z.max 0 e.

(** [2 ^ l <= n / d], for positive [n] and [d]. *)
Definition reaches (n d l : Z) : bool := d * up l <=? n * up (- l).

(** The exponent [e] of [n / d] in precision [p]:
    [2 ^ (p - 1) <= (n / d) / 2 ^ e < 2 ^ p]. *)
Definition exponent (p n d : Z) : Z :=
  let l := Z.log2 n - Z.log2 d in
  (if reaches n d l then l else l - 1) - (p - 1).

Definition round (p : Z) (q : Qc) : Qc :=
  let n := Z.abs (Qnum q) in
  let d := Z.pos (Qden q) in
  if n =? 0 then q
  else
    let e := exponent p n d in
    let k := nearest_even (n * up (- e)) (d * up e) in
    Q2Qc (Qmake (Z.sgn (Qnum q) * k * up e) (Z.to_pos (up (- e)))).

(** The kernels that add up do it from left to right, rounding each
    time; the inverse is the inverse rounded entry by entry, which on a
    diagonal matrix is what the elimination of the library returns. *)
Definition sum (p : Z) (l : list Qc) : Qc :=
  fold_left (fun acc v => round p (acc + v)%Qc) l 0%Qc.

Definition dot (p : Z) (v row : list Qc) : Qc :=
  fold_left (fun acc ab => round p (acc + round p (fst ab * snd ab))%Qc)
            (combine v row) 0%Qc.

Definition inverse (p : Z) (m : list (list Qc)) : result (list (list Qc)) :=
  match Exact.inverse m with
  | Return rows => Return (map (map (round p)) rows)
  | Raise e => Raise e
  end.

Definition arithmetic (p : Z) : Float :=
  {| fl := round p; fl_sum := sum p; fl_dot := dot p; fl_inverse := inverse p |}.

(** [c * 2 ^ e <= n / d] and [n / d < c * 2 ^ e], without fractions. *)
Definition at_least (n d e c : Z) : Prop := c * (d * up e) <= n * up (- e).
Definition below (n d e c : Z) : Prop := n * up (- e) < c * (d * up e).

(** [n / d] has the exponent [e] in precision [p]. *)
Definition bracket (p n d e : Z) : Prop :=
  at_least n d e (2 ^ (p - 1)) /\ below n d e (2 ^ p).

(** The numbers with p binary digits: zero, and [k * 2 ^ e] with
    [2 ^ (p - 1) <= k < 2 ^ p], of either sign. *)
Definition representable (p : Z) (q : Qc) : Prop :=
  q = 0%Qc
  \/ exists k e : Z,
       2 ^ (p - 1) <= k < 2 ^ p
       /\ Z.abs (Qnum q) * up (- e) = k * (Z.pos (Qden q) * up e).

End Binary.

(** ** The trainer, as the hooks see it *)

(** Modelled from the spec: the timer of [padertorch.train.trainer] is not
    among the sources; it is "a mapping from metric name to an ordered
    sequence of numeric samples accumulated since the last reset". *)
Module Timer.
Record t : Type := make { timings : dict (list Qc) }.
(** The samples of each name as an array. *)
Definition as_dict (timer : t) : dict (list Qc) := timings timer.
Definition empty : t := make [].
End Timer.

Module Trainer.
Record t : Type := make {
  iteration : nat;
  epoch : nat;
  timer : Timer.t;
  storage_dir : string
}.
End Trainer.

(** What a model hands back for one step: [review.get(name, dict())] is
    the field [name], empty when the review has no such entry. *)
Inductive pyval : Type :=
| PyArray (samples : list Qc)
| PyInt (n : Z).

Inductive audio : Type :=
| AudioSequence (items : list pyval)   (* a tuple or a list *)
| AudioArray (samples : list Qc).

Module Review.
Record t : Type := make {
  losses : dict Qc;
  scalars : dict Qc;
  histograms : dict (Tensor Qc);
  audios : dict audio;
  images : dict (Tensor Qc)
}.
End Review.

(** The methods of the trainer that the hooks call; the class itself is
    not among the sources. [validate] yields the reviews of one pass over
    the iterator and leaves the trainer in some state. *)
Class TrainerMethods (Iterator : Type) : Type := {
  reset_timer : Trainer.t -> Trainer.t;
  validate : Trainer.t -> Iterator -> list Review.t * Trainer.t
}.

(** A trigger is called with the iteration and the epoch, answers, and
    may remember the call. The classes of [padertorch.train.trigger] are
    not among the sources. *)
Class Trigger (T : Type) : Type := {
  call : T -> nat -> nat -> bool * T
}.

(** ** hooks.py *)

Module Hooks.

Local Open Scope string_scope.

(** *** Methods: state and exceptions

    A method runs on the hook, the trainer it is handed and the
    standard output; what it changed stays changed when it raises. *)
Record World (H : Type) : Type := mkWorld {
  self : H;
  trainer : Trainer.t;
  stdout : list string
}.

Definition M (H A : Type) : Type := World H -> result A * World H.

Definition ret {H A : Type} (a : A) : M H A := fun w => (Return a, w).

Definition raise {H A : Type} (e : exn) : M H A := fun w => (Raise e, w).

Definition bind {H A B : Type} (m : M H A) (k : A -> M H B) : M H B :=
  fun w =>
    match m w with
    | (Return a, w') => k a w'
    | (Raise e, w') => (Raise e, w')
    end.

Definition get_self {H : Type} : M H H := fun w => (Return (self w), w).

Definition get_trainer {H : Type} : M H Trainer.t :=
  fun w => (Return (trainer w), w).

Definition set_self {H : Type} (f : H -> H) : M H unit :=
  fun w => (Return tt, mkWorld (f (self w)) (trainer w) (stdout w)).

Definition set_trainer {H : Type} (f : Trainer.t -> Trainer.t) : M H unit :=
  fun w => (Return tt, mkWorld (self w) (f (trainer w)) (stdout w)).

Definition print {H : Type} (line : string) : M H unit :=
  fun w => (Return tt, mkWorld (self w) (trainer w) (stdout w ++ [line])).

Definition assert {H : Type} (b : bool) : M H unit :=
  if b then ret tt else raise AssertionError.

Fixpoint for_each {H A : Type} (items : list A) (body : A -> M H unit) : M H unit :=
  match items with
  | [] => ret tt
  | a :: rest => bind (body a) (fun _ => for_each rest body)
  end.

End Hooks.

Declare Scope hook_scope.
Delimit Scope hook_scope with hook.
Notation "x <- c1 ;; c2" := (Hooks.bind c1 (fun x => c2))
  (at level 61, c1 at next level, right associativity) : hook_scope.
Notation "c1 ;;; c2" := (Hooks.bind c1 (fun _ => c2))
  (at level 61, right associativity) : hook_scope.

(** *** What the hooks write: the tensorboard log *)

Inductive event : Type :=
| add_scalar (tag : string) (scalar_value : float) (global_step : nat)
| add_histogram (tag : string) (values : list Qc) (global_step : nat)
| add_audio (tag : string) (snd_tensor : pyval) (global_step : nat)
            (sample_rate : pyval)
| add_image (tag : string) (img_tensor : Tensor Qc) (global_step : nat).

Module SummaryWriter.
Record t : Type := make {
  logdir : string;
  filename_suffix : string;
  events : list event
}.
Definition record (e : event) (w : t) : t :=
  make (logdir w) (filename_suffix w) (events w ++ [e]).
End SummaryWriter.

Module Summary.
Record t : Type := make {
  losses : dict (list Qc);
  scalars : dict (list Qc);
  histograms : dict (list Qc);
  audios : dict audio;
  images : dict (Tensor Qc)
}.
End Summary.

(** The array a timer entry is, or the number a ratio of sums is. *)
Inductive ndarray : Type :=
| Array (samples : list Qc)
| Number (v : float).

Definition ndarray_mean (a : ndarray) : float :=
  match a with
  | Array samples => Num.mean samples
  | Number v => v
  end.

Module BaseHook.
Definition priority : nat := 15.
End BaseHook.

Module SummaryHook.

Import Hooks.
Local Open Scope string_scope.
Local Open Scope hook_scope.

(** The attributes of a summary hook; [ext] holds those a subclass
    adds, so that the methods below are the ones it inherits. *)
Record t (T Ext : Type) : Type := make {
  trigger : T;
  summary : Summary.t;
  summary_prefix : string;
  storage_dir : option string;
  writer : option SummaryWriter.t;
  ext : Ext
}.

Definition priority : nat := 50.

Definition empty_summary_dict : Summary.t := Summary.make [] [] [] [] [].

Section Methods.

Context {T Ext Iterator : Type} {trig : Trigger T}
        {methods : TrainerMethods Iterator}.

Definition with_trigger (g : T) (h : t T Ext) : t T Ext :=
  make g (summary h) (summary_prefix h) (storage_dir h) (writer h) (ext h).

Definition with_summary (s : Summary.t) (h : t T Ext) : t T Ext :=
  make (trigger h) s (summary_prefix h) (storage_dir h) (writer h) (ext h).

Definition with_storage_dir (d : option string) (h : t T Ext) : t T Ext :=
  make (trigger h) (summary h) (summary_prefix h) d (writer h) (ext h).

Definition with_writer (w : SummaryWriter.t) (h : t T Ext) : t T Ext :=
  make (trigger h) (summary h) (summary_prefix h) (storage_dir h) (Some w)
       (ext h).

(** [__init__], on the trigger that [IntervalTrigger.new] built. *)
Definition init (trigger : T) (summary_prefix : string) (e : Ext) : t T Ext :=
  make trigger empty_summary_dict summary_prefix None None e.

(** [str(self.storage_dir)]. *)
Definition str_storage_dir (h : t T Ext) : string :=
  match storage_dir h with
  | Some d => d
  | None => "None"
  end.

(** The cached property [writer]: built on first use. *)
Definition the_writer (h : t T Ext) : SummaryWriter.t :=
  match writer h with
  | Some w => w
  | None => SummaryWriter.make (str_storage_dir h) (summary_prefix h) []
  end.

(** [self.writer.add_...(...)]. *)
Definition write (e : event) : M (t T Ext) unit :=
  set_self (fun h => with_writer (SummaryWriter.record e (the_writer h)) h).

Definition reset_summary : M (t T Ext) unit :=
  set_self (with_summary empty_summary_dict).

(** [d[key].append(v)] on a [defaultdict(list)]. *)
Definition append (d : dict (list Qc)) (key : string) (v : Qc) : dict (list Qc) :=
  Py.set d key (match Py.get d key with
              | Some l => (l ++ [v])%list
              | None => [v]
              end).

(** [a[-n:]]. *)
Definition last_values (n : nat) (a : list Qc) : list Qc :=
  skipn (length a - n) a.

Definition update (s : Summary.t) (review : Review.t) : Summary.t :=
  let s1 :=
    fold_left (fun s kv =>
      Summary.make (append (Summary.losses s) (fst kv) (snd kv))
        (Summary.scalars s) (Summary.histograms s) (Summary.audios s)
        (Summary.images s))
      (Review.losses review) s in
  let s2 :=
    fold_left (fun s kv =>
      Summary.make (Summary.losses s)
        (append (Summary.scalars s) (fst kv) (snd kv))
        (Summary.histograms s) (Summary.audios s) (Summary.images s))
      (Review.scalars review) s1 in
  let s3 :=
    fold_left (fun s kv =>
      Summary.make (Summary.losses s) (Summary.scalars s)
        (Py.set (Summary.histograms s) (fst kv)
           (last_values (100 * 100)   (* [-10000:] *)
              ((match Py.get (Summary.histograms s) (fst kv) with
                | Some old => old
                | None => []
                end) ++ data (snd kv))%list))
        (Summary.audios s) (Summary.images s))
      (Review.histograms review) s2 in
  let s4 :=
    fold_left (fun s kv =>
      Summary.make (Summary.losses s) (Summary.scalars s)
        (Summary.histograms s)
        (Py.set (Summary.audios s) (fst kv) (snd kv)) (Summary.images s))
      (Review.audios review) s3 in
  fold_left (fun s kv =>
    Summary.make (Summary.losses s) (Summary.scalars s)
      (Summary.histograms s) (Summary.audios s)
      (Py.set (Summary.images s) (fst kv) (snd kv)))
    (Review.images review) s4.

Definition update_summary (review : Review.t) : M (t T Ext) unit :=
  set_self (fun h => with_summary (update (summary h) review) h).

Definition tag (prefix key : string) : string := prefix ++ "/" ++ key.

Definition timing_warning (n_step n_scalar : nat) : string :=
  "Warning: padertorch.Trainer timing bug."
  ++ "len(time_per_step) == " ++ str_nat n_step ++ " "
  ++ "!= len(scalar) == " ++ str_nat n_scalar.

(** The body of the loop over the timer. *)
Definition dump_timing (as_dict : dict (list Qc)) (prefix : string)
    (iteration : nat) (item : string * list Qc) : M (t T Ext) unit :=
  let key := fst item in
  let scalar := snd item in
  if (String.eqb key "time_per_data_loading"
      || String.eqb key "time_per_train_step")%bool then
    match Py.get as_dict "time_per_step" with
    | Some time_per_step =>
        (if negb (Nat.eqb (length time_per_step) (length scalar))
         then print (timing_warning (length time_per_step) (length scalar))
         else ret tt) ;;;
        let scalar' :=
          Number (true_divide (Num.sum scalar) (Num.sum time_per_step)) in
        let key' :=
          if String.eqb key "time_per_data_loading"
          then "time_rel_data_loading"
          else if String.eqb key "time_per_train_step"
               then "time_rel_train_step"
               else key in
        write (add_scalar (tag prefix key') (ndarray_mean scalar') iteration)
    | None =>
        (* Something went wrong, most likely an exception. *)
        write (add_scalar (tag prefix key) (ndarray_mean (Array scalar))
                 iteration)
    end
  else
    write (add_scalar (tag prefix key) (ndarray_mean (Array scalar))
             iteration).

(** The body of the loop over the audio snapshots. *)
Definition dump_audio (prefix : string) (iteration : nat)
    (item : string * audio) : M (t T Ext) unit :=
  match snd item with
  | AudioSequence items =>
      Hooks.assert (Nat.eqb (length items) 2) ;;;
      write (add_audio (tag prefix (fst item)) (nth 0 items (PyInt 0))
               iteration (nth 1 items (PyInt 0)))
  | AudioArray samples =>
      write (add_audio (tag prefix (fst item)) (PyArray samples)
               iteration (PyInt 16000))
  end.

Definition dump_summary : M (t T Ext) unit :=
  tr <- get_trainer ;;
  h <- get_self ;;
  let iteration := Trainer.iteration tr in
  let timer := Trainer.timer tr in
  let prefix := summary_prefix h in
  for_each (Summary.losses (summary h)) (fun kv =>
    write (add_scalar (tag prefix (fst kv)) (Num.mean (snd kv)) iteration)) ;;;
  for_each (Summary.scalars (summary h)) (fun kv =>
    write (add_scalar (tag prefix (fst kv)) (Num.mean (snd kv)) iteration)) ;;;
  for_each (Timer.as_dict timer)
    (dump_timing (Timer.as_dict timer) prefix iteration) ;;;
  for_each (Summary.histograms (summary h)) (fun kv =>
    write (add_histogram (tag prefix (fst kv)) (snd kv) iteration)) ;;;
  for_each (Summary.audios (summary h)) (dump_audio prefix iteration) ;;;
  for_each (Summary.images (summary h)) (fun kv =>
    write (add_image (tag prefix (fst kv)) (snd kv) iteration)) ;;;
  reset_summary ;;;
  set_trainer reset_timer.

(** [self.trigger(iteration=..., epoch=...)]. *)
Definition call_trigger : M (t T Ext) bool :=
  tr <- get_trainer ;;
  h <- get_self ;;
  let answer := call (trigger h) (Trainer.iteration tr) (Trainer.epoch tr) in
  set_self (with_trigger (snd answer)) ;;;
  ret (fst answer).

Definition pre_step : M (t T Ext) unit :=
  fired <- call_trigger ;;
  tr <- get_trainer ;;
  if (fired || Nat.eqb (Trainer.iteration tr) 1)%bool
  then dump_summary
  else ret tt.

Definition post_step (review : Review.t) : M (t T Ext) unit :=
  tr <- get_trainer ;;
  h <- get_self ;;
  match storage_dir h with
  | None => set_self (with_storage_dir (Some (Trainer.storage_dir tr)))
  | Some d => Hooks.assert (String.eqb d (Trainer.storage_dir tr))
  end ;;;
  update_summary review.

Definition close : M (t T Ext) unit := dump_summary.

End Methods.

End SummaryHook.

Module ValidationHook.

Import Hooks.
Local Open Scope string_scope.
Local Open Scope hook_scope.

Definition priority : nat := 20.

Section Methods.

Context {T Iterator : Type} {trig : Trigger T}
        {methods : TrainerMethods Iterator}.

(** A summary hook with one attribute more, the iterator. *)
Definition t : Type := SummaryHook.t T Iterator.

Definition iterator (h : t) : Iterator := SummaryHook.ext h.

Definition init (trigger : T) (iterator : Iterator) : t :=
  SummaryHook.init trigger "validation" iterator.

(** [len(trainer.timer.timings) == 0]. *)
Definition timer_is_empty (tr : Trainer.t) : bool :=
  Nat.eqb (length (Timer.timings (Trainer.timer tr))) 0.

(** [trainer.validate(self.iterator)], consumed to its end. *)
Definition run_validate : M t (list Review.t) :=
  tr <- get_trainer ;;
  h <- get_self ;;
  let outcome := validate tr (iterator h) in
  set_trainer (fun _ => snd outcome) ;;;
  ret (fst outcome).

Definition pre_step : M t unit :=
  fired <- SummaryHook.call_trigger ;;
  if fired : bool then
    tr <- get_trainer ;;
    Hooks.assert (timer_is_empty tr) ;;;
    print "Starting Validation" ;;;
    evaluation <- run_validate ;;
    for_each evaluation SummaryHook.update_summary ;;;
    SummaryHook.dump_summary ;;;
    tr' <- get_trainer ;;
    Hooks.assert (timer_is_empty tr') ;;;
    print "Finished Validation"
  else ret tt.

End Methods.

End ValidationHook.

Module StopTrainingHook.

Import Hooks.
Local Open Scope string_scope.
Local Open Scope hook_scope.

Record t (T : Type) : Type := make { trigger : T }.

Definition priority : nat := 10.

Section Methods.

Context {T : Type} {trig : Trigger T}.

Definition training_ended (tr : Trainer.t) : string :=
  "Training ended after " ++ str_nat (Trainer.epoch tr) ++ " epochs and"
  ++ " " ++ str_nat (Trainer.iteration tr) ++ " iterations".

Definition pre_step : M (t T) unit :=
  tr <- get_trainer ;;
  h <- get_self ;;
  let answer := call (trigger h) (Trainer.iteration tr) (Trainer.epoch tr) in
  set_self (fun _ => make (snd answer)) ;;;
  if fst answer then
    print (training_ended tr) ;;;
    raise StopTraining
  else ret tt.

End Methods.

End StopTrainingHook.

(** ** contrib/examples/mask_estimator/train.py *)

Module Train.

Local Open Scope string_scope.
Local Open Scope py_scope.

(** What [warn] is called with: one of the two messages, and the keys
    the message lists. *)
Inductive warning : Type :=
| KeysChanged (keys : list string)
| KeysAdded (keys : list string).

(** [str] of a list of keys, as an f-string prints it. *)
Definition repr_keys (keys : list string) : string :=
  "[" ++ String.concat ", " (map (fun k => "'" ++ k ++ "'") keys) ++ "]".

Definition message (w : warning) : string :=
  match w with
  | KeysChanged keys =>
      "The following keys have changed in comparison to the init:"
      ++ repr_keys keys
  | KeysAdded keys =>
      "The following keys have been added in comparison to the init:"
      ++ repr_keys keys
  end.

Section Configs.

(** The values of a flattened config, and [==] on them. *)
Variable V : Type.
Variable eqb : V -> V -> bool.

Definition keys (d : dict V) : list string := map fst d.

(** [init[key] == config[key]]. *)
Definition same_value (init config : dict V) (key : string) : bool :=
  match Py.get init key, Py.get config key with
  | Some a, Some b => eqb a b
  | _, _ => false
  end.

(** [compare_configs], on the flattened config and on the flattened
    content of init.json; it returns the warnings it gave. *)
Definition compare_configs (config init : dict V) : result (list warning) :=
  Py.assert (forallb (Py.contains config) (keys init)) ;;;
  let changed :=
    if negb (forallb (same_value init config) (keys init))
    then [KeysChanged
            (filter (fun key => negb (same_value init config key)) (keys init))]
    else [] in
  let added :=
    if negb (forallb (Py.contains init) (keys config))
    then [KeysAdded
            (filter (fun key => negb (Py.contains init key)) (keys config))]
    else [] in
  Return (changed ++ added)%list.

(** [task in ['train', 'create_checkpoint']]. *)
Definition starts_anew (task : string) : bool :=
  (String.eqb task "train" || String.eqb task "create_checkpoint")%bool.

(** What [initialize_trainer_provider] has done when it comes to build
    the trainer: whether the directory is new, that is whether init.json
    was written by this call, and the warnings given. *)
Record Initialized : Type := mkInitialized {
  new : bool;
  warnings : list warning
}.

(** [ValueError(task, storage_dir)], as [str] prints its arguments. *)
Definition unknown_task (task storage_dir : string) : exn :=
  ValueError ("('" ++ task ++ "', PosixPath('" ++ storage_dir ++ "'))").

(** [initialize_trainer_provider] up to the construction of the
    trainer: [observers] is the number of observers of the run,
    [init] the flattened content of init.json when the file exists, and
    [config] the flattened config assembled from the options. What the
    function prints on the way is left out. *)
Definition initialize_trainer_provider (task : string) (observers : nat)
    (storage_dir : string) (init : option (dict V)) (config : dict V)
    : result Initialized :=
  Py.assert (Nat.eqb observers 1) ;;;
  state <-
    match init with
    | Some found =>
        ws <- compare_configs config found ;;
        Return (mkInitialized false ws)
    | None =>
        if starts_anew task
        then Return (mkInitialized true [])   (* dump_json *)
        else Raise (unknown_task task storage_dir)
    end ;;
  Py.assert (xorb (new state) (negb (starts_anew task))) ;;;
  Return state.

End Configs.

End Train.

(** ** Collaborators that are not among the sources *)

Module TriggerSpec.

(** Modelled from the spec: the triggers of [padertorch.train.trigger].
    "Interval: fires iff [iteration % period == 0] (unit iteration), or
    [epoch % period == 0] and this is the first call observed at that
    epoch (unit epoch). End: fires iff the counter in the configured unit
    has reached or exceeded the configured maximum. Or: fires iff any
    child fires; evaluates all children." *)
Inductive unit_of_time : Type := iteration | epoch.

Inductive t : Type :=
| IntervalTrigger (period : nat) (unit : unit_of_time) (last : option nat)
| EndTrigger (maximum : nat) (unit : unit_of_time)
| OrTrigger (a b : t).

Definition counter (unit : unit_of_time) (iteration epoch : nat) : nat :=
  match unit with
  | TriggerSpec.iteration => iteration
  | TriggerSpec.epoch => epoch
  end.

Fixpoint fire (g : t) (iteration epoch : nat) : bool * t :=
  match g with
  | IntervalTrigger period TriggerSpec.iteration last =>
      (Nat.eqb (iteration mod period) 0, g)
  | IntervalTrigger period TriggerSpec.epoch last =>
      (Nat.eqb (epoch mod period) 0
       && negb (match last with Some e => Nat.eqb e epoch | None => false end),
       IntervalTrigger period TriggerSpec.epoch (Some epoch))
  | EndTrigger maximum unit =>
      (Nat.leb maximum (counter unit iteration epoch), g)
  | OrTrigger a b =>
      let ra := fire a iteration epoch in
      let rb := fire b iteration epoch in
      (fst ra || fst rb, OrTrigger (snd ra) (snd rb))
  end%bool.

#[export] Instance trigger : Trigger t := {| call := fire |}.

End TriggerSpec.

Module TrainerSpec.

(** Modelled from the spec: [Trainer.reset_timer] and [Trainer.validate]
    are not among the sources. "reset clears all sequences"; the
    validation collaborator "returns a lazy sequence of Review objects,
    one per validation batch", here the reviews the iterator stands for,
    and it leaves the trainer as it found it. *)
Definition reset_timer (tr : Trainer.t) : Trainer.t :=
  Trainer.make (Trainer.iteration tr) (Trainer.epoch tr) Timer.empty
               (Trainer.storage_dir tr).

Definition validate (tr : Trainer.t) (iterator : list Review.t)
    : list Review.t * Trainer.t :=
  (iterator, tr).

#[export] Instance methods : TrainerMethods (list Review.t) :=
  Build_TrainerMethods reset_timer validate.

End TrainerSpec.

(** ** Vocabulary of the properties *)

(** A rational stand-in for the logarithms, to run the definitions on
    concrete inputs: the logarithm and the exponential to first order
    around 1 and 0. *)
Definition first_order : Libm :=
  {| ln := fun v => (v - 1)%Qc;
     log_softmax := fun row =>
       map (fun v => (v - (Num.sum row + of_nat (length row) - 1))%Qc) row |}.

Definition z (n : Z) : Qc := Q2Qc (inject_Z n).

(** Both arguments plain tensors, or both packed sequences. *)
Definition same_kind {A B : Type} (x : pyarg A) (t : pyarg B) : bool :=
  match x, t with
  | ATensor _, ATensor _ => true
  | APacked _, APacked _ => true
  | _, _ => false
  end.

(** Two orthonormal embeddings whose targets fall in one cluster. *)
Definition x_orthonormal : Tensor Qc := mkTensor [2; 2] [z 1; z 0; z 0; z 1].
Definition t_one_cluster : Tensor Qc := mkTensor [2; 2] [z 1; z 0; z 1; z 0].

(** The arguments the clustering loss is made for: a matrix of at most 2^20
    rows and 2^10 columns with entries between -1 and 1, as the entries of
    unit vectors and of masks are. On these no sum of the loss comes near
    the largest binary32 number, so that a float computes what the exact
    numbers of this development compute wherever the result does not
    depend on rounding. *)
Definition moderate (x : Tensor Qc) : Prop :=
  (exists N E : nat,
      size x = [N; E]
      /\ (Z.of_nat N <= 2 ^ 20)%Z /\ (Z.of_nat E <= 2 ^ 10)%Z)
  /\ Forall (fun v : Qc => (- (1) <= v /\ v <= 1)%Qc) (data x).

(** Three positions over two classes; the second one is labelled -1. *)
Definition logits_3x2 : Tensor Qc :=
  mkTensor [3; 2] [z 1; z 2; z 5; z 7; z 3; z 1].
Definition labels_3 : Tensor Z := mkTensor [3] [1; -1; 0]%Z.

(** The F entries of source [k] at frame [tau] of a (T, 2, F) tensor. *)
Definition source_frame (F : nat) (t : Tensor Qc) (tau k : nat) : list Qc :=
  firstn F (skipn ((tau * 2 + k) * F) (data t)).

(** The MSE between an estimate and a target of size (T, 2, F) when slot
    [k] of the estimate is compared with slot [pi k] of the target. *)
Definition permuted_mse (T F : nat) (estimate target : Tensor Qc)
    (pi : nat -> nat) : float :=
  Num.mean
    (map Loss.squared_error
       (flat_map (fun tau =>
          flat_map (fun k =>
            combine (source_frame F estimate tau k)
                    (source_frame F target tau (pi k)))
            [0; 1])
          (seq 0 T))).

(** The two permutations of two slots. *)
Definition keep (k : nat) : nat := k.
Definition swap (k : nat) : nat := 1 - k.

(** A (T, 2, F) tensor with its two sources exchanged. *)
Definition swap_sources (T F : nat) (t : Tensor Qc) : Tensor Qc :=
  mkTensor [T; 2; F]
    (flat_map (fun tau => source_frame F t tau 1 ++ source_frame F t tau 0)
              (seq 0 T)).

(** A tensor of size (0, 2, 1): no frame at all; and one of size
    (1, 2, 0): a frame without a frequency. *)
Definition no_frames : Tensor Qc := mkTensor [0; 2; 1] [].
Definition no_frequencies : Tensor Qc := mkTensor [1; 2; 0] [].

(** One frame, two sources, two frequencies. *)
Definition frame_1x2x2 : Tensor Qc := mkTensor [1; 2; 2] [z 1; z 2; z 3; z 5].

(** The events a hook has written so far. *)
Definition events_of {T Ext : Type} (h : SummaryHook.t T Ext) : list event :=
  match SummaryHook.writer h with
  | Some w => SummaryWriter.events w
  | None => []
  end.

(** The hook after it wrote the events [evs], one by one. *)
Definition log_events {T Ext : Type} (evs : list event) (h : SummaryHook.t T Ext)
    : SummaryHook.t T Ext :=
  fold_left
    (fun h e =>
       SummaryHook.with_writer (SummaryWriter.record e (SummaryHook.the_writer h)) h)
    evs h.

(** The world after the events [evs] were written and the lines [outs]
    printed, and nothing else happened. *)
Definition logged {T Ext : Type} (evs : list event) (outs : list string)
    (w : Hooks.World (SummaryHook.t T Ext)) : Hooks.World (SummaryHook.t T Ext) :=
  Hooks.mkWorld (log_events evs (Hooks.self w)) (Hooks.trainer w)
                (Hooks.stdout w ++ outs).

(** A snapshot is either a bare array or a pair. *)
Definition audio_ok (item : string * audio) : bool :=
  match snd item with
  | AudioSequence items => Nat.eqb (length items) 2
  | AudioArray _ => true
  end.

(** What the timer loop reports for a series whose ratio it takes. *)
Definition relative_key (key : string) : string :=
  if String.eqb key "time_per_data_loading" then "time_rel_data_loading"
  else "time_rel_train_step".

Definition is_timed_part (key : string) : bool :=
  (String.eqb key "time_per_data_loading"
   || String.eqb key "time_per_train_step")%bool.

(** What the loops of [dump_summary] write and print, loop by loop. *)
Definition scalar_events (prefix : string) (iteration : nat)
    (series : dict (list Qc)) : list event :=
  map (fun kv =>
         add_scalar (SummaryHook.tag prefix (fst kv)) (Num.mean (snd kv)) iteration)
      series.

Definition timing_event (as_dict : dict (list Qc)) (prefix : string)
    (iteration : nat) (item : string * list Qc) : event :=
  if is_timed_part (fst item) then
    match Py.get as_dict "time_per_step" with
    | Some time_per_step =>
        add_scalar (SummaryHook.tag prefix (relative_key (fst item)))
          (true_divide (Num.sum (snd item)) (Num.sum time_per_step)) iteration
    | None =>
        add_scalar (SummaryHook.tag prefix (fst item)) (Num.mean (snd item))
          iteration
    end
  else
    add_scalar (SummaryHook.tag prefix (fst item)) (Num.mean (snd item)) iteration.

Definition timing_print (as_dict : dict (list Qc)) (item : string * list Qc)
    : list string :=
  if is_timed_part (fst item) then
    match Py.get as_dict "time_per_step" with
    | Some time_per_step =>
        if Nat.eqb (length time_per_step) (length (snd item)) then []
        else [SummaryHook.timing_warning (length time_per_step)
                                         (length (snd item))]
    | None => []
    end
  else [].

Definition histogram_events (prefix : string) (iteration : nat)
    (histograms : dict (list Qc)) : list event :=
  map (fun kv => add_histogram (SummaryHook.tag prefix (fst kv)) (snd kv) iteration)
      histograms.

(** The events of the loops that cannot fail: losses, scalars, timer,
    histograms. *)
Definition leading_events {T Ext : Type} (h : SummaryHook.t T Ext)
    (tr : Trainer.t) : list event :=
  let prefix := SummaryHook.summary_prefix h in
  let iteration := Trainer.iteration tr in
  let as_dict := Timer.as_dict (Trainer.timer tr) in
  scalar_events prefix iteration (Summary.losses (SummaryHook.summary h))
  ++ scalar_events prefix iteration (Summary.scalars (SummaryHook.summary h))
  ++ map (timing_event as_dict prefix iteration) as_dict
  ++ histogram_events prefix iteration (Summary.histograms (SummaryHook.summary h)).

Definition timing_prints (tr : Trainer.t) : list string :=
  flat_map (timing_print (Timer.as_dict (Trainer.timer tr)))
           (Timer.as_dict (Trainer.timer tr)).

(** The timer holds a sample under some name. *)
Definition holds_samples (tr : Trainer.t) : Prop :=
  exists (key : string) (samples : list Qc) (v : Qc),
    In (key, samples) (Timer.timings (Trainer.timer tr)) /\ In v samples.

(** A review that only holds losses. *)
Definition review_of_losses (losses : dict Qc) : Review.t :=
  Review.make losses [] [] [] [].

(** The scenario of the specification: a fresh summary hook sees the
    losses a = 1.0 at the first step and a = 3.0 at the second; the
    trainer is [tr1] during the first step and [tr2] from the second on.
    The worlds after each of the two [post_step] calls. *)
Definition after_first_step {T : Type} (g : T) (tr1 : Trainer.t)
    : result unit * Hooks.World (SummaryHook.t T unit) :=
  SummaryHook.post_step (review_of_losses [("a"%string, z 1)])
    (Hooks.mkWorld (SummaryHook.init g "training" tt) tr1 []).

Definition after_second_step {T : Type} (g : T) (tr1 tr2 : Trainer.t)
    : result unit * Hooks.World (SummaryHook.t T unit) :=
  let w1 := snd (after_first_step g tr1) in
  SummaryHook.post_step (review_of_losses [("a"%string, z 3)])
    (Hooks.mkWorld (Hooks.self w1) tr2 (Hooks.stdout w1)).

(** A trainer at some iteration of epoch 0, with the given timings. *)
Definition trainer_at (iteration : nat) (timings : dict (list Qc)) : Trainer.t :=
  Trainer.make iteration 0 (Timer.make timings) "exp/1".

(** Two loading times against one step time. *)
Definition mismatched_timings : dict (list Qc) :=
  [("time_per_data_loading", [z 1; z 2]); ("time_per_step", [z 4])]%string.

Definition every_two_iterations : TriggerSpec.t :=
  TriggerSpec.IntervalTrigger 2 TriggerSpec.iteration None.

Definition end_after_three_epochs : TriggerSpec.t :=
  TriggerSpec.EndTrigger 3 TriggerSpec.epoch.

(** The diagonal matrix of size D whose entry (i, i) is [f i]. *)
Definition scaled_unit (n i : nat) (c : Qc) : list Qc :=
  map (fun j => if Nat.eqb i j then c else 0%Qc) (seq 0 n).

Definition diagonal (D : nat) (f : nat -> Qc) : Loss.matrix :=
  map (fun i => scaled_unit D i (f i)) (seq 0 D).

(** [torch.diag_embed] of one vector of scales. *)
Definition diag_embed (s : list Qc) : Loss.matrix :=
  diagonal (length s) (fun i => nth i s 0%Qc).

(** The rows of the extended matrix of a diagonal matrix during the
    elimination: before its column is treated, and after. *)
Definition todo_row (D : nat) (f : nat -> Qc) (i : nat) : list Qc :=
  (scaled_unit D i (f i) ++ scaled_unit D i 1%Qc)%list.

Definition done_row (D : nat) (f : nat -> Qc) (i : nat) : list Qc :=
  (scaled_unit D i 1%Qc ++ scaled_unit D i (/ f i)%Qc)%list.

(** The inverse of the factor of a diagonal Gaussian, as computed: the
    diagonal matrix of the rounded reciprocals. *)
Definition reciprocal_diagonal {fp : Float} (s : list Qc) : Loss.matrix :=
  diagonal (length s) (fun i => fl (/ nth i s 0)%Qc).

(** Scales between 2^-60 and 2^60: neither their reciprocals nor the
    squares of either leave the range of single or double precision. *)
Definition in_range (v : Qc) : Prop :=
  (Q2Qc (1 # 2 ^ 60) <= v /\ v <= Q2Qc (inject_Z (2 ^ 60)))%Qc.

(** What IEEE 754 arithmetic and the kernels of the library keep,
    whatever the format and the order in which a kernel adds up:
    rounding leaves zero and every float as they are; adding zeros to
    one float returns that float, and adding zeros returns zero; the
    product of a vector of zeros with a row is zero; the inverse of a
    diagonal matrix with entries in range is the diagonal matrix of the
    rounded reciprocals. *)
Record ieee (fp : Float) : Prop := {
  fl_zero : fl 0%Qc = 0%Qc;
  fl_float : forall v : Qc, fl (fl v) = fl v;
  sum_of_zeros :
    forall l : list Qc, Forall (fun v => v = 0%Qc) l -> fl_sum l = 0%Qc;
  sum_of_one_float :
    forall (l l' : list Qc) (v : Qc),
      Forall (fun z => z = 0%Qc) l -> Forall (fun z => z = 0%Qc) l' ->
      fl v = v -> fl_sum (l ++ v :: l') = v;
  dot_of_zeros :
    forall v row : list Qc, Forall (fun z => z = 0%Qc) v -> fl_dot v row = 0%Qc;
  inverse_of_diagonal :
    forall (D : nat) (f : nat -> Qc),
      (forall i, i < D -> in_range (f i)) ->
      fl_inverse (diagonal D f)
      = Return (diagonal D (fun i => fl (/ f i)%Qc))
}.

(** The trace term of a diagonal Gaussian with the scales [s] against
    itself, as computed: the sum over the dimensions of the rounded
    product of the rounded square of the rounded reciprocal 1/s with the
    rounded square of s. Without rounding it is the dimension. *)
Definition self_trace {fp : Float} (s : list Qc) : Qc :=
  fl_sum (map (fun v => fl (fl (Loss.sq (fl (/ v))) * fl (Loss.sq v)))%Qc s).

(** What is left of the divergence of that Gaussian from itself: half
    the rounded difference between the trace term and the dimension. *)
Definition self_divergence {fp : Float} (s : list Qc) : Qc :=
  fl (Loss.half * fl (fl (self_trace s) - fl (of_nat (length s))))%Qc.

(** The batch [q] of diagonal Gaussians written as full-covariance
    Gaussians: the same means, and for each one the diagonal matrix of
    its scales as factor of the covariance. *)
Definition as_multivariate (batch_shape : list nat) (D : nat) (q : Loss.Normal.t)
    : Loss.MultivariateNormal.t :=
  Loss.MultivariateNormal.make (Loss.Normal.loc q)
    (mkTensor (batch_shape ++ [D; D])
       (flat_map (fun s => concat (diag_embed s))
          (chunk D (numel batch_shape) (data (Loss.Normal.scale q))))).

(** Two Gaussians on the plane, and an empty batch of Gaussians on the
    line. *)
Definition two_gaussians : Loss.Normal.t :=
  Loss.Normal.make (mkTensor [2; 2] [z 1; z 2; z 3; z 4])
                   (mkTensor [2; 2] [z 2; z 3; z 1; z 5]).

Definition no_gaussian : Loss.Normal.t :=
  Loss.Normal.make (mkTensor [0; 1] []) (mkTensor [0; 1] []).

(** One Gaussian on a space of dimension 0. *)
Definition gaussian_on_a_point : Loss.Normal.t :=
  Loss.Normal.make (mkTensor [1; 0] []) (mkTensor [1; 0] []).

(** A batch of one Gaussian on the line, with mean 0; the same Gaussian
    without a batch axis. *)
Definition one_gaussian (scale : Qc) : Loss.Normal.t :=
  Loss.Normal.make (mkTensor [1; 1] [0%Qc]) (mkTensor [1; 1] [scale]).

Definition bare_gaussian (scale : Qc) : Loss.Normal.t :=
  Loss.Normal.make (mkTensor [1] [0%Qc]) (mkTensor [1] [scale]).

(** Double and single precision. *)
Definition binary64 : Float := Binary.arithmetic 53.
Definition binary32 : Float := Binary.arithmetic 24.

(** The tag an event is written under. *)
Definition event_tag (e : event) : string :=
  match e with
  | add_scalar tag _ _ => tag
  | add_histogram tag _ _ => tag
  | add_audio tag _ _ _ => tag
  | add_image tag _ _ => tag
  end.

(** The step an event is written at. *)
Definition event_step (e : event) : nat :=
  match e with
  | add_scalar _ _ step => step
  | add_histogram _ _ step => step
  | add_audio _ _ step _ => step
  | add_image _ _ step => step
  end.

(** The keys of a dict, and dicts without a repeated key, as Python's
    are. *)
Definition dict_keys {V : Type} (d : dict V) : list string := map fst d.

Definition proper {V : Type} (d : dict V) : Prop := NoDup (dict_keys d).

(** A packed sequence that holds one sequence: one frame alive at each
    of its T time steps. *)
Definition one_sequence (T : nat) (frames : Tensor Qc) : PackedSequence Qc :=
  mkPacked frames (repeat 1 T).

(** The entry (i, j) of a matrix. *)
Definition entry (m : Loss.matrix) (i j : nat) : Qc :=
  nth j (nth i m []) 0%Qc.

(** The buffer of a histogram after new values arrived. *)
Definition grown (old : option (list Qc)) (histogram : Tensor Qc) : list Qc :=
  SummaryHook.last_values (100 * 100)
    ((match old with Some values => values | None => [] end) ++ data histogram).

(** What the loop over the snapshots writes for one of them. *)
Definition audio_event (prefix : string) (iteration : nat)
    (item : string * audio) : event :=
  match snd item with
  | AudioSequence items =>
      add_audio (SummaryHook.tag prefix (fst item)) (nth 0 items (PyInt 0))
                iteration (nth 1 items (PyInt 0))
  | AudioArray samples =>
      add_audio (SummaryHook.tag prefix (fst item)) (PyArray samples)
                iteration (PyInt 16000)
  end.

Definition image_events (prefix : string) (iteration : nat)
    (images : dict (Tensor Qc)) : list event :=
  map (fun kv => add_image (SummaryHook.tag prefix (fst kv)) (snd kv) iteration)
      images.

(** The snapshots before the first one that is refused. *)
Fixpoint accepted (audios : dict audio) : dict audio :=
  match audios with
  | [] => []
  | item :: rest => if audio_ok item then item :: accepted rest else []
  end.

(** Everything a flush writes, in the order it writes it. *)
Definition flushed_events {T Ext : Type} (h : SummaryHook.t T Ext)
    (tr : Trainer.t) : list event :=
  let prefix := SummaryHook.summary_prefix h in
  let iteration := Trainer.iteration tr in
  let audios := Summary.audios (SummaryHook.summary h) in
  leading_events h tr
  ++ map (audio_event prefix iteration) (accepted audios)
  ++ (if forallb audio_ok audios
      then image_events prefix iteration (Summary.images (SummaryHook.summary h))
      else []).

(** A summary hook of the training that holds the summary [s] and has
    not written anything yet. *)
Definition hook_holding (s : Summary.t) : SummaryHook.t TriggerSpec.t unit :=
  SummaryHook.make every_two_iterations s "training"%string None None tt.

(** A summary of one loss, and one whose only snapshot is a sequence of
    a single item. *)
Definition one_loss : Summary.t :=
  Summary.make [("a"%string, [z 1])] [] [] [] [].

Definition one_refused_snapshot : Summary.t :=
  Summary.make [] [] [] [("a"%string, AudioSequence [PyArray [z 1]])] [].

(** Three positions that are all labelled -1. *)
Definition labels_all_ignored : Tensor Z := mkTensor [3] [-1; -1; -1]%Z.

(** The divergences of the two Gaussians from themselves written in
    full, with the stand-in for the logarithm and without rounding. *)
Definition kl_of_two_gaussians : Tensor Qc :=
  match Loss.kl_normal_multivariatenormals (libm := first_order)
          (fp := Exact.arithmetic) two_gaussians
          (as_multivariate [2] 2 two_gaussians) with
  | Return kl => kl
  | Raise _ => mkTensor [] []
  end.

(** Row [i] of a tensor seen as [n] rows of [D] entries. *)
Definition row (D n : nat) (t : Tensor Qc) (i : nat) : list Qc :=
  nth i (chunk D n (data t)) [].

(** * Properties *)

Unset Implicit Arguments.

Lemma Qc_this_inj : forall a b : Qc, this a = this b -> a = b.
Proof. intros a b H. apply Qc_is_canon. rewrite H. reflexivity. Qed.

(** Equality of computed values that hold rationals: compare the
    rationals, not the proofs that they are reduced. *)
Ltac qc_struct :=
  first [ reflexivity
        | match goal with |- @eq Qc _ _ => apply Qc_this_inj; reflexivity end
        | f_equal; qc_struct ].

Ltac qc_compute := vm_compute; qc_struct.

Ltac qc_differ H := vm_compute in H; discriminate H.

Section LossProperties.

Import Loss.
Local Open Scope string_scope.

(** C10. Handed one plain tensor and one packed sequence, or any pair
    other than two plain tensors or two packed sequences,
    [softmax_cross_entropy] and [deep_clustering_loss] raise a ValueError
    whose message names the types of the two arguments; neither computes
    a loss. *)
Theorem mixed_arguments_raise_ValueError :
  forall (libm : Libm) (x : pyarg Qc) (t : pyarg Z) (y u : pyarg Qc),
    same_kind x t = false ->
    same_kind y u = false ->
    softmax_cross_entropy x t
      = Raise (ValueError ("Incompatible types: " ++ type_repr x ++ ", "
                           ++ type_repr t))
    /\ deep_clustering_loss y u
      = Raise (ValueError ("Incompatible types: " ++ type_repr y ++ ", "
                           ++ type_repr u)).
Proof.
  intros libm x t y u Hxt Hyu. split.
  - destruct x, t; simpl in Hxt; try discriminate Hxt; reflexivity.
  - destruct y, u; simpl in Hyu; try discriminate Hyu; reflexivity.
Qed.

Lemma mixed_arguments_raise_ValueError_witness :
  softmax_cross_entropy (libm := first_order) (ATensor x_orthonormal)
      (APacked (mkPacked (mkTensor [1] [0%Z]) [1]))
    = Raise (ValueError
        "Incompatible types: <class 'torch.Tensor'>, <class 'torch.nn.utils.rnn.PackedSequence'>")
  /\ deep_clustering_loss (AOther "int") (ATensor t_one_cluster)
    = Raise (ValueError
        "Incompatible types: <class 'int'>, <class 'torch.Tensor'>").
Proof.
  apply (mixed_arguments_raise_ValueError first_order
           (ATensor x_orthonormal)
           (APacked (mkPacked (mkTensor [1] [0%Z]) [1]))
           (AOther "int") (ATensor t_one_cluster));
    reflexivity.
Defined.

(** Whenever the combination of squared Frobenius norms over N squared
    is a number, the code returns that number rounded down. *)
Lemma deep_clustering_loss_is_floored :
  forall (x t : Tensor Qc) (v : Qc),
    deep_clustering_objective x t = Return (Fin v) ->
    deep_clustering_loss (ATensor x) (ATensor t)
    = Return (Fin (of_Z (Qfloor v))).
Proof.
  intros x t v. cbn [deep_clustering_loss].
  unfold deep_clustering_objective, deep_clustering_loss_tensor, frobenius_sq.
  destruct (size0 x) as [N |]; [| discriminate].
  destruct (einsum x x) as [xx |]; [| discriminate].
  destruct (einsum x t) as [xt |]; [| discriminate].
  destruct (einsum t t) as [tt |]; [| discriminate].
  cbn [Py.bind]. unfold true_divide, floor_divide.
  destruct (is_zero (of_nat (N ^ 2))); [discriminate |].
  intro H. injection H as <-. reflexivity.
Qed.

(** C1, at an input where the code departs from it. For these two
    embeddings N is 2 and the combination of squared Frobenius norms is
    2 - 2 * 2 + 4 = 2: divided by N squared that is one half, and the
    code, which divides with [//], returns 0. *)
Theorem deep_clustering_loss_floors_one_half :
  deep_clustering_loss (ATensor x_orthonormal) (ATensor t_one_cluster)
    = Return (Fin 0%Qc)
  /\ deep_clustering_objective x_orthonormal t_one_cluster
    = Return (Fin half)
  /\ Fin 0%Qc <> Fin half.
Proof.
  split; [| split].
  - qc_compute.
  - qc_compute.
  - intro H. qc_differ H.
Qed.

End LossProperties.

Section CrossEntropyProperties.

Import Loss.
Context {libm : Libm}.
Local Open Scope Qc_scope.

Lemma bind_Return_r : forall (A : Type) (r : result A), Py.bind r Return = r.
Proof. intros A []; reflexivity. Qed.

(** The pass that skips the ignored positions gathers exactly the terms
    of the positions that are left when those are filtered out. *)
Lemma nll_accumulate_filter :
  forall ps total count,
    nll_accumulate IGNORE_INDEX ps total count
    = Py.bind (nll_terms (filter not_ignored ps))
        (fun vs => Return (total + Num.sum vs, (count + length vs)%nat)).
Proof.
  induction ps as [| [row c] ps IH]; intros total count.
  - simpl. f_equal. f_equal; [ring | lia].
  - simpl. unfold not_ignored at 1. simpl.
    destruct (c =? IGNORE_INDEX)%Z.
    + simpl. apply IH.
    + simpl. destruct (nll_term row c) as [v | e]; simpl; [| reflexivity].
      rewrite IH. destruct (nll_terms (filter not_ignored ps)) as [vs | e];
        simpl; [| reflexivity].
      f_equal. f_equal; [ring | lia].
Qed.

Lemma CrossEntropyLoss_filter :
  forall ps,
    CrossEntropyLoss IGNORE_INDEX ps = mean_cross_entropy (filter not_ignored ps).
Proof.
  intro ps. unfold CrossEntropyLoss, mean_cross_entropy.
  rewrite nll_accumulate_filter.
  destruct (nll_terms (filter not_ignored ps)) as [vs | e]; simpl; [| reflexivity].
  unfold Num.mean. f_equal. f_equal. ring.
Qed.

Lemma size_eqb_refl : forall s, size_eqb s s = true.
Proof.
  intro s. unfold size_eqb.
  destruct (list_eq_dec Nat.eq_dec s s) as [_ | n]; [reflexivity | now elim n].
Qed.

(** C7. For logits of size (..., K) and labels of size (...), the value
    of [softmax_cross_entropy] is the mean cross-entropy over the
    positions whose label is not the ignore index -1: the positions
    labelled -1 are left out of the total and of the count. *)
Theorem softmax_cross_entropy_excludes_ignored :
  forall (x : Tensor Qc) (t : Tensor Z) (K : nat),
    size x = (size t ++ [K])%list ->
    softmax_cross_entropy (ATensor x) (ATensor t)
    = mean_cross_entropy
        (filter (fun p => negb (snd p =? -1)%Z)
           (combine (chunk K (numel (size t)) (data x)) (data t))).
Proof.
  intros x t K Hx. simpl. unfold softmax_cross_entropy_tensor, positions.
  rewrite Hx, removelast_last, size_eqb_refl, rev_unit. simpl.
  apply CrossEntropyLoss_filter.
Qed.

End CrossEntropyProperties.

Lemma softmax_cross_entropy_excludes_ignored_witness :
  Loss.softmax_cross_entropy (libm := first_order)
      (ATensor logits_3x2) (ATensor labels_3)
  = Loss.mean_cross_entropy (libm := first_order)
      [([z 1; z 2], 1%Z); ([z 3; z 1], 0%Z)].
Proof.
  apply (softmax_cross_entropy_excludes_ignored (libm := first_order)
           logits_3x2 labels_3 2).
  reflexivity.
Defined.

(** ** Runs of entries *)

Section Runs.

Context {A : Type}.

(** A list of [n] runs of [w] entries is the runs one after the other. *)
Lemma runs_concat :
  forall (w n : nat) (l : list A),
    length l = n * w ->
    flat_map (fun i => firstn w (skipn (i * w) l)) (seq 0 n) = l.
Proof.
  intros w n. induction n as [| n IH]; intros l Hl.
  - simpl in *. symmetry. now apply length_zero_iff_nil.
  - cbn [seq flat_map]. rewrite <- seq_shift, flat_map_concat_map, map_map,
      <- flat_map_concat_map.
    rewrite (flat_map_ext _ (fun i => firstn w (skipn (i * w) (skipn w l)))).
    + rewrite IH.
      * simpl. apply firstn_skipn.
      * rewrite length_skipn. simpl in Hl. lia.
    + intro i. rewrite skipn_skipn. f_equal. f_equal. simpl. lia.
Qed.

(** Runs taken two by two. *)
Lemma runs_by_pairs :
  forall (g : nat -> list A) (T : nat),
    flat_map g (seq 0 (T * 2))
    = flat_map (fun tau => g (tau * 2 + 0) ++ g (tau * 2 + 1)) (seq 0 T).
Proof.
  intros g T. induction T as [| T IH].
  - reflexivity.
  - replace (S T * 2) with (T * 2 + 2) by lia.
    rewrite seq_app, flat_map_app, IH, (seq_S T 0), flat_map_app.
    cbn [seq flat_map Nat.add]. rewrite !app_nil_r. f_equal.
    replace (T * 2 + 0) with (T * 2) by lia.
    replace (T * 2 + 1) with (S (T * 2)) by lia. reflexivity.
Qed.

Lemma length_flat_map_constant :
  forall (B : Type) (f : B -> list A) (c : nat) (l : list B),
    (forall b, In b l -> length (f b) = c) ->
    length (flat_map f l) = length l * c.
Proof.
  intros B f c l. induction l as [| b l IH]; intro H.
  - reflexivity.
  - simpl. rewrite length_app, IH, H; [lia | now left |].
    intros b' Hb'. apply H. now right.
Qed.

End Runs.

Lemma flat_map_ext_in :
  forall (A B : Type) (f g : A -> list B) (l : list A),
    (forall a, In a l -> f a = g a) -> flat_map f l = flat_map g l.
Proof.
  intros A B f g l. induction l as [| a l IH]; intro H.
  - reflexivity.
  - simpl. rewrite H, IH; [reflexivity | | now left].
    intros b Hb. apply H. now right.
Qed.

Lemma combine_app_same :
  forall (A B : Type) (a a' : list A) (b b' : list B),
    length a = length b ->
    combine (a ++ a') (b ++ b') = combine a b ++ combine a' b'.
Proof.
  intros A B a. induction a as [| x a IH]; intros a' b b' H.
  - destruct b; [reflexivity | discriminate H].
  - destruct b as [| y b]; [discriminate H |].
    simpl. f_equal. apply IH. now injection H.
Qed.

Lemma combine_flat_map :
  forall (A B I : Type) (f : I -> list A) (g : I -> list B) (l : list I),
    (forall i, In i l -> length (f i) = length (g i)) ->
    combine (flat_map f l) (flat_map g l)
    = flat_map (fun i => combine (f i) (g i)) l.
Proof.
  intros A B I f g l. induction l as [| i l IH]; intro H.
  - reflexivity.
  - simpl. rewrite combine_app_same, IH; [reflexivity | |].
    + intros j Hj. apply H. now right.
    + apply H. now left.
Qed.

(** ** pit_mse_loss *)

Section PitProperties.

Import Loss.
Local Open Scope Qc_scope.

Lemma length_source_frame :
  forall (T F : nat) (t : Tensor Qc) (tau k : nat),
    length (data t) = (T * 2 * F)%nat -> (tau < T)%nat -> (k < 2)%nat ->
    length (source_frame F t tau k) = F.
Proof.
  intros T F t tau k Hl Htau Hk. unfold source_frame.
  rewrite length_firstn, length_skipn, Hl.
  assert ((tau * 2 + k) * F + F <= T * 2 * F)%nat by nia. lia.
Qed.

Lemma data_by_frames :
  forall (T F : nat) (t : Tensor Qc),
    length (data t) = (T * 2 * F)%nat ->
    data t = flat_map (fun tau => source_frame F t tau 0 ++ source_frame F t tau 1)
                      (seq 0 T).
Proof.
  intros T F t Hl. unfold source_frame.
  rewrite <- (runs_by_pairs (fun i => firstn F (skipn (i * F) (data t)))).
  symmetry. now apply runs_concat.
Qed.

Lemma select_sources_frames :
  forall (T F : nat) (t : Tensor Qc) (a b : nat),
    size t = [T; 2; F]%nat -> (a < 2)%nat -> (b < 2)%nat ->
    select_sources t [a; b]
    = Return (mkTensor [T; 2; F]%nat
        (flat_map (fun tau => source_frame F t tau a ++ source_frame F t tau b)
                  (seq 0 T))).
Proof.
  intros T F t a b Hs Ha Hb. unfold select_sources. rewrite Hs. cbn [forallb].
  apply Nat.ltb_lt in Ha, Hb. rewrite Ha, Hb. cbn [andb length numel fold_right].
  rewrite Nat.mul_1_r. do 2 f_equal.
  apply flat_map_ext. intro tau. cbn [flat_map]. now rewrite app_nil_r.
Qed.

(** The error against the target with slot 0 taken from [a] and slot 1
    from [b]. *)
Lemma mse_loss_frames :
  forall (T F : nat) (estimate target : Tensor Qc) (a b : nat),
    size estimate = [T; 2; F]%nat -> size target = [T; 2; F]%nat ->
    well_formed estimate -> well_formed target ->
    (a < 2)%nat -> (b < 2)%nat ->
    mse_loss estimate
      (mkTensor [T; 2; F]%nat
         (flat_map (fun tau => source_frame F target tau a ++ source_frame F target tau b)
                   (seq 0 T)))
    = Return (Num.mean (map squared_error
        (flat_map (fun tau =>
           combine (source_frame F estimate tau 0) (source_frame F target tau a)
           ++ combine (source_frame F estimate tau 1) (source_frame F target tau b))
           (seq 0 T)))).
Proof.
  intros T F e t a b He Ht We Wt Ha Hb.
  unfold well_formed in We, Wt. rewrite He in We. rewrite Ht in Wt.
  cbn [numel fold_right] in We, Wt.
  assert (Le : length (data e) = (T * 2 * F)%nat) by lia.
  assert (Lt : length (data t) = (T * 2 * F)%nat) by lia.
  unfold mse_loss. cbn [size data]. rewrite He, size_eqb_refl.
  do 3 f_equal.
  rewrite (data_by_frames T F e Le) at 1.
  rewrite combine_flat_map.
  - apply flat_map_ext_in. intros tau Htau. apply in_seq in Htau.
    apply combine_app_same.
    rewrite !(length_source_frame T F) by (assumption || lia). reflexivity.
  - intros tau Htau. apply in_seq in Htau.
    rewrite !length_app, !(length_source_frame T F) by (assumption || lia).
    reflexivity.
Qed.

Lemma of_nat_nonzero : forall n : nat, (0 < n)%nat -> of_nat n <> 0.
Proof.
  intros n Hn H. apply (f_equal this) in H. unfold of_nat in H. simpl in H.
  unfold Qred in H. simpl in H.
  destruct (Z.ggcd (Z.of_nat n) 1) as [g [a b]] eqn:E.
  pose proof (Z.ggcd_correct_divisors (Z.of_nat n) 1) as D. rewrite E in D.
  destruct D as [D1 D2]. injection H as H1 H2. subst a. lia.
Qed.

Lemma Q2Qc_le : forall p q : Q, (p <= q)%Q -> Q2Qc p <= Q2Qc q.
Proof.
  intros p q H. unfold Qcle. cbn [this Q2Qc]. now rewrite !Qred_correct.
Qed.

Lemma Q2Qc_nonneg : forall q : Q, (0 <= q)%Q -> 0 <= Q2Qc q.
Proof. intros q H. now apply (Q2Qc_le 0 q). Qed.

Lemma of_nat_nonneg : forall n : nat, 0 <= of_nat n.
Proof.
  intro n. apply Q2Qc_nonneg. unfold Qle. simpl. lia.
Qed.

Lemma squared_error_nonneg : forall p, 0 <= squared_error p.
Proof.
  intro p. unfold squared_error, Qcmult. apply Q2Qc_nonneg.
  unfold Qle, Qmult. simpl. nia.
Qed.

Lemma inv_nonneg : forall v : Qc, 0 <= v -> 0 <= / v.
Proof.
  intros v H. unfold Qcinv. apply Q2Qc_nonneg. now apply Qinv_le_0_compat.
Qed.

Lemma sum_nonneg : forall l, Forall (fun v => 0 <= v) l -> 0 <= Num.sum l.
Proof.
  intros l H. induction H as [| v l Hv _ IH]; simpl.
  - apply Qcle_refl.
  - replace 0 with (0 + 0) by ring. now apply Qcplus_le_compat.
Qed.

Lemma sum_zero : forall l, Forall (fun v => v = 0) l -> Num.sum l = 0.
Proof.
  intros l H. induction H as [| v l Hv _ IH]; simpl.
  - reflexivity.
  - rewrite Hv, IH. ring.
Qed.

(** The mean of a non-empty list of squared errors is a non-negative
    number. *)
Lemma mean_squared_error_nonneg :
  forall l, (0 < length l)%nat ->
    exists c, Num.mean (map squared_error l) = Fin c /\ 0 <= c.
Proof.
  intros l Hl. unfold Num.mean, true_divide, is_zero. rewrite length_map.
  destruct (Qc_eq_dec (of_nat (length l)) 0) as [E | _].
  - now apply of_nat_nonzero in E.
  - eexists. split; [reflexivity |]. unfold Qcdiv.
    replace 0 with (0 * / of_nat (length l)) by ring.
    apply Qcmult_le_compat_r.
    + apply sum_nonneg. apply Forall_map, Forall_forall. intros p _.
      apply squared_error_nonneg.
    + apply inv_nonneg, of_nat_nonneg.
Qed.

(** It is zero when every error is. *)
Lemma mean_squared_error_zero :
  forall l, (0 < length l)%nat ->
    (forall p, In p l -> fst p = snd p) ->
    Num.mean (map squared_error l) = Fin 0.
Proof.
  intros l Hl H. unfold Num.mean, true_divide, is_zero. rewrite length_map.
  destruct (Qc_eq_dec (of_nat (length l)) 0) as [E | _].
  - now apply of_nat_nonzero in E.
  - f_equal. rewrite sum_zero.
    + unfold Qcdiv. ring.
    + apply Forall_map, Forall_forall. intros p Hp. unfold squared_error.
      rewrite (H p Hp). ring.
Qed.

Lemma fmin_zero_l : forall c, 0 <= c -> fmin (Fin 0) (Fin c) = Fin 0.
Proof.
  intros c Hc. unfold fmin, leb. apply Qle_bool_iff in Hc. now rewrite Hc.
Qed.

Lemma fmin_zero_r : forall c, 0 <= c -> fmin (Fin c) (Fin 0) = Fin 0.
Proof.
  intros c Hc. unfold fmin, leb. destruct (Qle_bool _ _) eqn:E; [| reflexivity].
  apply Qle_bool_iff in E. f_equal. now apply Qcle_antisym.
Qed.

Lemma in_combine_same :
  forall (A : Type) (l : list A) (p : A * A), In p (combine l l) -> fst p = snd p.
Proof.
  intros A l p. induction l as [| a l IH]; simpl; intro H.
  - contradiction.
  - destruct H as [<- | H]; [reflexivity | now apply IH].
Qed.

Lemma mse_loss_nonneg :
  forall a b : Tensor Qc,
    size a = size b -> (0 < length (data a))%nat -> (0 < length (data b))%nat ->
    exists c, mse_loss a b = Return (Fin c) /\ 0 <= c.
Proof.
  intros a b Hs Ha Hb. unfold mse_loss. rewrite Hs, size_eqb_refl.
  destruct (mean_squared_error_nonneg (combine (data a) (data b))) as [c [E Hc]].
  - rewrite length_combine. lia.
  - exists c. now rewrite E.
Qed.

Lemma mse_loss_same :
  forall a : Tensor Qc, (0 < length (data a))%nat -> mse_loss a a = Return (Fin 0).
Proof.
  intros a Ha. unfold mse_loss. rewrite size_eqb_refl. f_equal.
  apply mean_squared_error_zero.
  - rewrite length_combine. lia.
  - apply in_combine_same.
Qed.

Lemma length_swapped :
  forall (T F : nat) (t : Tensor Qc) (a b : nat),
    length (data t) = (T * 2 * F)%nat -> (a < 2)%nat -> (b < 2)%nat ->
    length (flat_map (fun tau => source_frame F t tau a ++ source_frame F t tau b)
                     (seq 0 T)) = (T * 2 * F)%nat.
Proof.
  intros T F t a b Hl Ha Hb.
  rewrite (length_flat_map_constant _ _ (F + F)%nat).
  - rewrite length_seq. lia.
  - intros tau Htau. apply in_seq in Htau.
    now rewrite length_app, !(length_source_frame T F) by (assumption || lia).
Qed.

Lemma pit_mse_loss_unfold :
  forall (T F : nat) (estimate target : Tensor Qc),
    size estimate = [T; 2; F]%nat -> size target = [T; 2; F]%nat ->
    pit_mse_loss estimate target
    = Py.bind (mse_loss estimate (mkTensor [T; 2; F]%nat
        (flat_map (fun tau => source_frame F target tau 0 ++ source_frame F target tau 1)
                  (seq 0 T))))
       (fun kept =>
          Py.bind (mse_loss estimate (swap_sources T F target))
            (fun swapped => Return (fmin kept swapped))).
Proof.
  intros T F e t He Ht. unfold pit_mse_loss.
  rewrite He, Ht, size_eqb_refl. cbn [Py.assert Py.bind].
  unfold permutations_of_two. cbn [candidates].
  rewrite !(select_sources_frames T F t) by (assumption || lia).
  cbn [Py.bind]. unfold swap_sources.
  destruct (mse_loss e _) as [kept |]; [| reflexivity]. cbn [Py.bind].
  destruct (mse_loss e _) as [swapped |]; reflexivity.
Qed.

(** C6, as the code has it. For an estimate and a target of size
    (T, 2, F), [pit_mse_loss] is the smaller of the two mean squared
    errors, the one against the target as it is and the one against the
    target with its sources exchanged. When there is at least one frame
    and one frequency it is exactly 0 for an estimate equal to the target
    and for an estimate equal to the target with the sources swapped. *)
Theorem pit_mse_loss_minimum_and_zero :
  forall (T F : nat) (estimate target : Tensor Qc),
    size estimate = [T; 2; F]%nat -> size target = [T; 2; F]%nat ->
    well_formed estimate -> well_formed target ->
    pit_mse_loss estimate target
      = Return (fmin (permuted_mse T F estimate target keep)
                     (permuted_mse T F estimate target swap))
    /\ ((0 < T)%nat -> (0 < F)%nat ->
         (estimate = target \/ estimate = swap_sources T F target) ->
         pit_mse_loss estimate target = Return (Fin 0)).
Proof.
  intros T F e t He Ht We Wt.
  assert (Le : length (data e) = (T * 2 * F)%nat).
  { unfold well_formed in We. rewrite He in We. cbn [numel fold_right] in We. lia. }
  assert (Lt : length (data t) = (T * 2 * F)%nat).
  { unfold well_formed in Wt. rewrite Ht in Wt. cbn [numel fold_right] in Wt. lia. }
  rewrite (pit_mse_loss_unfold T F e t He Ht). split.
  - unfold swap_sources.
    rewrite !(mse_loss_frames T F e t) by (assumption || lia).
    cbn [Py.bind]. unfold permuted_mse.
    assert (Hk : forall pi : nat -> nat,
      flat_map (fun tau =>
        flat_map (fun k => combine (source_frame F e tau k)
                                   (source_frame F t tau (pi k))) [0%nat; 1%nat])
        (seq 0 T)
      = flat_map (fun tau =>
          combine (source_frame F e tau 0) (source_frame F t tau (pi 0%nat))
          ++ combine (source_frame F e tau 1) (source_frame F t tau (pi 1%nat)))
          (seq 0 T)).
    { intro pi. apply flat_map_ext. intro tau. cbn [flat_map].
      now rewrite app_nil_r. }
    rewrite !Hk. reflexivity.
  - intros HT HF Heq.
    assert (Hpos : (0 < T * 2 * F)%nat) by nia.
    destruct Heq as [-> | ->].
    + rewrite <- (data_by_frames T F t Lt).
      replace (mkTensor [T; 2; F]%nat (data t)) with t
        by (destruct t; cbn in *; now subst).
      rewrite mse_loss_same by lia. cbn [Py.bind].
      destruct (mse_loss_nonneg t (swap_sources T F t)) as [c [E Hc]].
      * now rewrite Ht.
      * lia.
      * cbn [swap_sources data]. rewrite (length_swapped T F) by (assumption || lia).
        exact Hpos.
      * rewrite E. cbn [Py.bind]. f_equal. now apply fmin_zero_l.
    + rewrite (mse_loss_same (swap_sources T F t)) by lia.
      match goal with |- Py.bind ?m _ = _ =>
        destruct (mse_loss_nonneg (swap_sources T F t)
                    (mkTensor [T; 2; F]%nat
                       (flat_map (fun tau => source_frame F t tau 0 ++ source_frame F t tau 1)
                                 (seq 0 T)))) as [c [E Hc]]
      end.
      * reflexivity.
      * lia.
      * cbn [data]. rewrite (length_swapped T F) by (assumption || lia). exact Hpos.
      * rewrite E. cbn [Py.bind]. f_equal. now apply fmin_zero_r.
Qed.

End PitProperties.

Lemma pit_mse_loss_minimum_and_zero_witness :
  Loss.pit_mse_loss frame_1x2x2 frame_1x2x2 = Return (Fin 0%Qc).
Proof.
  apply (proj2 (pit_mse_loss_minimum_and_zero 1 2 frame_1x2x2 frame_1x2x2
                  eq_refl eq_refl eq_refl eq_refl));
    [lia | lia | left; reflexivity].
Defined.

(** C6 as stated fails where there is nothing to average: on tensors of
    size (0, 2, 1), and likewise (1, 2, 0), the estimate equals the
    target, both candidates are the mean of no squared error at all, and
    the loss is not a number. *)
Lemma pit_mse_loss_of_no_frames_is_nan :
  size no_frames = [0; 2; 1]
  /\ well_formed no_frames
  /\ Loss.pit_mse_loss no_frames no_frames = Return NaN
  /\ Loss.pit_mse_loss no_frames no_frames <> Return (Fin 0%Qc)
  /\ well_formed no_frequencies
  /\ Loss.pit_mse_loss no_frequencies no_frequencies = Return NaN.
Proof.
  repeat split; try reflexivity. intro H. discriminate H.
Qed.

(** ** The hooks *)

Section LoggingProperties.

Import Hooks SummaryHook.
Context {T Ext : Type}.

Let world : Type := World (SummaryHook.t T Ext).

Lemma bind_returned :
  forall (A B : Type) (m : M (SummaryHook.t T Ext) A)
         (k : A -> M (SummaryHook.t T Ext) B) (w w' : world) (a : A),
    m w = (Return a, w') -> bind m k w = k a w'.
Proof. intros A B m k w w' a H. unfold bind. now rewrite H. Qed.

Lemma bind_raised :
  forall (A B : Type) (m : M (SummaryHook.t T Ext) A)
         (k : A -> M (SummaryHook.t T Ext) B) (w w' : world) (e : exn),
    m w = (Raise e, w') -> bind m k w = (Raise e, w').
Proof. intros A B m k w w' e H. unfold bind. now rewrite H. Qed.

Lemma logged_nothing : forall w : world, logged [] [] w = w.
Proof. intros [h tr out]. unfold logged. simpl. now rewrite app_nil_r. Qed.

Lemma logged_twice :
  forall (evs evs' : list event) (outs outs' : list string) (w : world),
    logged evs' outs' (logged evs outs w) = logged (evs ++ evs') (outs ++ outs') w.
Proof.
  intros evs evs' outs outs' w. unfold logged, log_events. simpl.
  now rewrite fold_left_app, app_assoc.
Qed.

Lemma write_logged :
  forall (e : event) (w : world), write e w = (Return tt, logged [e] [] w).
Proof.
  intros e [h tr out]. unfold write, set_self, logged. simpl.
  now rewrite app_nil_r.
Qed.

Lemma print_logged :
  forall (line : string) (w : world), print line w = (Return tt, logged [] [line] w).
Proof. reflexivity. Qed.

(** A loop whose body only writes and prints writes and prints what its
    passes do, in order. *)
Lemma for_each_logged :
  forall (A : Type) (E : A -> list event) (O : A -> list string)
         (body : A -> M (SummaryHook.t T Ext) unit) (items : list A),
    (forall a w, In a items -> body a w = (Return tt, logged (E a) (O a) w)) ->
    forall w, for_each items body w
              = (Return tt, logged (flat_map E items) (flat_map O items) w).
Proof.
  intros A E O body items. induction items as [| a items IH]; intros H w.
  - simpl. unfold ret. now rewrite logged_nothing.
  - cbn [for_each flat_map]. rewrite (bind_returned _ _ _ _ _ _ tt (H a w (or_introl eq_refl))).
    rewrite IH by (intros b w' Hb; apply H; now right).
    now rewrite logged_twice.
Qed.

Lemma log_events_cons :
  forall (e : event) (evs : list event) (h : SummaryHook.t T Ext),
    log_events (e :: evs) h
    = log_events evs (with_writer (SummaryWriter.record e (the_writer h)) h).
Proof. reflexivity. Qed.

Lemma events_of_log_events :
  forall (evs : list event) (h : SummaryHook.t T Ext),
    events_of (log_events evs h) = events_of h ++ evs.
Proof.
  intro evs. induction evs as [| e evs IH]; intro h.
  - simpl. now rewrite app_nil_r.
  - rewrite log_events_cons, IH. unfold events_of, with_writer, the_writer. simpl.
    destruct (writer h); simpl; [now rewrite <- app_assoc | reflexivity].
Qed.

Lemma summary_log_events :
  forall (evs : list event) (h : SummaryHook.t T Ext),
    summary (log_events evs h) = summary h
    /\ trigger (log_events evs h) = trigger h
    /\ summary_prefix (log_events evs h) = summary_prefix h
    /\ storage_dir (log_events evs h) = storage_dir h
    /\ ext (log_events evs h) = ext h.
Proof.
  intro evs. induction evs as [| e evs IH]; intro h.
  - repeat split.
  - rewrite log_events_cons.
    destruct (IH (with_writer (SummaryWriter.record e (the_writer h)) h))
      as (H1 & H2 & H3 & H4 & H5).
    rewrite H1, H2, H3, H4, H5. repeat split.
Qed.

End LoggingProperties.

Section DumpSummaryProperties.

Import Hooks SummaryHook.
Context {T Ext Iterator : Type} {trig : Trigger T}
        {methods : TrainerMethods Iterator}.

Let world : Type := World (SummaryHook.t T Ext).

Lemma flat_map_singleton :
  forall (A B : Type) (f : A -> B) (l : list A),
    flat_map (fun a => [f a]) l = map f l.
Proof. intros A B f l. induction l; simpl; congruence. Qed.

Lemma flat_map_nothing :
  forall (A B : Type) (l : list A), flat_map (fun _ => @nil B) l = [].
Proof. intros A B l. induction l; simpl; congruence. Qed.

(** One pass of the loop over the timer. *)
Lemma dump_timing_logged :
  forall (as_dict : dict (list Qc)) (prefix : string) (iteration : nat)
         (item : string * list Qc) (w : world),
    dump_timing as_dict prefix iteration item w
    = (Return tt,
       logged [timing_event as_dict prefix iteration item]
              (timing_print as_dict item) w).
Proof.
  intros d p it [key scalar] w.
  unfold dump_timing, timing_event, timing_print, is_timed_part, relative_key.
  cbn [fst snd].
  destruct (String.eqb key "time_per_data_loading") eqn:E1;
    destruct (String.eqb key "time_per_train_step") eqn:E2; cbn [orb];
    try apply write_logged;
    (destruct (Py.get d "time_per_step") as [tps |]; [| apply write_logged]);
    (destruct (Nat.eqb (length tps) (length scalar)); cbn [negb];
     [ unfold bind, ret; rewrite write_logged; reflexivity
     | unfold bind; rewrite print_logged, write_logged, logged_twice;
       reflexivity ]).
Qed.

Lemma dump_audio_logged :
  forall (prefix : string) (iteration : nat) (item : string * audio),
    audio_ok item = true ->
    exists e, forall w : world,
      dump_audio prefix iteration item w = (Return tt, logged [e] [] w).
Proof.
  intros p it [key a] H. unfold audio_ok in H. unfold dump_audio. cbn [fst snd] in *.
  destruct a as [items | samples].
  - eexists. intro w. rewrite H. unfold Hooks.assert, bind, ret. apply write_logged.
  - eexists. intro w. apply write_logged.
Qed.

Lemma dump_audio_raises :
  forall (prefix : string) (iteration : nat) (item : string * audio) (w : world),
    audio_ok item = false ->
    dump_audio prefix iteration item w = (Raise AssertionError, w).
Proof.
  intros p it [key a] w H. unfold audio_ok in H. unfold dump_audio. cbn [fst snd] in *.
  destruct a as [items | samples]; [| discriminate H].
  now rewrite H.
Qed.

(** The loop over the snapshots writes some events, and stops at the
    first snapshot that is a sequence of another length than 2. *)
Lemma for_each_audio :
  forall (prefix : string) (iteration : nat) (items : dict audio) (w : world),
    exists evs,
      (forallb audio_ok items = true
       /\ for_each items (dump_audio prefix iteration) w = (Return tt, logged evs [] w))
      \/ (forallb audio_ok items = false
          /\ for_each items (dump_audio prefix iteration) w
             = (Raise AssertionError, logged evs [] w)).
Proof.
  intros p it items. induction items as [| item items IH]; intro w.
  - exists []. left. split; [reflexivity |]. simpl. unfold ret.
    now rewrite logged_nothing.
  - cbn [for_each forallb]. destruct (audio_ok item) eqn:E.
    + destruct (dump_audio_logged p it item E) as [e He].
      unfold bind. rewrite He.
      destruct (IH (logged [e] [] w)) as [evs [[Hok Hrun] | [Hbad Hrun]]];
        exists (e :: evs); [left | right]; (split; [assumption |]);
        rewrite Hrun, logged_twice; reflexivity.
    + exists []. right. split; [reflexivity |].
      unfold bind. rewrite (dump_audio_raises p it item w E).
      now rewrite logged_nothing.
Qed.

(** What a flush does: the loops that cannot fail write the leading
    events and print the timing warnings; the snapshots follow; when no
    snapshot is refused the summary is reset and the timer with it. *)
Lemma dump_summary_outcome :
  forall w : world,
    exists rest,
      (forallb audio_ok (Summary.audios (summary (self w))) = true
       /\ dump_summary w
          = (Return tt,
             mkWorld
               (with_summary empty_summary_dict
                  (log_events (leading_events (self w) (trainer w) ++ rest) (self w)))
               (reset_timer (trainer w))
               (stdout w ++ timing_prints (trainer w))))
      \/ (forallb audio_ok (Summary.audios (summary (self w))) = false
          /\ dump_summary w
             = (Raise AssertionError,
                logged (leading_events (self w) (trainer w) ++ rest)
                       (timing_prints (trainer w)) w)).
Proof.
  intros [h tr out]. unfold leading_events, timing_prints.
  cbn [self trainer stdout].
  set (p := summary_prefix h). set (it := Trainer.iteration tr).
  set (d := Timer.as_dict (Trainer.timer tr)).
  set (w := mkWorld h tr out).
  set (lead := scalar_events p it (Summary.losses (summary h))
               ++ scalar_events p it (Summary.scalars (summary h))
               ++ map (timing_event d p it) d
               ++ histogram_events p it (Summary.histograms (summary h))).
  set (prints := flat_map (timing_print d) d).
  assert (Hlead : dump_summary w
    = (for_each (Summary.audios (summary h)) (dump_audio p it) ;;;
       for_each (Summary.images (summary h))
         (fun kv => write (add_image (tag p (fst kv)) (snd kv) it)) ;;;
       reset_summary ;;; set_trainer reset_timer)%hook (logged lead prints w)).
  { unfold dump_summary.
    unfold bind at 1. cbn [get_trainer]. unfold bind at 1. cbn [get_self self trainer].
    fold p it d.
    rewrite (bind_returned _ _ _ _ _ _ tt
      (for_each_logged _ (fun kv => [add_scalar (tag p (fst kv)) (Num.mean (snd kv)) it])
         (fun _ => []) _ _ (fun a w' _ => write_logged _ w') w)).
    rewrite (bind_returned _ _ _ _ _ _ tt
      (for_each_logged _ (fun kv => [add_scalar (tag p (fst kv)) (Num.mean (snd kv)) it])
         (fun _ => []) _ _ (fun a w' _ => write_logged _ w') _)).
    rewrite (bind_returned _ _ _ _ _ _ tt
      (for_each_logged _ (fun item => [timing_event d p it item]) (timing_print d)
         _ _ (fun a w' _ => dump_timing_logged d p it a w') _)).
    rewrite (bind_returned _ _ _ _ _ _ tt
      (for_each_logged _ (fun kv => [add_histogram (tag p (fst kv)) (snd kv) it])
         (fun _ => []) _ _ (fun a w' _ => write_logged _ w') _)).
    rewrite !logged_twice, !flat_map_singleton, !flat_map_nothing.
    cbn [app]. rewrite !app_nil_r, <- ?app_assoc. reflexivity. }
  rewrite Hlead. clear Hlead.
  destruct (for_each_audio p it (Summary.audios (summary h)) (logged lead prints w))
    as [evs [[Hok Hrun] | [Hbad Hrun]]].
  - exists (evs ++ map (fun kv => add_image (tag p (fst kv)) (snd kv) it)
                       (Summary.images (summary h))).
    left. split; [exact Hok |].
    rewrite (bind_returned _ _ _ _ _ _ tt Hrun), logged_twice.
    rewrite (bind_returned _ _ _ _ _ _ tt
      (for_each_logged _
        (fun kv : string * Tensor Qc => [add_image (tag p (fst kv)) (snd kv) it])
        (fun _ => []) _ _ (fun a w' _ => write_logged _ w') _)).
    rewrite logged_twice, flat_map_singleton, flat_map_nothing, !app_nil_r.
    unfold bind, reset_summary, set_self, set_trainer, logged. cbn.
    rewrite <- ?app_assoc. reflexivity.
  - exists evs. right. split; [exact Hbad |].
    rewrite (bind_raised _ _ _ _ _ _ _ Hrun), logged_twice, app_nil_r.
    reflexivity.
Qed.

Lemma dump_audio_event :
  forall (prefix : string) (iteration : nat) (item : string * audio)
         (w : World (SummaryHook.t T Ext)),
    audio_ok item = true ->
    dump_audio prefix iteration item w
    = (Return tt, logged [audio_event prefix iteration item] [] w).
Proof.
  intros p it [key a] w H. unfold audio_ok in H.
  unfold dump_audio, audio_event. cbn [fst snd] in *.
  destruct a as [items | samples].
  - rewrite H. unfold Hooks.assert, bind, ret. apply write_logged.
  - apply write_logged.
Qed.

(** The loop over the snapshots writes the accepted ones and stops at
    the first that is refused. *)
Lemma for_each_audio_accepted :
  forall (prefix : string) (iteration : nat) (items : dict audio)
         (w : World (SummaryHook.t T Ext)),
    for_each items (dump_audio prefix iteration) w
    = (if forallb audio_ok items then Return tt else Raise AssertionError,
       logged (map (audio_event prefix iteration) (accepted items)) [] w).
Proof.
  intros p it items. induction items as [| item items IH]; intro w.
  - simpl. unfold ret. now rewrite logged_nothing.
  - cbn [for_each forallb accepted]. destruct (audio_ok item) eqn:E.
    + rewrite (bind_returned _ _ _ _ _ _ tt (dump_audio_event p it item w E)).
      rewrite IH, logged_twice. reflexivity.
    + unfold bind. rewrite (dump_audio_raises p it item w E).
      cbn [andb map]. now rewrite logged_nothing.
Qed.

(** A flush, in full. *)
Lemma dump_summary_flushed :
  forall w : World (SummaryHook.t T Ext),
    dump_summary w
    = if forallb audio_ok (Summary.audios (summary (self w)))
      then (Return tt,
            mkWorld
              (with_summary empty_summary_dict
                 (log_events (flushed_events (self w) (trainer w)) (self w)))
              (reset_timer (trainer w))
              (stdout w ++ timing_prints (trainer w)))
      else (Raise AssertionError,
            logged (flushed_events (self w) (trainer w))
                   (timing_prints (trainer w)) w).
Proof.
  intros [h tr out]. unfold flushed_events, leading_events, timing_prints.
  cbn [self trainer stdout].
  set (p := summary_prefix h). set (it := Trainer.iteration tr).
  set (d := Timer.as_dict (Trainer.timer tr)).
  set (w := mkWorld h tr out).
  set (lead := scalar_events p it (Summary.losses (summary h))
               ++ scalar_events p it (Summary.scalars (summary h))
               ++ map (timing_event d p it) d
               ++ histogram_events p it (Summary.histograms (summary h))).
  set (prints := flat_map (timing_print d) d).
  assert (Hlead : dump_summary w
    = (for_each (Summary.audios (summary h)) (dump_audio p it) ;;;
       for_each (Summary.images (summary h))
         (fun kv => write (add_image (tag p (fst kv)) (snd kv) it)) ;;;
       reset_summary ;;; set_trainer reset_timer)%hook (logged lead prints w)).
  { unfold dump_summary.
    unfold bind at 1. cbn [get_trainer]. unfold bind at 1. cbn [get_self self trainer].
    fold p it d.
    rewrite (bind_returned _ _ _ _ _ _ tt
      (for_each_logged _ (fun kv => [add_scalar (tag p (fst kv)) (Num.mean (snd kv)) it])
         (fun _ => []) _ _ (fun a w' _ => write_logged _ w') w)).
    rewrite (bind_returned _ _ _ _ _ _ tt
      (for_each_logged _ (fun kv => [add_scalar (tag p (fst kv)) (Num.mean (snd kv)) it])
         (fun _ => []) _ _ (fun a w' _ => write_logged _ w') _)).
    rewrite (bind_returned _ _ _ _ _ _ tt
      (for_each_logged _ (fun item => [timing_event d p it item]) (timing_print d)
         _ _ (fun a w' _ => dump_timing_logged d p it a w') _)).
    rewrite (bind_returned _ _ _ _ _ _ tt
      (for_each_logged _ (fun kv => [add_histogram (tag p (fst kv)) (snd kv) it])
         (fun _ => []) _ _ (fun a w' _ => write_logged _ w') _)).
    rewrite !logged_twice, !flat_map_singleton, !flat_map_nothing.
    cbn [app]. rewrite !app_nil_r, <- ?app_assoc. reflexivity. }
  rewrite Hlead. clear Hlead.
  pose proof (for_each_audio_accepted p it (Summary.audios (summary h))
                (logged lead prints w)) as Hrun.
  destruct (forallb audio_ok (Summary.audios (summary h))).
  - rewrite (bind_returned _ _ _ _ _ _ tt Hrun), logged_twice.
    rewrite (bind_returned _ _ _ _ _ _ tt
      (for_each_logged _
        (fun kv : string * Tensor Qc => [add_image (tag p (fst kv)) (snd kv) it])
        (fun _ => []) _ _ (fun a w' _ => write_logged _ w') _)).
    rewrite logged_twice, flat_map_singleton, flat_map_nothing, !app_nil_r.
    unfold bind, reset_summary, set_self, set_trainer, logged, image_events. cbn.
    rewrite <- ?app_assoc. reflexivity.
  - rewrite (bind_raised _ _ _ _ _ _ _ Hrun), logged_twice, !app_nil_r.
    reflexivity.
Qed.

Lemma dump_summary_events :
  forall w : World (SummaryHook.t T Ext),
    events_of (self (snd (dump_summary w)))
    = events_of (self w) ++ flushed_events (self w) (trainer w).
Proof.
  intro w. rewrite dump_summary_flushed.
  destruct (forallb audio_ok (Summary.audios (summary (self w)))); cbn [fst snd].
  - unfold events_of at 1. cbn [self writer with_summary].
    fold (events_of (log_events (flushed_events (self w) (trainer w)) (self w))).
    apply events_of_log_events.
  - unfold logged. cbn [self stdout]. apply events_of_log_events.
Qed.

Lemma dump_summary_result :
  forall w : World (SummaryHook.t T Ext),
    fst (dump_summary w)
    = if forallb audio_ok (Summary.audios (summary (self w)))
      then Return tt else Raise AssertionError.
Proof.
  intro w. rewrite dump_summary_flushed.
  now destruct (forallb audio_ok (Summary.audios (summary (self w)))).
Qed.

Lemma flushed_events_of_empty_summary :
  forall (h : SummaryHook.t T Ext) (tr : Trainer.t),
    summary h = empty_summary_dict ->
    flushed_events h tr
    = map (timing_event (Timer.as_dict (Trainer.timer tr)) (summary_prefix h)
             (Trainer.iteration tr))
          (Timer.as_dict (Trainer.timer tr)).
Proof.
  intros h tr H.
  unfold flushed_events, leading_events, scalar_events, histogram_events, image_events.
  rewrite H. cbn [empty_summary_dict Summary.losses Summary.scalars
    Summary.histograms Summary.audios Summary.images map accepted forallb app].
  now rewrite !app_nil_r.
Qed.

End DumpSummaryProperties.

Section SummaryHookProperties.

Import Hooks SummaryHook.
Context {T Ext Iterator : Type} {trig : Trigger T}
        {methods : TrainerMethods Iterator}.




(** C9. At iteration 1 [pre_step] flushes whatever the trigger answers.
    It is the flush itself, run on the hook whose trigger has been
    called: it writes every event of a flush after those the writer
    holds and prints the timing warnings; unless a snapshot is refused
    it returns with the summary reset to the empty one and the timer of
    the trainer reset, and otherwise it raises the AssertionError of the
    flush. *)
Theorem pre_step_flushes_at_first_iteration :
  forall (h : SummaryHook.t T Ext) (tr : Trainer.t) (out : list string),
    Trainer.iteration tr = 1 ->
    SummaryHook.pre_step (mkWorld h tr out)
    = SummaryHook.dump_summary
        (mkWorld (with_trigger (snd (call (trigger h) 1 (Trainer.epoch tr))) h)
                 tr out)
    /\ events_of (self (snd (SummaryHook.pre_step (mkWorld h tr out))))
       = events_of h ++ flushed_events h tr
    /\ stdout (snd (SummaryHook.pre_step (mkWorld h tr out)))
       = out ++ timing_prints tr
    /\ (forallb audio_ok (Summary.audios (summary h)) = true ->
        fst (SummaryHook.pre_step (mkWorld h tr out)) = Return tt
        /\ summary (self (snd (SummaryHook.pre_step (mkWorld h tr out))))
           = empty_summary_dict
        /\ trainer (snd (SummaryHook.pre_step (mkWorld h tr out)))
           = reset_timer tr)
    /\ (forallb audio_ok (Summary.audios (summary h)) = false ->
        fst (SummaryHook.pre_step (mkWorld h tr out)) = Raise AssertionError).
Proof.
  intros h tr out H1.
  assert (E : SummaryHook.pre_step (mkWorld h tr out)
              = SummaryHook.dump_summary
                  (mkWorld (with_trigger
                              (snd (call (trigger h) 1 (Trainer.epoch tr))) h)
                           tr out)).
  { unfold SummaryHook.pre_step, call_trigger.
    unfold bind, get_trainer, get_self, set_self, ret.
    cbn [self trainer stdout fst snd].
    rewrite H1. cbn [Nat.eqb]. now rewrite orb_true_r. }
  split; [exact E |]. rewrite E.
  set (h' := with_trigger (snd (call (trigger h) 1 (Trainer.epoch tr))) h).
  assert (Hf : flushed_events h' tr = flushed_events h tr) by reflexivity.
  assert (He : events_of h' = events_of h) by reflexivity.
  assert (Hs : summary h' = summary h) by reflexivity.
  split; [| split; [| split]].
  - rewrite dump_summary_events. cbn [self trainer]. now rewrite Hf, He.
  - rewrite dump_summary_flushed. cbn [self trainer stdout]. rewrite Hs.
    now destruct (forallb audio_ok (Summary.audios (summary h))).
  - intro Hok. rewrite dump_summary_flushed. cbn [self trainer stdout].
    rewrite Hs, Hok. repeat split.
  - intro Hbad. rewrite dump_summary_flushed. cbn [self trainer stdout].
    rewrite Hs, Hbad. reflexivity.
Qed.


(** Without a 'time_per_step' series the loop falls back to the mean of
    the samples, under the name of the series. *)
Lemma timing_event_without_step_series :
  forall (as_dict : dict (list Qc)) (prefix : string) (iteration : nat)
         (key : string) (samples : list Qc),
    Py.get as_dict "time_per_step" = None ->
    timing_event as_dict prefix iteration (key, samples)
    = add_scalar (tag prefix key) (Num.mean samples) iteration.
Proof.
  intros d p it key s H. unfold timing_event. cbn [fst snd]. rewrite H.
  now destruct (is_timed_part key).
Qed.

End SummaryHookProperties.

Section ScenarioProperties.

Import Hooks SummaryHook.
Context {T Iterator : Type} {trig : Trigger T}
        {methods : TrainerMethods Iterator}.

Lemma mean_of_1_and_3 : Num.mean [z 1; z 3] = Fin (z 2).
Proof. qc_compute. Qed.

Lemma pre_step_when_fired :
  forall (Ext : Type) (h : SummaryHook.t T Ext) (tr : Trainer.t)
         (out : list string),
    fst (call (trigger h) (Trainer.iteration tr) (Trainer.epoch tr)) = true ->
    SummaryHook.pre_step (mkWorld h tr out)
    = SummaryHook.dump_summary
        (mkWorld (with_trigger
                    (snd (call (trigger h) (Trainer.iteration tr)
                            (Trainer.epoch tr))) h)
                 tr out).
Proof.
  intros Ext h tr out H. unfold SummaryHook.pre_step, call_trigger.
  unfold bind, get_trainer, get_self, set_self, ret. cbn [self trainer stdout fst snd].
  now rewrite H.
Qed.

(** C3. A summary hook with prefix 'training' is handed the losses
    a = 1.0 at iteration 1 and a = 3.0 at iteration 2; its trigger fires
    at iteration 2. Both [post_step] calls return, and [pre_step] at
    iteration 2 returns having written the scalar 'training/a' with the
    mean 2.0 at step 2 before anything else; afterwards the summary of
    the hook is the empty one and the timer of the trainer has been
    reset. *)
Theorem summary_hook_flushes_the_mean :
  forall (g : T) (tr1 tr2 : Trainer.t),
    Trainer.iteration tr1 = 1 ->
    Trainer.iteration tr2 = 2 ->
    Trainer.storage_dir tr2 = Trainer.storage_dir tr1 ->
    fst (call g 2 (Trainer.epoch tr2)) = true ->
    fst (after_first_step g tr1) = Return tt
    /\ fst (after_second_step g tr1 tr2) = Return tt
    /\ fst (SummaryHook.pre_step (snd (after_second_step g tr1 tr2))) = Return tt
    /\ (exists more,
          events_of (self (snd (SummaryHook.pre_step
                                  (snd (after_second_step g tr1 tr2)))))
          = add_scalar "training/a" (Fin (z 2)) 2 :: more)
    /\ summary (self (snd (SummaryHook.pre_step
                             (snd (after_second_step g tr1 tr2)))))
       = empty_summary_dict
    /\ trainer (snd (SummaryHook.pre_step (snd (after_second_step g tr1 tr2))))
       = reset_timer tr2.
Proof.
  intros g tr1 tr2 H1 H2 Hdir Hfire.
  assert (Hw2 : after_second_step g tr1 tr2
    = (Return tt,
       mkWorld (SummaryHook.make g
                  (Summary.make [("a"%string, [z 1; z 3])] [] [] [] [])
                  "training" (Some (Trainer.storage_dir tr1)) None tt)
               tr2 [])).
  { unfold after_second_step, after_first_step, post_step, update_summary,
      bind, get_trainer, get_self, set_self, Hooks.assert, ret, raise.
    cbn. rewrite Hdir, String.eqb_refl. reflexivity. }
  split; [reflexivity |]. rewrite Hw2. cbn [fst snd]. split; [reflexivity |].
  rewrite pre_step_when_fired by (cbn [trigger]; now rewrite H2).
  match goal with |- context [dump_summary ?w] =>
    destruct (dump_summary_outcome w) as [rest [[Hok Hrun] | [Hbad Hrun]]];
      [| discriminate Hbad]
  end.
  rewrite Hrun. cbn [fst snd self trainer]. split; [reflexivity |].
  split; [| split; reflexivity].
  unfold events_of. cbn [writer with_summary].
  match goal with |- context [writer (log_events ?evs ?h)] =>
    fold (events_of (log_events evs h)); rewrite (events_of_log_events evs h)
  end.
  unfold leading_events, scalar_events. cbn [events_of writer with_trigger summary
    Summary.losses map fst snd app summary_prefix]. rewrite H2, mean_of_1_and_3.
  eexists. reflexivity.
Qed.

(** C4. [StopTrainingHook.pre_step] raises [StopTraining], and nothing
    else, exactly when its trigger fires at the iteration and epoch of
    the trainer; when it does not fire the call returns, the trainer is
    as it was and nothing has been printed. [StopTraining] is none of
    the errors. *)
Theorem stop_training_iff_trigger_fires :
  forall (h : StopTrainingHook.t T) (tr : Trainer.t) (out : list string),
    (fst (StopTrainingHook.pre_step (mkWorld h tr out)) = Raise StopTraining
     <-> fst (call (StopTrainingHook.trigger h) (Trainer.iteration tr)
                   (Trainer.epoch tr)) = true)
    /\ (fst (call (StopTrainingHook.trigger h) (Trainer.iteration tr)
                  (Trainer.epoch tr)) = false
        <-> StopTrainingHook.pre_step (mkWorld h tr out)
            = (Return tt,
               mkWorld (StopTrainingHook.make
                          (snd (call (StopTrainingHook.trigger h)
                                  (Trainer.iteration tr) (Trainer.epoch tr))))
                       tr out))
    /\ (forall e, fst (StopTrainingHook.pre_step (mkWorld h tr out)) = Raise e ->
                  e = StopTraining)
    /\ (forall msg, StopTraining <> ValueError msg)
    /\ StopTraining <> AssertionError
    /\ StopTraining <> IndexError
    /\ StopTraining <> RuntimeError.
Proof.
  intros h tr out. unfold StopTrainingHook.pre_step.
  unfold bind, get_trainer, get_self, set_self, print, raise, ret.
  cbn [self trainer stdout fst snd].
  destruct (call (StopTrainingHook.trigger h) (Trainer.iteration tr)
              (Trainer.epoch tr)) as [[|] g']; cbn [fst snd].
  - repeat split; try discriminate; try congruence.
  - repeat split; try discriminate; try congruence.
Qed.

End ScenarioProperties.

Section ValidationHookProperties.

Import Hooks SummaryHook.
Context {T Iterator : Type} {trig : Trigger T}
        {methods : TrainerMethods Iterator}.

(** Folding reviews into the summary changes the summary and nothing
    else, and cannot fail. *)
Lemma for_each_update_summary :
  forall (evaluation : list Review.t) (w : World (SummaryHook.t T Iterator)),
    exists s,
      for_each evaluation update_summary w
      = (Return tt, mkWorld (with_summary s (self w)) (trainer w) (stdout w)).
Proof.
  intro evaluation. induction evaluation as [| review rest IH]; intros [h tr out].
  - exists (summary h). destruct h. reflexivity.
  - cbn [for_each]. unfold bind, update_summary at 1, set_self.
    cbn [self trainer stdout].
    destruct (IH (mkWorld (with_summary (update (summary h) review) h) tr out))
      as [s Hs].
    rewrite Hs. exists s. reflexivity.
Qed.

(** A timer that holds a sample fails the check of the hook. *)
Lemma samples_fail_the_check :
  forall tr : Trainer.t,
    holds_samples tr -> ValidationHook.timer_is_empty tr = false.
Proof.
  intros tr (key & samples & v & Hin & _). unfold ValidationHook.timer_is_empty.
  destruct (Timer.timings (Trainer.timer tr)); [contradiction | reflexivity].
Qed.

(** C5. When its trigger fires, [ValidationHook.pre_step] starts the
    validation pass only on an empty timer, and finishes only on an empty
    timer: a timer with samples before the pass raises an AssertionError
    before anything is printed or validated; a timer with samples after
    the flush raises one too; so a call that returns had an empty timer
    before the pass and leaves an empty timer behind. *)
Theorem validation_runs_between_empty_timers :
  forall (h : ValidationHook.t (T := T) (Iterator := Iterator))
         (tr : Trainer.t) (out : list string),
    fst (call (trigger h) (Trainer.iteration tr) (Trainer.epoch tr)) = true ->
    (ValidationHook.timer_is_empty tr = false ->
       ValidationHook.pre_step (mkWorld h tr out)
       = (Raise AssertionError,
          mkWorld (with_trigger
                     (snd (call (trigger h) (Trainer.iteration tr)
                             (Trainer.epoch tr))) h)
                  tr out))
    /\ (ValidationHook.timer_is_empty tr = true ->
        ValidationHook.timer_is_empty
          (reset_timer (snd (validate tr (ValidationHook.iterator h)))) = false ->
        fst (ValidationHook.pre_step (mkWorld h tr out)) = Raise AssertionError)
    /\ (fst (ValidationHook.pre_step (mkWorld h tr out)) = Return tt ->
        ValidationHook.timer_is_empty tr = true
        /\ ValidationHook.timer_is_empty
             (trainer (snd (ValidationHook.pre_step (mkWorld h tr out)))) = true)
    /\ (fst (ValidationHook.pre_step (mkWorld h tr out)) = Return tt
        \/ fst (ValidationHook.pre_step (mkWorld h tr out)) = Raise AssertionError).
Proof.
  intros h tr out Hfire.
  set (g' := snd (call (trigger h) (Trainer.iteration tr) (Trainer.epoch tr))).
  set (h' := with_trigger g' h).
  assert (Hstart : ValidationHook.pre_step (mkWorld h tr out)
    = (Hooks.assert (ValidationHook.timer_is_empty tr) ;;;
       print "Starting Validation" ;;;
       evaluation <- ValidationHook.run_validate ;;
       for_each evaluation update_summary ;;;
       dump_summary ;;;
       tr' <- get_trainer ;;
       Hooks.assert (ValidationHook.timer_is_empty tr') ;;;
       print "Finished Validation")%hook (mkWorld h' tr out)).
  { unfold ValidationHook.pre_step, call_trigger.
    unfold bind at 1. unfold bind at 1. cbn [get_trainer]. unfold bind at 1.
    cbn [get_self self trainer]. unfold bind at 1.
    cbn [set_self self trainer stdout ret]. rewrite Hfire.
    unfold bind at 1. cbn [get_trainer trainer]. reflexivity. }
  remember (ValidationHook.pre_step (mkWorld h tr out)) as r eqn:Hr in |- *.
  rewrite Hstart in Hr. clear Hstart.
  destruct (ValidationHook.timer_is_empty tr) eqn:Hbefore.
  2: { cbn [Hooks.assert] in Hr. unfold bind at 1, raise in Hr. subst r.
       repeat split; try discriminate. now right. }
  cbn [Hooks.assert] in Hr. unfold bind at 1, ret in Hr.
  unfold bind at 1, print in Hr. cbn [self trainer stdout] in Hr.
  unfold bind at 1, ValidationHook.run_validate in Hr.
  unfold bind at 1 in Hr. cbn [get_trainer trainer] in Hr.
  unfold bind at 1 in Hr. cbn [get_self self] in Hr.
  unfold bind at 1 in Hr. cbn [set_trainer self trainer stdout ret] in Hr.
  change (ValidationHook.iterator h') with (ValidationHook.iterator h) in Hr.
  set (outcome := validate tr (ValidationHook.iterator h)) in *.
  unfold bind at 1 in Hr.
  destruct (for_each_update_summary (fst outcome)
              (mkWorld h' (snd outcome) (out ++ ["Starting Validation"%string])))
    as [s Hs].
  unfold ValidationHook.t in Hr. rewrite Hs in Hr. cbn [self trainer stdout] in Hr. unfold bind at 1 in Hr.
  destruct (dump_summary_outcome
              (mkWorld (with_summary s h') (snd outcome)
                       (out ++ ["Starting Validation"%string])))
    as [rest [[Hok Hrun] | [Hbad Hrun]]]; rewrite Hrun in Hr;
    cbn [self trainer stdout] in Hr.
  - unfold bind at 1 in Hr. cbn [get_trainer trainer] in Hr.
    destruct (ValidationHook.timer_is_empty (reset_timer (snd outcome))) eqn:Hafter.
    + cbn [Hooks.assert] in Hr. unfold bind, ret, print in Hr. subst r.
      cbn [fst snd trainer].
      repeat split; try discriminate; try assumption. now left.
    + cbn [Hooks.assert] in Hr. unfold bind, raise in Hr. subst r. cbn [fst snd].
      repeat split; try discriminate. now right.
  - subst r. cbn [fst snd]. repeat split; try discriminate. now right.
Qed.

End ValidationHookProperties.

(** ** The hooks on concrete runs *)

Section ConcreteRuns.

Import Hooks SummaryHook.
Existing Instance TriggerSpec.trigger.
Existing Instance TrainerSpec.methods.

Lemma pre_step_flushes_at_first_iteration_witness :
  fst (call every_two_iterations 1 0) = false
  /\ events_of (self (snd (SummaryHook.pre_step
                            (mkWorld (hook_holding one_loss)
                                     (trainer_at 1 mismatched_timings) []))))
     = [add_scalar "training/a" (Fin (z 1)) 1;
        add_scalar "training/time_rel_data_loading" (Fin (Q2Qc (3 # 4))) 1;
        add_scalar "training/time_per_step" (Fin (z 4)) 1]
  /\ summary (self (snd (SummaryHook.pre_step
                          (mkWorld (hook_holding one_loss)
                                   (trainer_at 1 mismatched_timings) []))))
     = empty_summary_dict.
Proof.
  destruct (pre_step_flushes_at_first_iteration
              (hook_holding one_loss) (trainer_at 1 mismatched_timings) []
              eq_refl) as (_ & Hevents & _ & Hok & _).
  split; [reflexivity |]. split.
  - rewrite Hevents. qc_compute.
  - exact (proj1 (proj2 (Hok eq_refl))).
Defined.



Lemma summary_hook_flushes_the_mean_witness :
  fst (SummaryHook.pre_step
         (snd (after_second_step every_two_iterations
                 (trainer_at 1 []) (trainer_at 2 [])))) = Return tt
  /\ summary (self (snd (SummaryHook.pre_step
         (snd (after_second_step every_two_iterations
                 (trainer_at 1 []) (trainer_at 2 []))))))
     = empty_summary_dict.
Proof.
  pose proof (summary_hook_flushes_the_mean every_two_iterations
                (trainer_at 1 []) (trainer_at 2 [])
                eq_refl eq_refl eq_refl eq_refl) as (_ & _ & R & _ & S & _).
  exact (conj R S).
Defined.

Lemma validation_runs_between_empty_timers_witness :
  ValidationHook.pre_step
    (mkWorld (ValidationHook.init every_two_iterations [])
             (trainer_at 2 mismatched_timings) [])
  = (Raise AssertionError,
     mkWorld (ValidationHook.init every_two_iterations [])
             (trainer_at 2 mismatched_timings) []).
Proof.
  apply (proj1 (validation_runs_between_empty_timers
                  (trig := TriggerSpec.trigger) (methods := TrainerSpec.methods)
                  (ValidationHook.init every_two_iterations [])
                  (trainer_at 2 mismatched_timings) [] eq_refl)).
  reflexivity.
Defined.

(** The scenario of the specification for the stop hook: with
    End(3, 'epoch'), [pre_step] returns at the epochs 0, 1 and 2 and
    raises [StopTraining] at epoch 3. *)
Example stop_after_three_epochs :
  forall (iteration : nat) (out : list string),
    (forall epoch, epoch < 3 ->
       fst (StopTrainingHook.pre_step
              (mkWorld (StopTrainingHook.make end_after_three_epochs)
                       (Trainer.make iteration epoch Timer.empty "exp/1") out))
       = Return tt)
    /\ fst (StopTrainingHook.pre_step
              (mkWorld (StopTrainingHook.make end_after_three_epochs)
                       (Trainer.make iteration 3 Timer.empty "exp/1") out))
       = Raise StopTraining.
Proof.
  intros iteration out. split; [| reflexivity].
  intros epoch H.
  destruct epoch as [| [| [| epoch]]]; try reflexivity. lia.
Qed.

End ConcreteRuns.

(** ** kl_normal_multivariatenormals *)

Section DiagonalMatrices.

Import Loss Exact.
Local Open Scope Qc_scope.

Lemma length_scaled_unit :
  forall (n i : nat) (c : Qc), length (scaled_unit n i c) = n.
Proof. intros. unfold scaled_unit. now rewrite length_map, length_seq. Qed.

Lemma nth_map_seq :
  forall (A : Type) (g : nat -> A) (n j : nat) (d : A),
    (j < n)%nat -> nth j (map g (seq 0 n)) d = g j.
Proof.
  intros A g n j d Hj.
  rewrite (nth_indep _ d (g 0%nat)) by now rewrite length_map, length_seq.
  rewrite map_nth, seq_nth by assumption. reflexivity.
Qed.

Lemma nth_scaled_unit :
  forall (n i j : nat) (c : Qc),
    (j < n)%nat -> nth j (scaled_unit n i c) 0 = if Nat.eqb i j then c else 0.
Proof.
  intros n i j c Hj. unfold scaled_unit. now rewrite nth_map_seq.
Qed.

Lemma unit_vector_scaled :
  forall n i : nat, unit_vector n i = scaled_unit n i 1.
Proof. reflexivity. Qed.

(** A row of the extended matrix: the diagonal entry [c] at [i], and [c']
    at [i] in the half that becomes the inverse. *)
Lemma nth_extended_other :
  forall (n i j : nat) (c c' : Qc),
    (j < n)%nat -> i <> j ->
    nth j (scaled_unit n i c ++ scaled_unit n i c') 0 = 0.
Proof.
  intros n i j c c' Hj Hij.
  rewrite app_nth1 by now rewrite length_scaled_unit.
  rewrite nth_scaled_unit by assumption.
  apply Nat.eqb_neq in Hij. now rewrite Hij.
Qed.

Lemma nth_extended_own :
  forall (n i : nat) (c c' : Qc),
    (i < n)%nat -> nth i (scaled_unit n i c ++ scaled_unit n i c') 0 = c.
Proof.
  intros n i c c' Hi.
  rewrite app_nth1 by now rewrite length_scaled_unit.
  rewrite nth_scaled_unit by assumption. now rewrite Nat.eqb_refl.
Qed.

Lemma zip_with_keep :
  forall (r p : list Qc),
    length r = length p -> zip_with (fun a b => a - 0 * b) r p = r.
Proof.
  induction r as [| a r IH]; intros [| b p] H; try discriminate H.
  - reflexivity.
  - simpl. rewrite IH by (now injection H). f_equal. ring.
Qed.

Lemma eliminate_clear :
  forall (j : nat) (p r : list Qc),
    length r = length p -> nth j r 0 = 0 -> eliminate j p r = r.
Proof.
  intros j p r Hl Hz. unfold eliminate. rewrite Hz. now apply zip_with_keep.
Qed.

Lemma scale_scaled_unit :
  forall (n i : nat) (c s : Qc),
    map (fun v => v / s) (scaled_unit n i c) = scaled_unit n i (c / s).
Proof.
  intros n i c s. unfold scaled_unit. rewrite map_map.
  apply map_ext. intro j. destruct (Nat.eqb i j); [reflexivity |].
  unfold Qcdiv. ring.
Qed.

Section GaussJordan.

Variable D : nat.
Variable f : nat -> Qc.
Hypothesis f_nonzero : forall i, (i < D)%nat -> f i <> 0.

Lemma length_todo_row : forall i, length (todo_row D f i) = (D + D)%nat.
Proof. intro i. unfold todo_row. now rewrite length_app, !length_scaled_unit. Qed.

Lemma length_done_row : forall i, length (done_row D f i) = (D + D)%nat.
Proof. intro i. unfold done_row. now rewrite length_app, !length_scaled_unit. Qed.

Lemma pivot_row_scaled :
  forall j, (j < D)%nat ->
    map (fun v => v / nth j (todo_row D f j) 0) (todo_row D f j) = done_row D f j.
Proof.
  intros j Hj. unfold todo_row at 1. rewrite nth_extended_own by assumption.
  unfold todo_row, done_row. rewrite map_app, !scale_scaled_unit.
  f_equal; f_equal; unfold Qcdiv.
  - apply Qcmult_inv_r. now apply f_nonzero.
  - ring.
Qed.

(** On a diagonal matrix every column finds its pivot on the diagonal
    and no row has anything to clear. *)
Lemma gauss_jordan_diagonal :
  forall (k j : nat),
    (j + k = D)%nat ->
    gauss_jordan (seq j k) (map (done_row D f) (seq 0 j)) (map (todo_row D f) (seq j k))
    = Some (map (done_row D f) (seq 0 D)).
Proof.
  induction k as [| k IH]; intros j Hjk.
  - simpl. rewrite Nat.add_0_r in Hjk. now subst.
  - cbn [seq map gauss_jordan find_pivot].
    assert (Hj : (j < D)%nat) by lia.
    unfold todo_row at 1. rewrite nth_extended_own by assumption.
    unfold is_zero. destruct (Qc_eq_dec (f j) 0) as [E | _];
      [now apply f_nonzero in E |].
    fold (todo_row D f j). rewrite (pivot_row_scaled j Hj).
    rewrite (map_ext_in (eliminate j (done_row D f j)) (fun r => r)).
    + rewrite map_id.
      rewrite (map_ext_in (eliminate j (done_row D f j)) (fun r => r)).
      * rewrite map_id.
        replace (map (done_row D f) (seq 0 j) ++ [done_row D f j])
          with (map (done_row D f) (seq 0 (S j)))
          by (now rewrite seq_S, map_app).
        apply IH. lia.
      * intros r Hr. apply in_map_iff in Hr. destruct Hr as [i [<- Hi]].
        apply in_seq in Hi. apply eliminate_clear.
        -- now rewrite length_todo_row, length_done_row.
        -- apply nth_extended_other; lia.
    + intros r Hr. apply in_map_iff in Hr. destruct Hr as [i [<- Hi]].
      apply in_seq in Hi. apply eliminate_clear.
      * now rewrite !length_done_row.
      * apply nth_extended_other; lia.
Qed.

End GaussJordan.

Lemma zip_with_map_same :
  forall (A B C : Type) (h : A -> B -> C) (g : B -> A) (l : list B),
    zip_with h (map g l) l = map (fun i => h (g i) i) l.
Proof.
  intros A B C h g l. induction l as [| b l IH]; simpl; [reflexivity |].
  now rewrite IH.
Qed.

Lemma zip_with_maps :
  forall (A B C I : Type) (h : A -> B -> C) (a : I -> A) (b : I -> B) (l : list I),
    zip_with h (map a l) (map b l) = map (fun i => h (a i) (b i)) l.
Proof.
  intros A B C I h a b l. induction l as [| i l IH]; simpl; [reflexivity |].
  now rewrite IH.
Qed.

Lemma length_diagonal :
  forall (D : nat) (f : nat -> Qc), length (diagonal D f) = D.
Proof. intros. unfold diagonal. now rewrite length_map, length_seq. Qed.

(** The inverse of a diagonal matrix without a zero on its diagonal is
    the diagonal matrix of the reciprocals. *)
Lemma inverse_diagonal :
  forall (D : nat) (f : nat -> Qc),
    (forall i, (i < D)%nat -> f i <> 0) ->
    inverse (diagonal D f) = Return (diagonal D (fun i => / f i)).
Proof.
  intros D f Hf. unfold inverse, augment. rewrite length_diagonal.
  unfold diagonal at 1. rewrite zip_with_map_same.
  change (map (fun i => scaled_unit D i (f i) ++ unit_vector D i) (seq 0 D))
    with (map (todo_row D f) (seq 0 D)).
  change (@nil (list Qc)) with (map (done_row D f) (seq 0 0)).
  rewrite (gauss_jordan_diagonal D f Hf D 0) by lia.
  rewrite map_map. unfold diagonal. apply f_equal. apply map_ext. intro i.
  unfold done_row. rewrite skipn_app, length_scaled_unit, Nat.sub_diag.
  rewrite skipn_all2 by (rewrite length_scaled_unit; lia). reflexivity.
Qed.

End DiagonalMatrices.

Section KLTerms.

Import Loss.
Local Open Scope Qc_scope.

Lemma nth_concat_rows :
  forall (w : nat) (m : list (list Qc)) (i j : nat) (d : Qc),
    Forall (fun r => length r = w) m -> (j < w)%nat ->
    nth (i * w + j) (concat m) d = nth j (nth i m []) d.
Proof.
  intros w m. induction m as [| r m IH]; intros i j d Hm Hj.
  - simpl. now destruct (i * w + j)%nat, i, j.
  - inversion Hm as [| r' m' Hr Hm']; subst. simpl. destruct i as [| i].
    + simpl. apply app_nth1. lia.
    + rewrite app_nth2 by (simpl; lia).
      replace (S i * length r + j - length r)%nat with (i * length r + j)%nat
        by (simpl; lia).
      now apply IH.
Qed.

Lemma rows_of_diagonal :
  forall (D : nat) (g : nat -> Qc),
    Forall (fun r => length r = D) (diagonal D g).
Proof.
  intros D g. apply Forall_forall. intros r Hr. unfold diagonal in Hr.
  apply in_map_iff in Hr. destruct Hr as [i [<- _]]. apply length_scaled_unit.
Qed.

Lemma length_concat_rows :
  forall (w : nat) (m : list (list Qc)),
    Forall (fun r => length r = w) m -> length (concat m) = (length m * w)%nat.
Proof.
  intros w m H. induction H as [| r m Hr _ IH]; simpl; [reflexivity |].
  rewrite length_app, IH, Hr. reflexivity.
Qed.

(** [_batch_diag] reads the diagonal. *)
Lemma batch_diag_diagonal :
  forall (D : nat) (g : nat -> Qc), _batch_diag (diagonal D g) = map g (seq 0 D).
Proof.
  intros D g. unfold _batch_diag, slice_step.
  rewrite (length_concat_rows D) by apply rows_of_diagonal.
  rewrite length_diagonal.
  replace ((D * D + (D + 1) - 1) / (D + 1))%nat with D.
  - apply map_ext_in. intros i Hi. apply in_seq in Hi.
    replace (i * (D + 1))%nat with (i * D + i)%nat by lia.
    rewrite (nth_concat_rows D) by (apply rows_of_diagonal || lia).
    unfold diagonal. rewrite nth_map_seq by lia.
    rewrite nth_scaled_unit by lia. now rewrite Nat.eqb_refl.
  - replace (D * D + (D + 1) - 1)%nat with (D * (D + 1))%nat by lia.
    symmetry. apply Nat.div_mul. lia.
Qed.

Lemma sum_app : forall l l', Num.sum (l ++ l') = Num.sum l + Num.sum l'.
Proof.
  intros l l'. induction l as [| v l IH]; simpl; [ring |]. rewrite IH. ring.
Qed.

(** A sum with one term that is not zero. *)
Lemma sum_single :
  forall (h : nat -> Qc) (n a d : nat),
    Num.sum (map (fun i => if Nat.eqb i d then h i else 0) (seq a n))
    = if (Nat.leb a d && Nat.ltb d (a + n))%bool then h d else 0.
Proof.
  intros h n. induction n as [| n IH]; intros a d.
  - simpl. destruct (Nat.leb a d) eqn:E1; [| reflexivity].
    destruct (Nat.ltb d (a + 0)) eqn:E2; [| reflexivity].
    apply Nat.leb_le in E1. apply Nat.ltb_lt in E2. lia.
  - cbn [seq map Num.sum fold_right]. fold (Num.sum (map (fun i => if Nat.eqb i d then h i else 0) (seq (S a) n))).
    rewrite IH. destruct (Nat.eqb a d) eqn:E.
    + apply Nat.eqb_eq in E. subst a.
      replace (Nat.leb (S d) d) with false by (symmetry; apply Nat.leb_gt; lia).
      replace (Nat.leb d d) with true by (symmetry; apply Nat.leb_le; lia).
      replace (Nat.ltb d (d + S n)) with true by (symmetry; apply Nat.ltb_lt; lia).
      simpl. ring.
    + apply Nat.eqb_neq in E.
      destruct (Nat.leb (S a) d) eqn:E1.
      * apply Nat.leb_le in E1.
        replace (Nat.leb a d) with true by (symmetry; apply Nat.leb_le; lia).
        replace (S a + n)%nat with (a + S n)%nat by lia. simpl. ring.
      * apply Nat.leb_gt in E1.
        replace (Nat.leb a d) with false by (symmetry; apply Nat.leb_gt; lia).
        simpl. ring.
Qed.

Lemma of_nat_S : forall n : nat, of_nat (S n) = 1 + of_nat n.
Proof.
  intro n. unfold of_nat. apply Qc_is_canon. cbn [this Q2Qc Qcplus].
  rewrite !Qred_correct. rewrite Nat2Z.inj_succ.
  unfold Qeq, Qplus, inject_Z. cbn [Qnum Qden]. lia.
Qed.

Lemma sum_ones :
  forall (A : Type) (h : A -> Qc) (l : list A),
    (forall a, In a l -> h a = 1) -> Num.sum (map h l) = of_nat (length l).
Proof.
  intros A h l. induction l as [| a l IH]; intro H.
  - apply Qc_is_canon. reflexivity.
  - cbn [map Num.sum fold_right length]. fold (Num.sum (map h l)).
    rewrite of_nat_S, IH, H; [reflexivity | now left |].
    intros b Hb. apply H. now right.
Qed.

Lemma map_nth_seq :
  forall (s : list Qc), map (fun i => nth i s 0) (seq 0 (length s)) = s.
Proof.
  induction s as [| v s IH]; [reflexivity |].
  cbn [length seq map nth]. rewrite <- seq_shift, map_map. now rewrite IH.
Qed.

End KLTerms.

Section ChunkProperties.

Context {A : Type}.

Lemma length_chunk :
  forall (w k : nat) (l : list A), length (chunk w k l) = k.
Proof.
  intros w k. induction k as [| k IH]; intro l; simpl; [reflexivity |].
  now rewrite IH.
Qed.

Lemma length_in_chunk :
  forall (w k : nat) (l r : list A),
    length l = k * w -> In r (chunk w k l) -> length r = w.
Proof.
  intros w k. induction k as [| k IH]; intros l r Hl Hr; simpl in Hr.
  - contradiction.
  - simpl in Hl. destruct Hr as [<- | Hr].
    + rewrite length_firstn. lia.
    + apply (IH (skipn w l)); [| exact Hr]. rewrite length_skipn. lia.
Qed.

Lemma in_chunk_in :
  forall (w k : nat) (l r : list A) (v : A),
    In r (chunk w k l) -> In v r -> In v l.
Proof.
  intros w k. induction k as [| k IH]; intros l r v Hr Hv; simpl in Hr.
  - contradiction.
  - rewrite <- (firstn_skipn w l). apply in_or_app.
    destruct Hr as [<- | Hr]; [now left | right]. now apply (IH _ r).
Qed.

Lemma firstn_app_exact :
  forall (w : nat) (a b : list A), length a = w -> firstn w (a ++ b) = a.
Proof.
  intros w a b <-. rewrite firstn_app, Nat.sub_diag, firstn_all. simpl.
  apply app_nil_r.
Qed.

Lemma skipn_app_exact :
  forall (w : nat) (a b : list A), length a = w -> skipn w (a ++ b) = b.
Proof.
  intros w a b <-. rewrite skipn_app, Nat.sub_diag, skipn_all. reflexivity.
Qed.

Lemma chunk_flat_map :
  forall (B : Type) (f : B -> list A) (w : nat) (l : list B),
    (forall b, In b l -> length (f b) = w) ->
    chunk w (length l) (flat_map f l) = map f l.
Proof.
  intros B f w l. induction l as [| b l IH]; intro H; [reflexivity |].
  cbn [length flat_map chunk map].
  assert (Hb : length (f b) = w) by (apply H; now left).
  rewrite (firstn_app_exact w _ _ Hb), (skipn_app_exact w _ _ Hb).
  f_equal. apply IH. intros b' Hb'. apply H. now right.
Qed.

Lemma chunk_concat :
  forall (w : nat) (m : list (list A)),
    Forall (fun r => length r = w) m -> chunk w (length m) (concat m) = m.
Proof.
  intros w m H.
  replace (concat m) with (flat_map (fun r : list A => r) m)
    by (now rewrite flat_map_concat_map, map_id).
  rewrite chunk_flat_map.
  - apply map_id.
  - now apply Forall_forall.
Qed.

End ChunkProperties.

Section RoundedTerms.

Import Loss.
Context {libm : Libm} {fp : Float}.
Hypothesis laws : ieee fp.
Local Open Scope Qc_scope.

Lemma fl_sq_zero : fl (sq 0) = 0.
Proof.
  replace (sq 0) with 0 by (unfold sq; ring). apply (fl_zero laws).
Qed.

Lemma zeros_repeat : forall n : nat, Forall (fun v : Qc => v = 0) (repeat 0 n).
Proof. intro n. apply Forall_forall. intros v Hv. now apply repeat_spec in Hv. Qed.

(** A list that is zero but at position [d]. *)
Lemma indicator_split :
  forall (D d : nat) (x : Qc),
    (d < D)%nat ->
    map (fun i => if Nat.eqb i d then x else 0) (seq 0 D)
    = (repeat 0 d ++ x :: repeat 0 (D - S d))%list.
Proof.
  intros D d x Hd.
  replace D with (d + S (D - S d))%nat at 1 by lia.
  rewrite seq_app, map_app. cbn [seq map Nat.add]. rewrite Nat.eqb_refl.
  f_equal; [| f_equal].
  - rewrite (map_ext_in _ (fun _ => 0)).
    + rewrite map_const, length_seq. reflexivity.
    + intros i Hi. apply in_seq in Hi.
      replace (Nat.eqb i d) with false by (symmetry; apply Nat.eqb_neq; lia).
      reflexivity.
  - rewrite (map_ext_in _ (fun _ => 0)).
    + rewrite map_const, length_seq. reflexivity.
    + intros i Hi. apply in_seq in Hi.
      replace (Nat.eqb i d) with false by (symmetry; apply Nat.eqb_neq; lia).
      reflexivity.
Qed.

(** The sums over the columns of a diagonal matrix are the rounded
    squares of its diagonal. *)
Lemma column_square_sums_diagonal :
  forall (D : nat) (g : nat -> Qc),
    column_square_sums D (diagonal D g) = map (fun d => fl (sq (g d))) (seq 0 D).
Proof.
  intros D g. unfold column_square_sums. apply map_ext_in. intros d Hd.
  apply in_seq in Hd. unfold diagonal. rewrite map_map.
  rewrite (map_ext_in _ (fun i => if Nat.eqb i d then fl (sq (g d)) else 0)).
  - rewrite indicator_split by lia.
    apply (sum_of_one_float laws); try apply zeros_repeat.
    apply (fl_float laws).
  - intros i Hi. rewrite nth_scaled_unit by lia.
    destruct (Nat.eqb i d) eqn:E; [| apply fl_sq_zero].
    apply Nat.eqb_eq in E. now subst i.
Qed.

(** The logarithmic term of a Gaussian against itself vanishes: the
    two sums are the same sum. *)
Lemma term1_same : forall s : list Qc, term1 (diag_embed s) s = 0.
Proof.
  intro s. unfold term1, diag_embed.
  rewrite batch_diag_diagonal, map_nth_seq.
  replace (fl_sum (map ln s) - fl_sum (map ln s)) with 0 by ring.
  apply (fl_zero laws).
Qed.

Lemma zip_with_minus_same :
  forall l : list Qc,
    Forall (fun v => v = 0) (zip_with (fun a b => fl (a - b)) l l).
Proof.
  induction l as [| v l IH]; cbn [zip_with]; constructor; [| exact IH].
  replace (v - v) with 0 by ring. apply (fl_zero laws).
Qed.

(** The quadratic term of a Gaussian against one with the same mean
    vanishes. *)
Lemma term3_same :
  forall (L : matrix) (loc : list Qc), term3 L loc loc = 0.
Proof.
  intros L loc. unfold term3, matmul_transposed. rewrite map_map.
  apply (sum_of_zeros laws). apply Forall_map, Forall_forall. intros row _.
  rewrite (dot_of_zeros laws) by apply zip_with_minus_same.
  apply fl_sq_zero.
Qed.

Lemma map_by_index :
  forall (h : Qc -> Qc) (s : list Qc),
    map h s = map (fun i => h (nth i s 0)) (seq 0 (length s)).
Proof.
  intros h s. rewrite <- (map_map (fun i => nth i s 0) h), map_nth_seq.
  reflexivity.
Qed.

(** The trace term of a Gaussian against itself. *)
Lemma term2_self :
  forall s : list Qc,
    term2 (length s) (reciprocal_diagonal s) s = self_trace s.
Proof.
  intro s. unfold term2, reciprocal_diagonal, self_trace.
  rewrite column_square_sums_diagonal.
  rewrite (map_by_index (fun v => fl (sq v)) s).
  rewrite (map_by_index (fun v => fl (fl (sq (fl (/ v))) * fl (sq v))) s).
  now rewrite zip_with_maps.
Qed.

(** The divergence of a diagonal Gaussian from itself, written with its
    covariance factor in full and the inverse of that factor as the
    library returns it: the logarithmic and the quadratic term cancel,
    and what is left is the rounding of the trace term. *)
Lemma kl_entry_same :
  forall loc s : list Qc,
    kl_entry (length s) loc s loc (diag_embed s) (reciprocal_diagonal s)
    = self_divergence s.
Proof.
  intros loc s. unfold kl_entry, self_divergence.
  rewrite term1_same, term2_self, term3_same.
  replace (self_trace s + 0) with (self_trace s) by ring.
  match goal with
  | |- fl (0 + ?y) = _ => replace (0 + y) with y by ring
  end.
  apply (fl_float laws).
Qed.

End RoundedTerms.

Section ExactArithmetic.

Import Loss.
Local Open Scope Qc_scope.

Lemma in_range_nonzero : forall v : Qc, in_range v -> v <> 0.
Proof.
  intros v [H _] E. subst v. vm_compute in H. now apply H.
Qed.

(** The arithmetic that does not round keeps the laws. *)
Lemma exact_ieee : ieee Exact.arithmetic.
Proof.
  constructor; cbn [fl fl_sum fl_dot fl_inverse Exact.arithmetic].
  - reflexivity.
  - reflexivity.
  - apply sum_zero.
  - intros l l' v Hl Hl' _. rewrite sum_app. cbn [Num.sum fold_right].
    fold (Num.sum l'). rewrite (sum_zero l Hl), (sum_zero l' Hl'). ring.
  - intros v row Hv. unfold Exact.dot. apply sum_zero. revert row.
    induction Hv as [| a v Ha _ IH]; intros [| b row]; cbn [zip_with];
      constructor; [subst a; ring | apply IH].
  - intros D f Hf. apply inverse_diagonal. intros i Hi.
    now apply in_range_nonzero, Hf.
Qed.

(** Without rounding nothing is left of the divergence of a Gaussian
    from itself. *)
Lemma self_divergence_exact :
  forall s : list Qc,
    Forall (fun v => v <> 0) s ->
    self_divergence (fp := Exact.arithmetic) s = 0.
Proof.
  intros s Hs. unfold self_divergence, self_trace.
  cbn [fl fl_sum Exact.arithmetic].
  rewrite sum_ones.
  - unfold half. field. discriminate.
  - intros v Hv. rewrite Forall_forall in Hs. unfold sq. field. now apply Hs.
Qed.

End ExactArithmetic.

(** ** Rounding to p binary digits *)

Section BinaryRounding.

Import Binary.
Local Open Scope Z_scope.

Lemma up_positive : forall e : Z, 0 < up e.
Proof. intro e. unfold up. apply Z.pow_pos_nonneg; lia. Qed.

(** [2 ^ e2 / 2 ^ e1 = 2 ^ (e2 - e1)], without fractions. *)
Lemma up_shift :
  forall e1 e2 : Z,
    e1 <= e2 -> up e2 * up (- e1) = 2 ^ (e2 - e1) * (up e1 * up (- e2)).
Proof.
  intros e1 e2 H. unfold up. rewrite <- !Z.pow_add_r by lia. f_equal. lia.
Qed.

Lemma at_least_shift :
  forall n d e j c : Z,
    0 <= j -> (at_least n d (e + j) c <-> at_least n d e (c * 2 ^ j)).
Proof.
  intros n d e j c Hj. unfold at_least.
  pose proof (up_positive (- e)) as H1.
  pose proof (up_positive (- (e + j))) as H2.
  pose proof (up_shift e (e + j) ltac:(lia)) as E.
  replace (e + j - e) with j in E by lia.
  split; intro H.
  - apply (Z.mul_le_mono_pos_r _ _ (up (- (e + j)))); [assumption |].
    apply (Z.mul_le_mono_nonneg_r _ _ (up (- e))) in H; [| lia].
    replace (c * 2 ^ j * (d * up e) * up (- (e + j)))
      with (c * d * (2 ^ j * (up e * up (- (e + j))))) by ring.
    rewrite <- E. 
    replace (c * d * (up (e + j) * up (- e)))
      with (c * (d * up (e + j)) * up (- e)) by ring.
    replace (n * up (- e) * up (- (e + j)))
      with (n * up (- (e + j)) * up (- e)) by ring.
    exact H.
  - apply (Z.mul_le_mono_pos_r _ _ (up (- e))); [assumption |].
    apply (Z.mul_le_mono_nonneg_r _ _ (up (- (e + j)))) in H; [| lia].
    replace (c * (d * up (e + j)) * up (- e))
      with (c * d * (up (e + j) * up (- e))) by ring.
    rewrite E.
    replace (c * d * (2 ^ j * (up e * up (- (e + j)))))
      with (c * 2 ^ j * (d * up e) * up (- (e + j))) by ring.
    replace (n * up (- (e + j)) * up (- e))
      with (n * up (- e) * up (- (e + j))) by ring.
    exact H.
Qed.

Lemma below_iff : forall n d e c : Z, below n d e c <-> ~ at_least n d e c.
Proof. intros. unfold below, at_least. lia. Qed.

Lemma below_shift :
  forall n d e j c : Z,
    0 <= j -> (below n d (e + j) c <-> below n d e (c * 2 ^ j)).
Proof.
  intros n d e j c Hj. rewrite !below_iff, (at_least_shift n d e j c Hj).
  reflexivity.
Qed.

Lemma exponent_bracket :
  forall p n d : Z,
    1 <= p -> 0 < n -> 0 < d -> bracket p n d (exponent p n d).
Proof.
  intros p n d Hp Hn Hd. unfold exponent.
  set (l := Z.log2 n - Z.log2 d).
  destruct (Z.log2_spec n Hn) as [Hn1 Hn2].
  destruct (Z.log2_spec d Hd) as [Hd1 Hd2].
  pose proof (Z.log2_nonneg n) as Ln. pose proof (Z.log2_nonneg d) as Ld.
  assert (level : forall L, L = (if reaches n d l then l else l - 1) ->
                  at_least n d L 1 /\ below n d L 2).
  { intros L ->. unfold reaches. destruct (Z.leb_spec (d * up l) (n * up (- l))) as [R | R].
    - split; [unfold at_least; lia |]. unfold below.
      assert (E : up l * 2 ^ Z.log2 d = 2 ^ Z.log2 n * up (- l)).
      { unfold up. rewrite <- !Z.pow_add_r by lia. f_equal. lia. }
      pose proof (up_positive l). pose proof (up_positive (- l)).
      apply Z.lt_le_trans with (2 ^ Z.succ (Z.log2 n) * up (- l)).
      + apply Z.mul_lt_mono_pos_r; assumption.
      + rewrite Z.pow_succ_r by assumption.
        replace (2 * 2 ^ Z.log2 n * up (- l)) with (2 * (2 ^ Z.log2 n * up (- l))) by ring.
        rewrite <- E.
        replace (2 * (up l * 2 ^ Z.log2 d)) with (2 * (2 ^ Z.log2 d * up l)) by ring.
        apply Z.mul_le_mono_nonneg_l; [lia |].
        apply Z.mul_le_mono_nonneg_r; lia.
    - pose proof (up_shift (l - 1) l ltac:(lia)) as E.
      replace (l - (l - 1)) with 1 in E by lia. change (2 ^ 1) with 2 in E.
      pose proof (up_positive l). pose proof (up_positive (- l)).
      pose proof (up_positive (l - 1)). pose proof (up_positive (- (l - 1))).
      split.
      + unfold at_least.
        assert (E' : 2 ^ Z.succ (Z.log2 d) * up (l - 1) = 2 ^ Z.log2 n * up (- (l - 1))).
        { unfold up. rewrite <- !Z.pow_add_r by lia. f_equal. lia. }
        apply Z.le_trans with (2 ^ Z.log2 n * up (- (l - 1))).
        * rewrite <- E'. rewrite Z.mul_1_l.
          apply Z.mul_le_mono_nonneg_r; lia.
        * apply Z.mul_le_mono_nonneg_r; lia.
      + unfold below.
        apply (Z.mul_lt_mono_pos_r (up (- l))); [assumption |].
        apply (Z.mul_lt_mono_pos_r (up (- (l - 1)))) in R; [| assumption].
        replace (2 * (d * up (l - 1)) * up (- l))
          with (d * (2 * (up (l - 1) * up (- l)))) by ring.
        rewrite <- E.
        replace (d * (up l * up (- (l - 1)))) with (d * up l * up (- (l - 1))) by ring.
        replace (n * up (- (l - 1)) * up (- l)) with (n * up (- l) * up (- (l - 1))) by ring.
        exact R. }
  set (L := if reaches n d l then l else l - 1) in *.
  destruct (level L eq_refl) as [H1 H2]. unfold bracket.
  replace L with (L - (p - 1) + (p - 1)) in H1, H2 by lia.
  apply at_least_shift in H1; [| lia]. apply below_shift in H2; [| lia].
  rewrite Z.mul_1_l in H1. split; [exact H1 |].
  replace (2 ^ p) with (2 * 2 ^ (p - 1)); [exact H2 |].
  rewrite <- Z.pow_succ_r by lia. f_equal. lia.
Qed.

Lemma bracket_unique :
  forall p n d e e' : Z,
    1 <= p -> 0 < d -> bracket p n d e -> bracket p n d e' -> e = e'.
Proof.
  assert (one_way : forall p n d e e', 1 <= p -> 0 < d ->
            bracket p n d e -> bracket p n d e' -> ~ e < e').
  { intros p n d e e' Hp Hd [_ B] [A _] Hlt.
    replace e' with (e + (e' - e)) in A by lia.
    apply at_least_shift in A; [| lia]. unfold at_least in A. unfold below in B.
    pose proof (up_positive e).
    assert (P : 2 ^ (p - 1) * 2 ^ (e' - e) * (d * up e) < 2 ^ p * (d * up e)) by lia.
    apply Z.mul_lt_mono_pos_r in P; [| nia].
    rewrite <- Z.pow_add_r in P by lia.
    apply Z.pow_lt_mono_r_iff in P; lia. }
  intros p n d e e' Hp Hd B B'.
  pose proof (one_way p n d e e' Hp Hd B B').
  pose proof (one_way p n d e' e Hp Hd B' B). lia.
Qed.

Lemma nearest_even_exact :
  forall k m : Z, 0 < m -> nearest_even (k * m) m = k.
Proof.
  intros k m Hm. unfold nearest_even.
  rewrite Z.mod_mul, Z.div_mul by lia. cbn [Z.mul].
  destruct (Z.compare_spec 0 m); lia.
Qed.

Lemma nearest_even_bounds :
  forall lo hi num den : Z,
    0 < den -> lo * den <= num < hi * den ->
    lo <= nearest_even num den <= hi.
Proof.
  intros lo hi num den Hden [H1 H2]. unfold nearest_even.
  assert (lo <= num / den) by (apply Z.div_le_lower_bound; lia).
  assert (num / den < hi) by (apply Z.div_lt_upper_bound; lia).
  destruct (_ ?= _); [destruct (Z.even _) | |]; lia.
Qed.

Lemma round_representable :
  forall (p : Z) (q : Qc), 1 <= p -> representable p q -> round p q = q.
Proof.
  intros p q Hp [-> | (k & e & Hk & E)]; [reflexivity |].
  unfold round.
  pose proof (up_positive e) as Ue. pose proof (up_positive (- e)) as Ue'.
  assert (Hpow : 0 < 2 ^ (p - 1)) by (apply Z.pow_pos_nonneg; lia).
  destruct (Z.eqb_spec (Z.abs (Qnum q)) 0) as [Z0 | N0]; [reflexivity |].
  assert (B : bracket p (Z.abs (Qnum q)) (Z.pos (Qden q)) e).
  { unfold bracket, at_least, below. rewrite E. split.
    - apply Z.mul_le_mono_nonneg_r; lia.
    - apply Z.mul_lt_mono_pos_r; lia. }
  assert (Hn : 0 < Z.abs (Qnum q)) by lia.
  assert (Hd : 0 < Z.pos (Qden q)) by lia.
  rewrite (bracket_unique p _ _ _ e Hp Hd (exponent_bracket p _ _ Hp Hn Hd) B).
  rewrite E, nearest_even_exact by lia.
  apply Qc_is_canon. cbn [this Q2Qc]. rewrite Qred_correct.
  unfold Qeq. cbn [Qnum Qden]. rewrite Z2Pos.id by assumption.
  replace (Z.sgn (Qnum q) * k * up e * Z.pos (Qden q))
    with (Z.sgn (Qnum q) * (k * (Z.pos (Qden q) * up e))) by ring.
  rewrite <- E.
  replace (Z.sgn (Qnum q) * (Z.abs (Qnum q) * up (- e)))
    with (Z.abs (Qnum q) * Z.sgn (Qnum q) * up (- e)) by ring.
  now rewrite Z.abs_sgn.
Qed.

Lemma round_is_representable :
  forall (p : Z) (q : Qc), 1 <= p -> representable p (round p q).
Proof.
  intros p q Hp. unfold round.
  destruct (Z.eqb_spec (Z.abs (Qnum q)) 0) as [Z0 | N0].
  - left. apply Qc_is_canon. unfold Qeq. cbn. lia.
  - right.
    set (n := Z.abs (Qnum q)) in *. set (d := Z.pos (Qden q)).
    set (e := exponent p n d).
    pose proof (up_positive e) as Ue. pose proof (up_positive (- e)) as Ue'.
    pose proof (up_positive (e + 1)) as Ue1.
    pose proof (up_positive (- (e + 1))) as Ue1'.
    assert (Hpow : 0 < 2 ^ (p - 1)) by (apply Z.pow_pos_nonneg; lia).
    assert (Hpow2 : 2 ^ p = 2 * 2 ^ (p - 1)).
    { rewrite <- Z.pow_succ_r by lia. f_equal. lia. }
    destruct (exponent_bracket p n d Hp ltac:(lia) ltac:(lia)) as [B1 B2].
    fold e in B1, B2. unfold at_least in B1. unfold below in B2.
    set (k := nearest_even (n * up (- e)) (d * up e)).
    assert (Hk : 2 ^ (p - 1) <= k <= 2 ^ p).
    { apply nearest_even_bounds; [nia | lia]. }
    set (r := Q2Qc (Z.sgn (Qnum q) * k * up e # Z.to_pos (up (- e)))).
    assert (Hr : Z.abs (Qnum r) * up (- e) = k * up e * Z.pos (Qden r)).
    { pose proof (Qred_correct (Z.sgn (Qnum q) * k * up e # Z.to_pos (up (- e)))) as Q.
      unfold Qeq in Q. cbn [Qnum Qden] in Q. rewrite Z2Pos.id in Q by assumption.
      change (Qred _) with (this r) in Q.
      apply (f_equal Z.abs) in Q. rewrite !Z.abs_mul in Q.
      rewrite (Z.abs_eq (up (- e))) in Q by lia.
      rewrite (Z.abs_eq (up e)) in Q by lia.
      rewrite (Z.abs_eq k) in Q by lia.
      rewrite (Z.abs_eq (Z.pos _)) in Q by lia.
      assert (S1 : Z.abs (Z.sgn (Qnum q)) = 1) by (subst n; lia).
      rewrite S1, Z.mul_1_l in Q. exact Q. }
    destruct (Z.eq_dec k (2 ^ p)) as [Top | Low].
    + exists (2 ^ (p - 1)), (e + 1). split; [lia |].
      pose proof (up_shift e (e + 1) ltac:(lia)) as S.
      replace (e + 1 - e) with 1 in S by lia. change (2 ^ 1) with 2 in S.
      apply (Z.mul_cancel_r _ _ (up (- e))); [lia |].
      replace (Z.abs (Qnum r) * up (- (e + 1)) * up (- e))
        with (Z.abs (Qnum r) * up (- e) * up (- (e + 1))) by ring.
      rewrite Hr, Top, Hpow2.
      replace (2 ^ (p - 1) * (Z.pos (Qden r) * up (e + 1)) * up (- e))
        with (2 ^ (p - 1) * Z.pos (Qden r) * (up (e + 1) * up (- e))) by ring.
      rewrite S. ring.
    + exists k, e. split; [lia |]. rewrite Hr. ring.
Qed.

Lemma round_round :
  forall (p : Z) (q : Qc), 1 <= p -> round p (round p q) = round p q.
Proof.
  intros p q Hp. apply round_representable, round_is_representable; assumption.
Qed.

(** A number with p binary digits is left as it is, and rounding returns
    such a number. *)
Lemma round_zero : forall p : Z, round p 0%Qc = 0%Qc.
Proof. reflexivity. Qed.

Lemma sum_from_float :
  forall (p : Z) (l : list Qc) (v : Qc),
    round p v = v -> Forall (fun z => z = 0%Qc) l ->
    fold_left (fun acc w => round p (acc + w)%Qc) l v = v.
Proof.
  intros p l v Hv H. induction H as [| w l Hw _ IH]; [reflexivity |].
  cbn [fold_left]. subst w. rewrite Qcplus_0_r, Hv. exact IH.
Qed.

Lemma dot_from_zero :
  forall (p : Z) (v row : list Qc),
    Forall (fun z => z = 0%Qc) v -> Binary.dot p v row = 0%Qc.
Proof.
  intros p v row H. unfold Binary.dot. revert row.
  induction H as [| a v Ha _ IH]; intros [| b row]; try reflexivity.
  cbn [combine fold_left fst snd]. subst a.
  rewrite Qcmult_0_l, round_zero. apply IH.
Qed.

Lemma round_diagonal :
  forall (p : Z) (D : nat) (f : nat -> Qc),
    map (map (round p)) (diagonal D f) = diagonal D (fun i => round p (f i)).
Proof.
  intros p D f. unfold diagonal, scaled_unit. rewrite map_map.
  apply map_ext. intro i. rewrite map_map. apply map_ext. intro j.
  destruct (Nat.eqb i j); reflexivity.
Qed.

End BinaryRounding.

Section BinaryArithmetic.

Import Loss.
Local Open Scope Qc_scope.

(** Rounding to p >= 1 binary digits, with sums from left to right,
    keeps the laws: so do double and single precision. *)
Lemma binary_ieee : forall p : Z, (1 <= p)%Z -> ieee (Binary.arithmetic p).
Proof.
  intros p Hp.
  constructor; cbn [fl fl_sum fl_dot fl_inverse Binary.arithmetic].
  - reflexivity.
  - intro v. now apply round_round.
  - intros l Hl. unfold Binary.sum. now apply sum_from_float.
  - intros l l' v Hl Hl' Hv. unfold Binary.sum. rewrite fold_left_app.
    rewrite (sum_from_float p l 0 (round_zero p) Hl). cbn [fold_left].
    rewrite Qcplus_0_l, Hv. now apply sum_from_float.
  - intros v row Hv. now apply dot_from_zero.
  - intros D f Hf. unfold Binary.inverse.
    rewrite inverse_diagonal.
    + now rewrite round_diagonal.
    + intros i Hi. now apply in_range_nonzero, Hf.
Qed.

End BinaryArithmetic.

Section KLProperties.

Import Loss.
Context {libm : Libm} {fp : Float}.
Hypothesis laws : ieee fp.
Local Open Scope Qc_scope.

Lemma numel_app :
  forall s s' : list nat, numel (s ++ s') = (numel s * numel s')%nat.
Proof.
  intros s s'. unfold numel. induction s as [| n s IH]; simpl; [lia |].
  rewrite IH. lia.
Qed.

Lemma view_rows_exact :
  forall (w k : nat) (t : Tensor Qc),
    (0 < w)%nat -> length (data t) = (k * w)%nat ->
    view_rows w t = Return (chunk w k (data t)).
Proof.
  intros w k t Hw Hl. unfold view_rows.
  replace (Nat.eqb w 0) with false by (symmetry; apply Nat.eqb_neq; lia).
  rewrite Hl, Nat.Div0.mod_mul, Nat.div_mul by lia. reflexivity.
Qed.

Lemma inverses_diag_embed :
  forall rows : list (list Qc),
    (forall s, In s rows -> Forall in_range s) ->
    inverses (map diag_embed rows) = Return (map reciprocal_diagonal rows).
Proof.
  induction rows as [| s rows IH]; intro H; [reflexivity |].
  cbn [map inverses]. unfold diag_embed at 1.
  rewrite (inverse_of_diagonal laws).
  - cbn [Py.bind]. rewrite IH by (intros s' Hs'; apply H; now right).
    reflexivity.
  - intros i Hi. assert (Hs : Forall in_range s) by (apply H; now left).
    rewrite Forall_forall in Hs. apply Hs, nth_In, Hi.
Qed.

Lemma batch_inverse_diag_embed :
  forall rows : list (list Qc),
    (forall s, In s rows -> Forall in_range s) ->
    (0 < length rows)%nat ->
    _batch_inverse (map diag_embed rows) = Return (map reciprocal_diagonal rows).
Proof.
  intros rows H Hl. unfold _batch_inverse. rewrite (inverses_diag_embed rows H).
  cbn [Py.bind]. destruct rows; [simpl in Hl; lia | reflexivity].
Qed.

Lemma length_concat_diag_embed :
  forall s : list Qc, length (concat (diag_embed s)) = (length s * length s)%nat.
Proof.
  intro s. unfold diag_embed.
  rewrite (length_concat_rows (length s)) by apply rows_of_diagonal.
  now rewrite length_diagonal.
Qed.

Lemma chunk_concat_diag_embed :
  forall s : list Qc,
    chunk (length s) (length s) (concat (diag_embed s)) = diag_embed s.
Proof.
  intro s. unfold diag_embed.
  rewrite <- (length_diagonal (length s) (fun i => nth i s 0)) at 2.
  apply chunk_concat, rows_of_diagonal.
Qed.

Lemma nth_map_in :
  forall (A B : Type) (g : A -> B) (l : list A) (i : nat) (da : A) (db : B),
    (i < length l)%nat -> nth i (map g l) db = g (nth i l da).
Proof.
  intros A B g l i da db Hi.
  rewrite (nth_indep _ db (g da)) by now rewrite length_map.
  apply map_nth.
Qed.

(** C8, as the code has it. The arithmetic is any that keeps the laws of
    IEEE 754. A batch with at least one batch axis and one distribution
    of diagonal Gaussians of dimension D >= 1, with scales between 2^-60
    and 2^60, and the same batch written as full-covariance Gaussians:
    [kl_normal_multivariatenormals] returns a tensor of size
    batch_shape ++ batch_shape, and an entry that pairs a distribution
    with itself is what the rounding leaves of the trace term of its
    scales: the logarithmic and the quadratic term cancel exactly, and
    the entry is half the rounded difference between the computed trace
    term and D. Without rounding that is 0. *)
Theorem kl_of_a_batch_with_itself :
  forall (q : Normal.t) (batch_shape : list nat) (D : nat),
    size (Normal.loc q) = (batch_shape ++ [D])%list ->
    size (Normal.scale q) = (batch_shape ++ [D])%list ->
    well_formed (Normal.loc q) ->
    well_formed (Normal.scale q) ->
    Forall in_range (data (Normal.scale q)) ->
    batch_shape <> [] ->
    (0 < numel batch_shape)%nat ->
    (0 < D)%nat ->
    exists kl : Tensor Qc,
      kl_normal_multivariatenormals q (as_multivariate batch_shape D q) = Return kl
      /\ size kl = (batch_shape ++ batch_shape)%list
      /\ well_formed kl
      /\ (forall b, (b < numel batch_shape)%nat ->
            nth (b * numel batch_shape + b) (data kl) 1
            = self_divergence (row D (numel batch_shape) (Normal.scale q) b))
      /\ (forall b, (b < numel batch_shape)%nat ->
            self_divergence (fp := Exact.arithmetic)
              (row D (numel batch_shape) (Normal.scale q) b) = 0).
Proof.
  intros q batch_shape D Hloc Hscale Wloc Wscale Hrange Haxis HB HD.
  set (B := numel batch_shape) in *.
  assert (Lloc : length (data (Normal.loc q)) = (B * D)%nat).
  { unfold well_formed in Wloc. rewrite Wloc, Hloc, numel_app. simpl. lia. }
  assert (Lscale : length (data (Normal.scale q)) = (B * D)%nat).
  { unfold well_formed in Wscale. rewrite Wscale, Hscale, numel_app. simpl. lia. }
  set (locs := chunk D B (data (Normal.loc q))).
  set (scales := chunk D B (data (Normal.scale q))).
  assert (Hlen : forall s, In s scales -> length s = D).
  { intros s Hs. now apply (length_in_chunk D B (data (Normal.scale q))). }
  assert (Hin_range : forall s, In s scales -> Forall in_range s).
  { intros s Hs. apply Forall_forall. intros v Hv.
    rewrite Forall_forall in Hrange. apply Hrange.
    now apply (in_chunk_in D B _ s). }
  assert (Ltril : length (flat_map (fun s => concat (diag_embed s)) scales)
                  = (B * (D * D))%nat).
  { rewrite (length_flat_map_constant _ _ (D * D)%nat).
    - unfold scales. now rewrite length_chunk.
    - intros s Hs. now rewrite length_concat_diag_embed, (Hlen s Hs). }
  assert (Htril : map (chunk D D)
                    (chunk (D * D) B (flat_map (fun s => concat (diag_embed s)) scales))
                  = map diag_embed scales).
  { replace B with (length scales) at 1 by (unfold scales; apply length_chunk).
    rewrite chunk_flat_map.
    - rewrite map_map. apply map_ext_in. intros s Hs.
      rewrite <- (Hlen s Hs). apply chunk_concat_diag_embed.
    - intros s Hs. now rewrite length_concat_diag_embed, (Hlen s Hs). }
  set (component := combine locs (combine (map diag_embed scales)
                                         (map reciprocal_diagonal scales))).
  set (entries :=
         flat_map (fun qb =>
           map (fun pk =>
             kl_entry D (fst qb) (snd qb) (fst pk) (fst (snd pk)) (snd (snd pk)))
             component)
           (combine locs scales)).
  assert (Lcomponent : length component = B).
  { unfold component, locs, scales.
    rewrite !length_combine, !length_map, !length_chunk. lia. }
  assert (Lentries : length entries = (B * B)%nat).
  { unfold entries. rewrite (length_flat_map_constant _ _ B).
    - unfold locs, scales. rewrite length_combine, !length_chunk. lia.
    - intros qb _. now rewrite length_map. }
  assert (Ls : length scales = B) by (unfold scales; apply length_chunk).
  assert (Ll : length locs = B) by (unfold locs; apply length_chunk).
  assert (Hrow : forall b, (b < B)%nat -> In (nth b scales []) scales).
  { intros b Hb. apply nth_In. now rewrite Ls. }
  exists (mkTensor (batch_shape ++ batch_shape) entries).
  split; [| split; [reflexivity | split; [| split]]].
  - unfold kl_normal_multivariatenormals, as_multivariate.
    cbn [MultivariateNormal.loc MultivariateNormal.scale_tril size data].
    unfold last_dim. rewrite Hloc, rev_unit, removelast_last. cbn [Py.bind].
    rewrite Nat.eqb_refl. cbn [Py.assert Py.bind].
    rewrite (view_rows_exact D B (Normal.loc q) HD Lloc). cbn [Py.bind].
    rewrite (view_rows_exact D B (Normal.scale q) HD Lscale). cbn [Py.bind].
    fold B. fold scales.
    rewrite (view_rows_exact (D * D) B) by (cbn [data]; nia || assumption).
    cbn [Py.bind data]. fold locs. rewrite Htril.
    rewrite (batch_inverse_diag_embed scales Hin_range)
      by (unfold scales; rewrite length_chunk; lia).
    cbn [Py.bind]. fold component.
    rewrite length_map, Ls, Ll, !Nat.eqb_refl. cbn [andb negb].
    fold entries.
    destruct (batch_shape ++ batch_shape)%list as [| n shape] eqn:Eshape.
    + apply app_eq_nil in Eshape. now elim Haxis.
    + change ((if Nat.eqb (numel (n :: shape)) (length entries)
               then Return (mkTensor (n :: shape) entries)
               else Raise RuntimeError)
              = Return (mkTensor (n :: shape) entries)).
      rewrite <- Eshape, Lentries, numel_app. fold B. now rewrite Nat.eqb_refl.
  - unfold well_formed. cbn [size data]. rewrite Lentries, numel_app. reflexivity.
  - intros b Hb. cbn [data]. unfold entries.
    rewrite flat_map_concat_map.
    rewrite (nth_concat_rows B).
    + assert (Lqb : length (combine locs scales) = B).
      { unfold locs, scales. rewrite length_combine, !length_chunk. lia. }
      rewrite (nth_map_in _ _ _ _ b ([], []) []) by lia.
      rewrite (nth_map_in (list Qc * (matrix * matrix)) Qc _ component b
                 ([], ([], [])) 1) by lia.
      unfold component.
      rewrite !combine_nth
        by (unfold locs, scales;
            rewrite ?length_combine, ?length_map, ?length_chunk; lia).
      cbn [fst snd]. unfold matrix.
      rewrite (nth_map_in (list Qc) (list (list Qc)) diag_embed scales b [] [])
        by (rewrite Ls; exact Hb).
      rewrite (nth_map_in (list Qc) (list (list Qc)) reciprocal_diagonal
                 scales b [] [])
        by (rewrite Ls; exact Hb).
      unfold row. fold scales. rewrite <- (Hlen _ (Hrow b Hb)).
      apply (kl_entry_same laws).
    + apply Forall_map, Forall_forall. intros qb _. now rewrite length_map.
    + exact Hb.
  - intros b Hb. unfold row. fold scales. apply self_divergence_exact.
    eapply Forall_impl; [| exact (Hin_range _ (Hrow b Hb))].
    intros v Hv. now apply in_range_nonzero.
Qed.

End KLProperties.

Section KLConcrete.

Import Loss.
Local Open Scope Qc_scope.

Lemma kl_of_a_batch_with_itself_witness :
  exists kl : Tensor Qc,
    kl_normal_multivariatenormals (libm := first_order) (fp := binary64)
      two_gaussians (as_multivariate [2] 2 two_gaussians) = Return kl
    /\ size kl = [2; 2]%nat
    /\ well_formed kl
    /\ (forall b, (b < 2)%nat ->
          nth (b * 2 + b) (data kl) 1
          = self_divergence (fp := binary64)
              (row 2 2 (Normal.scale two_gaussians) b))
    /\ (forall b, (b < 2)%nat ->
          self_divergence (fp := Exact.arithmetic)
            (row 2 2 (Normal.scale two_gaussians) b) = 0).
Proof.
  apply (kl_of_a_batch_with_itself (libm := first_order)
           (binary_ieee 53 ltac:(lia)) two_gaussians [2%nat] 2).
  - reflexivity.
  - reflexivity.
  - reflexivity.
  - reflexivity.
  - repeat constructor; intro H; vm_compute in H; discriminate H.
  - discriminate.
  - simpl. lia.
  - lia.
Defined.

(** The trace term of the scale 5 in double and in single precision. *)
Lemma kl_entry_of_scale_5 :
  forall libm : Libm,
    kl_entry (fp := binary64) 1 [0] [z 5] [0] [[z 5]]
      [[fl (Float := binary64) (/ z 5)]]
    = Q2Qc (1 # 2 ^ 53)
    /\ kl_entry (fp := binary32) 1 [0] [z 5] [0] [[z 5]]
         [[fl (Float := binary32) (/ z 5)]]
       = Q2Qc (1 # 2 ^ 24).
Proof.
  intro libm. unfold kl_entry, term1.
  change (_batch_diag [[z 5]]) with [z 5].
  split.
  - replace (fl_sum (Float := binary64) (map ln [z 5])
             - fl_sum (Float := binary64) (map ln [z 5])) with 0 by ring.
    qc_compute.
  - replace (fl_sum (Float := binary32) (map ln [z 5])
             - fl_sum (Float := binary32) (map ln [z 5])) with 0 by ring.
    qc_compute.
Qed.

(** C8 as stated fails in floating point: for the Gaussian with mean 0
    and scale 5 on the line the reciprocal 1/5 is rounded, the trace
    term comes out as 1 + 2^-52 in double precision and 1 + 2^-23 in
    single precision, and the entry is 2^-53, respectively 2^-24, not 0,
    whatever the logarithm. It fails as well where nothing is returned:
    on an empty batch there is no factor to invert and [torch.stack] is
    handed an empty list; in dimension 0 [view(-1, 0)] cannot tell the
    number of rows; without a batch axis [view] is called without a
    size. *)
Lemma kl_of_a_gaussian_with_itself_is_not_zero :
  (forall libm : Libm,
     kl_normal_multivariatenormals (fp := binary64) (one_gaussian (z 5))
       (as_multivariate [1%nat] 1 (one_gaussian (z 5)))
     = Return (mkTensor [1; 1]%nat [Q2Qc (1 # 2 ^ 53)]))
  /\ (forall libm : Libm,
        kl_normal_multivariatenormals (fp := binary32) (one_gaussian (z 5))
          (as_multivariate [1%nat] 1 (one_gaussian (z 5)))
        = Return (mkTensor [1; 1]%nat [Q2Qc (1 # 2 ^ 24)]))
  /\ Q2Qc (1 # 2 ^ 53) <> 0
  /\ Q2Qc (1 # 2 ^ 24) <> 0
  /\ in_range (z 5)
  /\ (forall (libm : Libm) (fp : Float),
        kl_normal_multivariatenormals no_gaussian
          (as_multivariate [0%nat] 1 no_gaussian)
        = Raise RuntimeError)
  /\ (forall (libm : Libm) (fp : Float),
        kl_normal_multivariatenormals gaussian_on_a_point
          (as_multivariate [1%nat] 0 gaussian_on_a_point)
        = Raise RuntimeError)
  /\ (forall libm : Libm,
        kl_normal_multivariatenormals (fp := binary64) (bare_gaussian (z 5))
          (as_multivariate [] 1 (bare_gaussian (z 5)))
        = Raise TypeError).
Proof.
  split; [| split].
  - intro libm.
    transitivity (Return (mkTensor [1; 1]%nat
      [kl_entry (fp := binary64) 1 [0] [z 5] [0] [[z 5]]
         [[fl (Float := binary64) (/ z 5)]]])).
    + reflexivity.
    + now rewrite (proj1 (kl_entry_of_scale_5 libm)).
  - intro libm.
    transitivity (Return (mkTensor [1; 1]%nat
      [kl_entry (fp := binary32) 1 [0] [z 5] [0] [[z 5]]
         [[fl (Float := binary32) (/ z 5)]]])).
    + reflexivity.
    + now rewrite (proj2 (kl_entry_of_scale_5 libm)).
  - repeat split; try reflexivity.
    + intro H. qc_differ H.
    + intro H. qc_differ H.
    + intro H. vm_compute in H. discriminate H.
    + intro H. vm_compute in H. discriminate H.
Qed.

End KLConcrete.

(** * Further properties

    What the code shows beyond the claims above. *)

(** ** Dicts *)

Lemma get_set_same :
  forall (V : Type) (d : dict V) (key : string) (v : V),
    Py.get (Py.set d key v) key = Some v.
Proof.
  intros V d key v. induction d as [| [k w] d IH]; simpl.
  - now rewrite String.eqb_refl.
  - destruct (String.eqb k key) eqn:E; simpl; rewrite E; [reflexivity | exact IH].
Qed.

Lemma get_set_other :
  forall (V : Type) (d : dict V) (key key' : string) (v : V),
    key <> key' -> Py.get (Py.set d key v) key' = Py.get d key'.
Proof.
  intros V d key key' v Hne. induction d as [| [k w] d IH]; simpl.
  - apply String.eqb_neq in Hne. now rewrite Hne.
  - destruct (String.eqb k key) eqn:E; simpl.
    + apply String.eqb_eq in E. subst k.
      apply String.eqb_neq in Hne. now rewrite Hne.
    + destruct (String.eqb k key'); [reflexivity | exact IH].
Qed.

Lemma get_none_not_in :
  forall (V : Type) (d : dict V) (key : string),
    Py.get d key = None <-> ~ In key (dict_keys d).
Proof.
  intros V d key. induction d as [| [k w] d IH]; simpl.
  - split; [intros _ [] | reflexivity].
  - destruct (String.eqb k key) eqn:E.
    + apply String.eqb_eq in E. split; [discriminate | intro H; elim H; now left].
    + apply String.eqb_neq in E. rewrite IH. split.
      * intros H [H' | H']; [now elim E | now elim H].
      * intros H H'. apply H. now right.
Qed.

Lemma get_in_proper :
  forall (V : Type) (d : dict V) (key : string) (v : V),
    proper d -> In (key, v) d -> Py.get d key = Some v.
Proof.
  intros V d key v. induction d as [| [k w] d IH]; intros Hp Hin.
  - contradiction.
  - unfold proper, dict_keys in Hp. simpl in Hp. inversion Hp as [| ? ? Hk Hd]; subst.
    simpl. destruct Hin as [E | Hin].
    + injection E as -> ->. now rewrite String.eqb_refl.
    + destruct (String.eqb k key) eqn:E.
      * apply String.eqb_eq in E. subst k. elim Hk.
        apply in_map_iff. now exists (key, v).
      * now apply IH.
Qed.

(** Updating a dict item by item, each key once: every key of the items
    holds what its item made of the old value, the others what they
    held. *)
Lemma fold_set_get :
  forall (V W : Type) (F : option V -> W -> V) (items : dict W) (d : dict V)
         (key : string),
    proper items ->
    Py.get (fold_left (fun d kv => Py.set d (fst kv) (F (Py.get d (fst kv)) (snd kv)))
                      items d) key
    = match Py.get items key with
      | Some w => Some (F (Py.get d key) w)
      | None => Py.get d key
      end.
Proof.
  intros V W F items. induction items as [| [k w] items IH]; intros d key Hp.
  - reflexivity.
  - unfold proper, dict_keys in Hp. simpl in Hp. inversion Hp as [| ? ? Hk Hd]; subst.
    cbn [fold_left fst snd]. rewrite IH by exact Hd. simpl.
    destruct (String.eqb k key) eqn:E.
    + apply String.eqb_eq in E. subst k.
      assert (Hn : Py.get items key = None).
      { apply get_none_not_in. exact Hk. }
      rewrite Hn. apply get_set_same.
    + apply String.eqb_neq in E.
      destruct (Py.get items key); now rewrite get_set_other.
Qed.


(** ** SummaryHook.update_summary *)

Section UpdateProperties.

Import SummaryHook.

(** Each loop of [update_summary] touches its own part of the summary. *)
Lemma fold_losses :
  forall (items : dict Qc) (s : Summary.t),
    fold_left (fun s kv =>
      Summary.make (append (Summary.losses s) (fst kv) (snd kv))
        (Summary.scalars s) (Summary.histograms s) (Summary.audios s)
        (Summary.images s)) items s
    = Summary.make
        (fold_left (fun d kv => append d (fst kv) (snd kv)) items (Summary.losses s))
        (Summary.scalars s) (Summary.histograms s) (Summary.audios s)
        (Summary.images s).
Proof.
  induction items as [| kv items IH]; intro s.
  - now destruct s.
  - cbn [fold_left]. now rewrite IH.
Qed.

Lemma fold_scalars :
  forall (items : dict Qc) (s : Summary.t),
    fold_left (fun s kv =>
      Summary.make (Summary.losses s)
        (append (Summary.scalars s) (fst kv) (snd kv))
        (Summary.histograms s) (Summary.audios s) (Summary.images s)) items s
    = Summary.make (Summary.losses s)
        (fold_left (fun d kv => append d (fst kv) (snd kv)) items (Summary.scalars s))
        (Summary.histograms s) (Summary.audios s) (Summary.images s).
Proof.
  induction items as [| kv items IH]; intro s.
  - now destruct s.
  - cbn [fold_left]. now rewrite IH.
Qed.

Lemma fold_histograms :
  forall (items : dict (Tensor Qc)) (s : Summary.t),
    fold_left (fun s kv =>
      Summary.make (Summary.losses s) (Summary.scalars s)
        (Py.set (Summary.histograms s) (fst kv)
           (last_values (100 * 100)
              ((match Py.get (Summary.histograms s) (fst kv) with
                | Some old => old
                | None => []
                end) ++ data (snd kv))))
        (Summary.audios s) (Summary.images s)) items s
    = Summary.make (Summary.losses s) (Summary.scalars s)
        (fold_left (fun d kv => Py.set d (fst kv) (grown (Py.get d (fst kv)) (snd kv)))
                   items (Summary.histograms s))
        (Summary.audios s) (Summary.images s).
Proof.
  induction items as [| kv items IH]; intro s.
  - now destruct s.
  - cbn [fold_left]. now rewrite IH.
Qed.

Lemma fold_audios :
  forall (items : dict audio) (s : Summary.t),
    fold_left (fun s kv =>
      Summary.make (Summary.losses s) (Summary.scalars s)
        (Summary.histograms s)
        (Py.set (Summary.audios s) (fst kv) (snd kv)) (Summary.images s)) items s
    = Summary.make (Summary.losses s) (Summary.scalars s) (Summary.histograms s)
        (fold_left (fun d kv => Py.set d (fst kv) (snd kv)) items (Summary.audios s))
        (Summary.images s).
Proof.
  induction items as [| kv items IH]; intro s.
  - now destruct s.
  - cbn [fold_left]. now rewrite IH.
Qed.

Lemma fold_images :
  forall (items : dict (Tensor Qc)) (s : Summary.t),
    fold_left (fun s kv =>
      Summary.make (Summary.losses s) (Summary.scalars s)
        (Summary.histograms s) (Summary.audios s)
        (Py.set (Summary.images s) (fst kv) (snd kv))) items s
    = Summary.make (Summary.losses s) (Summary.scalars s) (Summary.histograms s)
        (Summary.audios s)
        (fold_left (fun d kv => Py.set d (fst kv) (snd kv)) items (Summary.images s)).
Proof.
  induction items as [| kv items IH]; intro s.
  - now destruct s.
  - cbn [fold_left]. now rewrite IH.
Qed.

(** The summary after a review, part by part. *)
Lemma update_parts :
  forall (s : Summary.t) (review : Review.t),
    update s review
    = Summary.make
        (fold_left (fun d kv => append d (fst kv) (snd kv))
                   (Review.losses review) (Summary.losses s))
        (fold_left (fun d kv => append d (fst kv) (snd kv))
                   (Review.scalars review) (Summary.scalars s))
        (fold_left (fun d kv => Py.set d (fst kv) (grown (Py.get d (fst kv)) (snd kv)))
                   (Review.histograms review) (Summary.histograms s))
        (fold_left (fun d kv => Py.set d (fst kv) (snd kv))
                   (Review.audios review) (Summary.audios s))
        (fold_left (fun d kv => Py.set d (fst kv) (snd kv))
                   (Review.images review) (Summary.images s)).
Proof.
  intros s review. unfold update.
  rewrite fold_losses, fold_scalars, fold_histograms, fold_audios, fold_images.
  reflexivity.
Qed.

(** X1. [update_summary] appends: the series of a loss or scalar named in the
    review is the old series followed by the new value; the other series
    are as they were. *)
Theorem update_appends_to_series :
  forall (s : Summary.t) (review : Review.t) (key : string),
    proper (Review.losses review) ->
    proper (Review.scalars review) ->
    Py.get (Summary.losses (update s review)) key
    = match Py.get (Review.losses review) key with
      | Some v =>
          Some (match Py.get (Summary.losses s) key with
                | Some series => series
                | None => []
                end ++ [v])
      | None => Py.get (Summary.losses s) key
      end
    /\ Py.get (Summary.scalars (update s review)) key
       = match Py.get (Review.scalars review) key with
         | Some v =>
             Some (match Py.get (Summary.scalars s) key with
                   | Some series => series
                   | None => []
                   end ++ [v])
         | None => Py.get (Summary.scalars s) key
         end.
Proof.
  intros s review key Hl Hs. rewrite update_parts. cbn [Summary.losses Summary.scalars].
  unfold append. split.
  - rewrite (fold_set_get _ _
      (fun old v => match old with Some l => l ++ [v] | None => [v] end))
      by exact Hl.
    destruct (Py.get (Review.losses review) key); [| reflexivity].
    now destruct (Py.get (Summary.losses s) key).
  - rewrite (fold_set_get _ _
      (fun old v => match old with Some l => l ++ [v] | None => [v] end))
      by exact Hs.
    destruct (Py.get (Review.scalars review) key); [| reflexivity].
    now destruct (Py.get (Summary.scalars s) key).
Qed.

(** X3. Audio and image entries are snapshots: after a review the summary
    holds the review's entry for every name the review has, and its own
    earlier entry for the others. *)
Theorem update_keeps_latest_snapshot :
  forall (s : Summary.t) (review : Review.t) (key : string),
    proper (Review.audios review) ->
    proper (Review.images review) ->
    Py.get (Summary.audios (update s review)) key
    = match Py.get (Review.audios review) key with
      | Some a => Some a
      | None => Py.get (Summary.audios s) key
      end
    /\ Py.get (Summary.images (update s review)) key
       = match Py.get (Review.images review) key with
         | Some i => Some i
         | None => Py.get (Summary.images s) key
         end.
Proof.
  intros s review key Ha Hi. rewrite update_parts.
  cbn [Summary.audios Summary.images]. split.
  - now rewrite (fold_set_get _ _ (fun _ a => a)) by exact Ha.
  - now rewrite (fold_set_get _ _ (fun _ i => i)) by exact Hi.
Qed.

Lemma length_last_values :
  forall (n : nat) (a : list Qc), length (last_values n a) <= n.
Proof. intros n a. unfold last_values. rewrite length_skipn. lia. Qed.

Lemma last_values_suffix :
  forall (n : nat) (a : list Qc),
    exists dropped, a = dropped ++ last_values n a.
Proof.
  intros n a. exists (firstn (length a - n) a). unfold last_values.
  symmetry. apply firstn_skipn.
Qed.

Lemma set_preserves :
  forall (V : Type) (P : V -> Prop) (d : dict V) (key : string) (v : V),
    Forall (fun kv => P (snd kv)) d -> P v ->
    Forall (fun kv => P (snd kv)) (Py.set d key v).
Proof.
  intros V P d key v Hd Hv. induction Hd as [| [k w] d Hw Hd IH]; simpl.
  - now constructor.
  - destruct (String.eqb k key); constructor; assumption.
Qed.

(** X2. The histogram buffers never grow beyond 10000 values: a summary whose
    buffers respect the bound still respects it after any review, and the
    buffer of a name the review has is the end of the old buffer followed
    by the new values. *)
Theorem update_caps_histograms :
  forall (s : Summary.t) (review : Review.t),
    Forall (fun kv => length (snd kv) <= 100 * 100) (Summary.histograms s) ->
    Forall (fun kv => length (snd kv) <= 100 * 100)
           (Summary.histograms (update s review))
    /\ (proper (Review.histograms review) ->
        forall (key : string) (histogram : Tensor Qc),
          Py.get (Review.histograms review) key = Some histogram ->
          exists buffer dropped,
            Py.get (Summary.histograms (update s review)) key = Some buffer
            /\ length buffer <= 100 * 100
            /\ (match Py.get (Summary.histograms s) key with
                | Some old => old
                | None => []
                end ++ data histogram = dropped ++ buffer)%list).
Proof.
  intros s review Hs. rewrite update_parts. cbn [Summary.histograms]. split.
  - generalize dependent (Summary.histograms s).
    induction (Review.histograms review) as [| kv items IH]; intros d Hd.
    + exact Hd.
    + cbn [fold_left]. apply IH.
      apply (set_preserves _ (fun values => length values <= 100 * 100));
        [exact Hd |].
      unfold grown. apply (length_last_values (100 * 100)).
  - intros Hp key histogram Hget.
    rewrite (fold_set_get _ _ grown) by exact Hp. rewrite Hget.
    destruct (last_values_suffix (100 * 100)
                ((match Py.get (Summary.histograms s) key with
                  | Some old => old
                  | None => []
                  end) ++ data histogram)) as [dropped Hd].
    eexists. exists dropped. split; [reflexivity |]. split.
    + apply (length_last_values (100 * 100)).
    + exact Hd.
Qed.

End UpdateProperties.

(** ** SummaryHook.dump_summary and the methods around it *)

Section FlushProperties.

Import Hooks SummaryHook.
Context {T Ext Iterator : Type} {trig : Trigger T}
        {methods : TrainerMethods Iterator}.

(** X4. A flush writes, after what the writer holds: the mean of every
    loss, the mean of every scalar, the timer entries, the histograms,
    the snapshots up to the first refused one and, when none is refused,
    the images.  It prints the timing warnings and nothing else, and it
    raises an AssertionError exactly when a snapshot is refused. *)
Theorem dump_summary_writes_in_order :
  forall w : World (SummaryHook.t T Ext),
    events_of (self (snd (dump_summary w)))
    = events_of (self w) ++ flushed_events (self w) (trainer w)
    /\ stdout (snd (dump_summary w)) = stdout w ++ timing_prints (trainer w)
    /\ (fst (dump_summary w) = Return tt
        <-> forallb audio_ok (Summary.audios (summary (self w))) = true)
    /\ (fst (dump_summary w) = Raise AssertionError
        <-> forallb audio_ok (Summary.audios (summary (self w))) = false).
Proof.
  intro w. split; [apply dump_summary_events |].
  rewrite dump_summary_result. rewrite dump_summary_flushed.
  destruct (forallb audio_ok (Summary.audios (summary (self w)))); cbn [fst snd];
    repeat split; intros; congruence.
Qed.

(** X6. A refused snapshot leaves the summary and the timer as they were:
    nothing is reset, and flushing again fails again, after the same
    events were written a second time. *)
Theorem refused_snapshot_blocks_every_flush :
  forall w : World (SummaryHook.t T Ext),
    forallb audio_ok (Summary.audios (summary (self w))) = false ->
    fst (dump_summary w) = Raise AssertionError
    /\ summary (self (snd (dump_summary w))) = summary (self w)
    /\ trainer (snd (dump_summary w)) = trainer w
    /\ fst (dump_summary (snd (dump_summary w))) = Raise AssertionError
    /\ events_of (self (snd (dump_summary (snd (dump_summary w)))))
       = events_of (self w) ++ flushed_events (self w) (trainer w)
         ++ flushed_events (self w) (trainer w).
Proof.
  intros w Hbad.
  assert (H1 : dump_summary w
               = (Raise AssertionError,
                  logged (flushed_events (self w) (trainer w))
                         (timing_prints (trainer w)) w)).
  { rewrite dump_summary_flushed, Hbad. reflexivity. }
  rewrite H1. cbn [fst snd].
  set (w' := logged (flushed_events (self w) (trainer w)) (timing_prints (trainer w)) w).
  destruct (summary_log_events (flushed_events (self w) (trainer w)) (self w))
    as (Hs & _ & Hp & _ & _).
  assert (Hs' : summary (self w') = summary (self w)) by exact Hs.
  assert (Ht' : trainer w' = trainer w) by reflexivity.
  assert (Hf : flushed_events (self w') (trainer w')
               = flushed_events (self w) (trainer w)).
  { unfold flushed_events, leading_events. rewrite Hs', Ht'.
    replace (summary_prefix (self w')) with (summary_prefix (self w))
      by (symmetry; exact Hp).
    reflexivity. }
  rewrite dump_summary_flushed, Hs', Hbad. cbn [fst snd].
  repeat split.
  unfold logged at 1. cbn [self]. rewrite events_of_log_events, Hf.
  unfold w', logged. cbn [self]. rewrite events_of_log_events.
  now rewrite <- app_assoc.
Qed.

(** X7. After a flush that returned the summary is empty and the timer
    reset, so a second flush returns too and writes the timer entries
    alone. *)
Theorem second_flush_writes_timer_only :
  forall w w' : World (SummaryHook.t T Ext),
    dump_summary w = (Return tt, w') ->
    summary (self w') = empty_summary_dict
    /\ trainer w' = reset_timer (trainer w)
    /\ fst (dump_summary w') = Return tt
    /\ events_of (self (snd (dump_summary w')))
       = events_of (self w')
         ++ map (timing_event (Timer.as_dict (Trainer.timer (trainer w')))
                   (summary_prefix (self w)) (Trainer.iteration (trainer w')))
                (Timer.as_dict (Trainer.timer (trainer w'))).
Proof.
  intros w w' H. rewrite dump_summary_flushed in H.
  destruct (forallb audio_ok (Summary.audios (summary (self w)))); [| discriminate H].
  injection H as H.
  assert (Hs : summary (self w') = empty_summary_dict) by (now subst w').
  assert (Hp : summary_prefix (self w') = summary_prefix (self w)).
  { subst w'. cbn [self with_summary summary_prefix].
    now destruct (summary_log_events (flushed_events (self w) (trainer w)) (self w))
      as (_ & _ & Hp & _ & _). }
  split; [exact Hs |]. split; [now subst w' |].
  rewrite dump_summary_result, dump_summary_events, Hs.
  split; [reflexivity |].
  now rewrite (flushed_events_of_empty_summary _ _ Hs), Hp.
Qed.

(** The events of a flush carry the prefix of the hook and the iteration
    of the trainer. *)
Lemma flushed_events_tagged :
  forall (h : SummaryHook.t T Ext) (tr : Trainer.t),
    Forall (fun e => event_step e = Trainer.iteration tr
                     /\ exists key, event_tag e = tag (summary_prefix h) key)
           (flushed_events h tr).
Proof.
  intros h tr. unfold flushed_events, leading_events, scalar_events,
    histogram_events, image_events.
  repeat (apply Forall_app; split).
  - apply Forall_forall. intros e He. apply in_map_iff in He.
    destruct He as [kv [<- _]]. split; [reflexivity | now eexists].
  - apply Forall_forall. intros e He. apply in_map_iff in He.
    destruct He as [kv [<- _]]. split; [reflexivity | now eexists].
  - apply Forall_forall. intros e He. apply in_map_iff in He.
    destruct He as [kv [<- _]]. unfold timing_event.
    destruct (is_timed_part (fst kv));
      [destruct (Py.get (Timer.as_dict (Trainer.timer tr)) "time_per_step") |];
      (split; [reflexivity | now eexists]).
  - apply Forall_forall. intros e He. apply in_map_iff in He.
    destruct He as [kv [<- _]]. split; [reflexivity | now eexists].
  - apply Forall_forall. intros e He. apply in_map_iff in He.
    destruct He as [kv [<- _]]. unfold audio_event.
    destruct (snd kv); (split; [reflexivity | now eexists]).
  - destruct (forallb audio_ok (Summary.audios (summary h))); [| constructor].
    apply Forall_forall. intros e He. apply in_map_iff in He.
    destruct He as [kv [<- _]]. split; [reflexivity | now eexists].
Qed.

(** X5. What [dump_summary] writes, it writes under the prefix of the
    hook and at the iteration of the trainer: the events the writer
    holds after a flush are those it held before followed by events that
    all have a tag '<summary_prefix>/<key>' and the iteration as step. *)
Theorem dump_summary_writes_under_prefix_at_iteration :
  forall w : World (SummaryHook.t T Ext),
    exists written : list event,
      events_of (self (snd (dump_summary w))) = events_of (self w) ++ written
      /\ Forall (fun e => event_step e = Trainer.iteration (trainer w)
                          /\ exists key,
                               event_tag e = tag (summary_prefix (self w)) key)
                written.
Proof.
  intro w. exists (flushed_events (self w) (trainer w)).
  split; [apply dump_summary_events | apply flushed_events_tagged].
Qed.

Lemma writer_log_events :
  forall (evs : list event) (h : SummaryHook.t T Ext),
    evs <> [] ->
    writer (log_events evs h)
    = Some (SummaryWriter.make (SummaryWriter.logdir (the_writer h))
              (SummaryWriter.filename_suffix (the_writer h))
              (events_of h ++ evs)).
Proof.
  intro evs. induction evs as [| e evs IH]; intros h Hne; [congruence |].
  rewrite log_events_cons. destruct evs as [| e' evs].
  - unfold log_events, with_writer, SummaryWriter.record, the_writer, events_of.
    cbn. now destruct (writer h).
  - rewrite IH by discriminate.
    unfold with_writer, SummaryWriter.record, the_writer, events_of. cbn.
    destruct (writer h); cbn; now rewrite <- ?app_assoc.
Qed.

(** X9. The writer is opened by the first event a hook writes, on the
    storage directory the hook holds at that moment ('None' before the
    first [post_step]) and with the prefix as suffix; once open it keeps
    its directory, whatever the hook holds later. *)
Theorem writer_opens_at_first_event :
  forall w : World (SummaryHook.t T Ext),
    writer (self (snd (dump_summary w)))
    = match writer (self w), flushed_events (self w) (trainer w) with
      | None, [] => None
      | None, evs =>
          Some (SummaryWriter.make (str_storage_dir (self w))
                  (summary_prefix (self w)) evs)
      | Some open, evs =>
          Some (SummaryWriter.make (SummaryWriter.logdir open)
                  (SummaryWriter.filename_suffix open)
                  (SummaryWriter.events open ++ evs))
      end.
Proof.
  intro w.
  assert (H : writer (self (snd (dump_summary w)))
              = writer (log_events (flushed_events (self w) (trainer w)) (self w))).
  { rewrite dump_summary_flushed.
    now destruct (forallb audio_ok (Summary.audios (summary (self w)))). }
  rewrite H. clear H.
  destruct (flushed_events (self w) (trainer w)) as [| e evs] eqn:E.
  - cbn. destruct (writer (self w)) as [[dir suffix evs] |]; [| reflexivity].
    cbn. now rewrite app_nil_r.
  - rewrite writer_log_events by discriminate.
    unfold the_writer, events_of.
    now destruct (writer (self w)).
Qed.

(** X8. A flush prints nothing exactly when every timed part of the timer
    has as many samples as the 'time_per_step' series, or there is no
    such series. *)
Theorem flush_is_silent_iff_sample_counts_agree :
  forall w : World (SummaryHook.t T Ext),
    stdout (snd (dump_summary w)) = stdout w
    <-> (forall (key : string) (samples steps : list Qc),
           In (key, samples) (Timer.as_dict (Trainer.timer (trainer w))) ->
           is_timed_part key = true ->
           Py.get (Timer.as_dict (Trainer.timer (trainer w))) "time_per_step"
           = Some steps ->
           length steps = length samples).
Proof.
  intro w.
  assert (H : stdout (snd (dump_summary w)) = stdout w ++ timing_prints (trainer w)).
  { rewrite dump_summary_flushed.
    now destruct (forallb audio_ok (Summary.audios (summary (self w)))). }
  rewrite H. clear H. unfold timing_prints.
  set (d := Timer.as_dict (Trainer.timer (trainer w))).
  assert (Hnil : forall items : dict (list Qc),
             flat_map (timing_print d) items = []
             <-> (forall item, In item items -> timing_print d item = [])).
  { induction items as [| item items IH]; cbn [flat_map].
    - split; [intros _ item [] | reflexivity].
    - split.
      + intros Happ item' [<- | Hin].
        * now apply app_eq_nil in Happ.
        * apply IH; [now apply app_eq_nil in Happ | exact Hin].
      + intro Hall. rewrite (Hall item (or_introl eq_refl)). cbn [app].
        apply IH. intros item' Hin. apply Hall. now right. }
  split.
  - intros Hout key samples steps Hin Htimed Hget.
    assert (Hp : flat_map (timing_print d) d = []).
    { apply (app_inv_head (stdout w)). now rewrite app_nil_r. }
    pose proof (proj1 (Hnil d) Hp (key, samples) Hin) as Hitem.
    unfold timing_print in Hitem. cbn [fst snd] in Hitem.
    rewrite Htimed, Hget in Hitem.
    destruct (Nat.eqb (length steps) (length samples)) eqn:El; [| discriminate Hitem].
    now apply Nat.eqb_eq.
  - intro Hall.
    assert (Hp : flat_map (timing_print d) d = []).
    { apply Hnil. intros [key samples] Hin. unfold timing_print. cbn [fst snd].
      destruct (is_timed_part key) eqn:Htimed; [| reflexivity].
      specialize (Hall key samples).
      destruct (Py.get d "time_per_step") as [steps |]; [| reflexivity].
      rewrite (Hall steps Hin Htimed eq_refl), Nat.eqb_refl. reflexivity. }
    rewrite Hp. apply app_nil_r.
Qed.

(** X10. [post_step] binds the hook to the storage directory of the first
    trainer it sees and collects the review; on a trainer with another
    storage directory it raises an AssertionError and collects nothing. *)
Theorem post_step_binds_storage_dir :
  forall (h : SummaryHook.t T Ext) (tr : Trainer.t) (out : list string)
         (review : Review.t),
    post_step review (mkWorld h tr out)
    = match storage_dir h with
      | None =>
          (Return tt,
           mkWorld (with_summary (update (summary h) review)
                      (with_storage_dir (Some (Trainer.storage_dir tr)) h))
                   tr out)
      | Some d =>
          if String.eqb d (Trainer.storage_dir tr)
          then (Return tt,
                mkWorld (with_summary (update (summary h) review) h) tr out)
          else (Raise AssertionError, mkWorld h tr out)
      end
    /\ (fst (post_step review (mkWorld h tr out)) = Return tt ->
        storage_dir (self (snd (post_step review (mkWorld h tr out))))
        = Some (Trainer.storage_dir tr)).
Proof.
  intros h tr out review.
  assert (H : post_step review (mkWorld h tr out)
    = match storage_dir h with
      | None =>
          (Return tt,
           mkWorld (with_summary (update (summary h) review)
                      (with_storage_dir (Some (Trainer.storage_dir tr)) h))
                   tr out)
      | Some d =>
          if String.eqb d (Trainer.storage_dir tr)
          then (Return tt,
                mkWorld (with_summary (update (summary h) review) h) tr out)
          else (Raise AssertionError, mkWorld h tr out)
      end).
  { unfold post_step, bind, get_trainer, get_self, update_summary, set_self.
    cbn [self trainer stdout].
    destruct (storage_dir h) as [d |]; [| reflexivity].
    destruct (String.eqb d (Trainer.storage_dir tr)); reflexivity. }
  split; [exact H |]. rewrite H.
  destruct (storage_dir h) as [d |] eqn:Ed; [| reflexivity].
  destruct (String.eqb d (Trainer.storage_dir tr)) eqn:E; [| discriminate].
  intros _. cbn. rewrite Ed. apply String.eqb_eq in E. now subst d.
Qed.

End FlushProperties.

Section ValidationPass.

Import Hooks SummaryHook.
Context {T Iterator : Type} {trig : Trigger T}
        {methods : TrainerMethods Iterator}.

Lemma for_each_update_summary_fold :
  forall (evaluation : list Review.t) (w : World (SummaryHook.t T Iterator)),
    for_each evaluation update_summary w
    = (Return tt,
       mkWorld (with_summary (fold_left update evaluation (summary (self w)))
                  (self w))
               (trainer w) (stdout w)).
Proof.
  intro evaluation. induction evaluation as [| review rest IH]; intros [h tr out].
  - destruct h. reflexivity.
  - cbn [for_each]. unfold bind, update_summary at 1, set_self.
    cbn [self trainer stdout]. rewrite IH. reflexivity.
Qed.

(** X11. A validation pass that returns: the reviews of the validation are
    collected, in order, on top of what the hook holds, and flushed at
    once; between the two lines it prints stand the timing warnings of
    the flush; the hook is left with an empty summary. *)
Theorem validation_pass_collects_and_flushes :
  forall (h : ValidationHook.t (T := T) (Iterator := Iterator))
         (tr : Trainer.t) (out : list string)
         (evaluation : list Review.t) (tr' : Trainer.t)
         (collected : ValidationHook.t (T := T) (Iterator := Iterator)),
    fst (call (trigger h) (Trainer.iteration tr) (Trainer.epoch tr)) = true ->
    ValidationHook.timer_is_empty tr = true ->
    validate tr (ValidationHook.iterator h) = (evaluation, tr') ->
    collected
    = with_summary (fold_left update evaluation (summary h))
        (with_trigger
           (snd (call (trigger h) (Trainer.iteration tr) (Trainer.epoch tr))) h) ->
    forallb audio_ok (Summary.audios (summary collected)) = true ->
    ValidationHook.timer_is_empty (reset_timer tr') = true ->
    ValidationHook.pre_step (mkWorld h tr out)
    = (Return tt,
       mkWorld (with_summary empty_summary_dict
                  (log_events (flushed_events collected tr') collected))
               (reset_timer tr')
               (out ++ ["Starting Validation"%string] ++ timing_prints tr'
                    ++ ["Finished Validation"%string])).
Proof.
  intros h tr out evaluation tr' collected Hfire Hempty Hval Hcol Hok Hafter.
  unfold ValidationHook.pre_step, call_trigger.
  unfold bind at 1. unfold bind at 1. cbn [get_trainer]. unfold bind at 1.
  cbn [get_self self trainer]. unfold bind at 1.
  cbn [set_self self trainer stdout ret]. rewrite Hfire.
  unfold bind at 1. cbn [get_trainer trainer]. rewrite Hempty.
  unfold bind at 1. cbn [Hooks.assert ret]. unfold bind at 1. cbn [print self trainer stdout].
  unfold bind at 1. unfold ValidationHook.run_validate.
  unfold bind at 1. cbn [get_trainer trainer]. unfold bind at 1. cbn [get_self self].
  unfold bind at 1. cbn [set_trainer self trainer stdout ret].
  change (ValidationHook.iterator
            (with_trigger (snd (call (trigger h) (Trainer.iteration tr)
                                  (Trainer.epoch tr))) h))
    with (ValidationHook.iterator h).
  rewrite Hval. cbn [fst snd].
  unfold bind at 1. rewrite for_each_update_summary_fold.
  cbn [self trainer stdout with_trigger summary]. 
  change (with_summary (fold_left update evaluation (summary h))
        (with_trigger
           (snd (call (trigger h) (Trainer.iteration tr) (Trainer.epoch tr))) h))
    with (with_summary (fold_left update evaluation (summary h))
        (with_trigger
           (snd (call (trigger h) (Trainer.iteration tr) (Trainer.epoch tr))) h)) in Hcol.
  rewrite <- Hcol.
  unfold bind at 1. rewrite dump_summary_flushed. cbn [self trainer stdout].
  rewrite Hok. unfold bind. cbn [get_trainer trainer]. rewrite Hafter.
  cbn [Hooks.assert ret print self trainer stdout].
  unfold print. cbn [self trainer stdout].
  now rewrite <- !app_assoc.
Qed.

End ValidationPass.

(** ** The losses *)

Section CrossEntropyEdges.

Import Loss.
Context {libm : Libm}.
Local Open Scope Qc_scope.

Lemma length_nll_terms :
  forall (ps : list (list Qc * Z)) (vs : list Qc),
    nll_terms ps = Return vs -> length vs = length ps.
Proof.
  induction ps as [| [row c] ps IH]; intros vs H.
  - injection H as <-. reflexivity.
  - cbn [nll_terms] in H. destruct (nll_term row c) as [v |]; [| discriminate H].
    cbn [Py.bind] in H. destruct (nll_terms ps) as [vs' |]; [| discriminate H].
    injection H as <-. simpl. f_equal. now apply IH.
Qed.

Lemma map_snd_combine :
  forall (A B : Type) (l : list A) (l' : list B),
    length l = length l' -> map snd (combine l l') = l'.
Proof.
  intros A B l. induction l as [| a l IH]; intros [| b l'] H;
    try discriminate H; [reflexivity |].
  simpl. f_equal. apply IH. now injection H.
Qed.

Lemma filter_nil_iff :
  forall (A : Type) (f : A -> bool) (l : list A),
    filter f l = [] <-> Forall (fun a => f a = false) l.
Proof.
  intros A f l. induction l as [| a l IH]; simpl.
  - split; [constructor | reflexivity].
  - destruct (f a) eqn:E.
    + split; [discriminate |]. intro H. inversion H; congruence.
    + rewrite IH. split; [now constructor | intro H; now inversion H].
Qed.

Lemma mean_is_nan_iff :
  forall l : list Qc, Num.mean l = NaN <-> l = [].
Proof.
  intro l. unfold Num.mean, true_divide, is_zero.
  destruct (Qc_eq_dec (of_nat (length l)) 0) as [E | E].
  - split; [| reflexivity]. intros _. destruct l as [| v l]; [reflexivity |].
    exfalso. apply (of_nat_nonzero (length (v :: l))); [simpl; lia | exact E].
  - split; [discriminate |]. intros ->. now elim E.
Qed.

(** X12. When the loss on labels that fill their size is returned, it is
    [nan] exactly when every label is the ignore index: the mean is then
    taken over no position at all. *)
Theorem cross_entropy_is_nan_iff_all_ignored :
  forall (x : Tensor Qc) (t : Tensor Z) (v : float),
    well_formed t ->
    softmax_cross_entropy (ATensor x) (ATensor t) = Return v ->
    (v = NaN <-> Forall (fun c => c = IGNORE_INDEX) (data t)).
Proof.
  intros x t v Wt. cbn [softmax_cross_entropy].
  unfold softmax_cross_entropy_tensor, positions.
  destruct (size_eqb (removelast (size x)) (size t)); [| discriminate].
  cbn [Py.assert Py.bind].
  destruct (rev (size x)) as [| K rest]; [discriminate |]. cbn [Py.bind].
  rewrite CrossEntropyLoss_filter. unfold mean_cross_entropy.
  set (ps := combine (chunk K (numel (size t)) (data x)) (data t)).
  destruct (nll_terms (filter not_ignored ps)) as [vs |] eqn:E; [| discriminate].
  cbn [Py.bind]. intro H. injection H as <-.
  rewrite mean_is_nan_iff.
  assert (Hl : vs = [] <-> filter not_ignored ps = []).
  { apply length_nll_terms in E. split; intro H.
    - subst vs. symmetry in E. now apply length_zero_iff_nil in E.
    - rewrite H in E. now apply length_zero_iff_nil in E. }
  rewrite Hl, filter_nil_iff.
  assert (Hs : map snd ps = data t).
  { apply map_snd_combine. rewrite length_chunk. symmetry. exact Wt. }
  rewrite <- Hs, Forall_map.
  split; intro H; (eapply Forall_impl; [| exact H]); intros [row c];
    unfold not_ignored; cbn [snd]; intro Hc.
  - apply negb_false_iff in Hc. now apply Z.eqb_eq in Hc.
  - apply negb_false_iff. now apply Z.eqb_eq.
Qed.

End CrossEntropyEdges.

Section DeepClusteringEdges.

Import Loss.
Local Open Scope Qc_scope.

Lemma pow_positive : forall N : nat, (0 < N)%nat -> (0 < N ^ 2)%nat.
Proof. intros N H. simpl. nia. Qed.

Lemma floor_divide_zero :
  forall b : Qc, b <> 0 -> floor_divide 0 b = Fin 0.
Proof.
  intros b Hb. unfold floor_divide, is_zero.
  destruct (Qc_eq_dec b 0) as [E | _]; [now elim Hb |].
  unfold Qcdiv. rewrite Qcmult_0_l. reflexivity.
Qed.

(** X13. An embedding that equals its target costs nothing: for N >= 1 rows
    the loss of a moderate matrix against itself is 0. The three sums are
    then one finite number a, and (a - 2 a) + a is 0 in floats as well. *)
Theorem deep_clustering_loss_of_equal_arguments :
  forall (x : Tensor Qc) (N E : nat),
    size x = [N; E]%nat -> (0 < N)%nat -> moderate x ->
    deep_clustering_loss (ATensor x) (ATensor x) = Return (Fin 0).
Proof.
  intros x N E Hs HN _. cbn [deep_clustering_loss].
  unfold deep_clustering_loss_tensor, size0, einsum. rewrite Hs, Nat.eqb_refl.
  cbn [Py.bind]. f_equal.
  match goal with
  | |- floor_divide (?s - _ * ?s + ?s) _ = _ =>
      replace (s - (1 + 1) * s + s) with 0 by ring
  end.
  apply floor_divide_zero, of_nat_nonzero, pow_positive, HN.
Qed.

(** X14. On two moderate matrices the loss takes whole values only: with
    N >= 1 rows it is an integer, with none it is [nan]. *)
Theorem deep_clustering_loss_is_a_whole_number :
  forall (x t : Tensor Qc) (v : float),
    moderate x -> moderate t ->
    deep_clustering_loss (ATensor x) (ATensor t) = Return v ->
    exists N : nat,
      size0 x = Return N
      /\ (N = 0%nat -> v = NaN)
      /\ ((0 < N)%nat -> exists k : Z, v = Fin (of_Z k)).
Proof.
  intros x t v _ _. cbn [deep_clustering_loss]. unfold deep_clustering_loss_tensor.
  destruct (size0 x) as [N |]; [| discriminate]. cbn [Py.bind].
  destruct (einsum x x) as [xx |]; [| discriminate]. cbn [Py.bind].
  destruct (einsum x t) as [xt |]; [| discriminate]. cbn [Py.bind].
  destruct (einsum t t) as [tt |]; [| discriminate]. cbn [Py.bind].
  intro H. injection H as <-. exists N. split; [reflexivity |]. split.
  - intros ->. reflexivity.
  - intro HN. unfold floor_divide, is_zero.
    match goal with
    | |- context [Qc_eq_dec ?a ?b] => destruct (Qc_eq_dec a b) as [E | _]
    end.
    + exfalso. now apply (of_nat_nonzero (N ^ 2) (pow_positive N HN)).
    + eexists. reflexivity.
Qed.






End DeepClusteringEdges.

Section PitEdges.

Import Loss.
Local Open Scope Qc_scope.

Lemma size_eqb_eq : forall s s' : list nat, size_eqb s s' = true -> s = s'.
Proof.
  intros s s'. unfold size_eqb.
  now destruct (list_eq_dec Nat.eq_dec s s').
Qed.

(** X17. The loss is returned for two sources only: the sizes are equal,
    have three axes or more, and the second axis is 2. *)
Theorem pit_mse_loss_needs_two_sources :
  forall (estimate target : Tensor Qc) (v : float),
    pit_mse_loss estimate target = Return v ->
    size estimate = size target
    /\ exists (T F : nat) (more : list nat), size target = T :: 2%nat :: F :: more.
Proof.
  intros e t v. unfold pit_mse_loss.
  destruct (size_eqb (size e) (size t)) eqn:Es; [| discriminate].
  apply size_eqb_eq in Es. cbn [Py.assert Py.bind].
  unfold permutations_of_two. cbn [candidates]. unfold select_sources at 1.
  destruct (size t) as [| T [| K [| F more]]] eqn:Et; try discriminate.
  destruct (forallb (fun k => Nat.ltb k K) [0%nat; 1%nat]); [| discriminate].
  cbn [Py.bind]. unfold mse_loss at 1. cbn [size length].
  destruct (size_eqb (size e) (T :: 2%nat :: F :: more)) eqn:Ep; [| discriminate].
  apply size_eqb_eq in Ep. intros _. split; [exact Es |].
  exists T, F, more. rewrite <- Es. exact Ep.
Qed.

Lemma mse_loss_sign :
  forall (a b : Tensor Qc) (c : float),
    mse_loss a b = Return c -> c = NaN \/ exists q, c = Fin q /\ 0 <= q.
Proof.
  intros a b c. unfold mse_loss.
  destruct (size_eqb (size a) (size b)); [| discriminate].
  intro H. injection H as <-.
  destruct (combine (data a) (data b)) as [| p l] eqn:E.
  - left. reflexivity.
  - right. apply mean_squared_error_nonneg. simpl. lia.
Qed.

Lemma fmin_sign :
  forall a b : float,
    (a = NaN \/ exists q, a = Fin q /\ 0 <= q) ->
    (b = NaN \/ exists q, b = Fin q /\ 0 <= q) ->
    fmin a b = NaN \/ exists q, fmin a b = Fin q /\ 0 <= q.
Proof.
  intros a b [-> | [x [-> Hx]]] [-> | [y [-> Hy]]]; try (left; reflexivity).
  right. cbn [fmin]. destruct (leb x y); eexists; (split; [reflexivity |]);
    assumption.
Qed.

(** X18. The loss is never negative: it is a number at or above 0, or it is
    [nan] (tensors without entries). *)
Theorem pit_mse_loss_is_never_negative :
  forall (estimate target : Tensor Qc) (v : float),
    pit_mse_loss estimate target = Return v ->
    v = NaN \/ exists q : Qc, v = Fin q /\ 0 <= q.
Proof.
  intros e t v. unfold pit_mse_loss.
  destruct (size_eqb (size e) (size t)); [| discriminate].
  cbn [Py.assert Py.bind]. unfold permutations_of_two. cbn [candidates].
  destruct (select_sources t [0%nat; 1%nat]) as [kept |]; [| discriminate].
  cbn [Py.bind].
  destruct (mse_loss e kept) as [c1 |] eqn:E1; [| discriminate]. cbn [Py.bind].
  destruct (select_sources t [1%nat; 0%nat]) as [swapped |]; [| discriminate].
  cbn [Py.bind].
  destruct (mse_loss e swapped) as [c2 |] eqn:E2; [| discriminate].
  cbn [Py.bind min_of_stack fold_left]. intro H. injection H as <-.
  apply fmin_sign; [exact (mse_loss_sign _ _ _ E1) | exact (mse_loss_sign _ _ _ E2)].
Qed.

Lemma fmin_comm : forall a b : float, fmin a b = fmin b a.
Proof.
  intros [x |] [y |]; try reflexivity. cbn [fmin]. unfold leb. f_equal.
  destruct (Qle_bool x y) eqn:E1, (Qle_bool y x) eqn:E2; try reflexivity.
  - apply Qle_bool_iff in E1, E2. now apply Qcle_antisym.
  - exfalso.
    assert (H1 : ~ (x <= y)) by (intro H; apply Qle_bool_iff in H; congruence).
    assert (H2 : ~ (y <= x)) by (intro H; apply Qle_bool_iff in H; congruence).
    apply Qcnot_le_lt in H1. apply H2. now apply Qclt_le_weak.
Qed.

Lemma app_inj_length :
  forall (A : Type) (a b a' b' : list A),
    length a = length b -> a ++ a' = b ++ b' -> a = b /\ a' = b'.
Proof.
  intros A a. induction a as [| x a IH]; intros [| y b] a' b' Hl H;
    try discriminate Hl.
  - now split.
  - injection H as -> H. injection Hl as Hl.
    destruct (IH b a' b' Hl H) as [-> ->]. now split.
Qed.

Lemma length_flat_map_pointwise :
  forall (A : Type) (f g : nat -> list A) (l : list nat),
    (forall i, In i l -> length (f i) = length (g i)) ->
    length (flat_map f l) = length (flat_map g l).
Proof.
  intros A f g l. induction l as [| i l IH]; intro H; [reflexivity |].
  cbn [flat_map]. rewrite !length_app, (H i) by now left.
  f_equal. apply IH. intros j Hj. apply H. now right.
Qed.

(** Runs of equal lengths that concatenate to one list are equal one by
    one. *)
Lemma flat_map_inj :
  forall (A : Type) (n : nat) (f g : nat -> list A),
    (forall i, (i < n)%nat -> length (f i) = length (g i)) ->
    flat_map f (seq 0 n) = flat_map g (seq 0 n) ->
    forall i, (i < n)%nat -> f i = g i.
Proof.
  intros A n. induction n as [| n IH]; intros f g Hlen Heq i Hi; [lia |].
  rewrite (seq_S n 0), !flat_map_app in Heq. cbn [flat_map Nat.add] in Heq.
  rewrite !app_nil_r in Heq.
  apply app_inj_length in Heq.
  - destruct Heq as [Hinit Hlast].
    destruct (Nat.eq_dec i n) as [-> | Hne]; [exact Hlast |].
    apply (IH f g); [intros j Hj; apply Hlen; lia | exact Hinit | lia].
  - apply length_flat_map_pointwise. intros j Hj. apply in_seq in Hj.
    apply Hlen. lia.
Qed.

Lemma source_frame_swapped :
  forall (T F : nat) (t : Tensor Qc) (tau k : nat),
    length (data t) = (T * 2 * F)%nat -> (tau < T)%nat -> (k < 2)%nat ->
    source_frame F (swap_sources T F t) tau k = source_frame F t tau (1 - k).
Proof.
  intros T F t tau k Hl Htau Hk.
  set (s := swap_sources T F t).
  assert (Ls : length (data s) = (T * 2 * F)%nat).
  { unfold s, swap_sources. cbn [data]. apply length_swapped; (assumption || lia). }
  pose proof (data_by_frames T F s Ls) as Hs.
  assert (Hd : data s
               = flat_map (fun tau => source_frame F t tau 1 ++ source_frame F t tau 0)
                          (seq 0 T)) by reflexivity.
  rewrite Hd in Hs at 1.
  assert (Hlen : forall i, (i < T)%nat ->
            length (source_frame F t i 1 ++ source_frame F t i 0)
            = length (source_frame F s i 0 ++ source_frame F s i 1)).
  { intros i Hi.
    rewrite !length_app, !(length_source_frame T F) by (assumption || lia).
    reflexivity. }
  pose proof (flat_map_inj _ T _ _ Hlen Hs tau Htau) as Hframe.
  apply app_inj_length in Hframe;
    [| now rewrite !(length_source_frame T F) by (assumption || lia)].
  destruct Hframe as [H1 H0].
  destruct k as [| [| k]]; [| | lia]; cbn [Nat.sub]; congruence.
Qed.

(** X19. The loss does not depend on the order in which the target lists its
    two sources. *)
Theorem pit_mse_loss_ignores_the_order_of_sources :
  forall (T F : nat) (estimate target : Tensor Qc),
    size estimate = [T; 2; F]%nat -> size target = [T; 2; F]%nat ->
    well_formed target ->
    pit_mse_loss estimate (swap_sources T F target)
    = pit_mse_loss estimate target.
Proof.
  intros T F e t He Ht Wt.
  assert (Lt : length (data t) = (T * 2 * F)%nat).
  { unfold well_formed in Wt. rewrite Ht in Wt. cbn [numel fold_right] in Wt. lia. }
  rewrite (pit_mse_loss_unfold T F e (swap_sources T F t) He eq_refl),
          (pit_mse_loss_unfold T F e t He Ht).
  assert (Hkept : mkTensor [T; 2; F]%nat
            (flat_map (fun tau => source_frame F (swap_sources T F t) tau 0
                                  ++ source_frame F (swap_sources T F t) tau 1)
                      (seq 0 T))
          = swap_sources T F t).
  { unfold swap_sources at 3. f_equal. apply flat_map_ext_in. intros tau Htau.
    apply in_seq in Htau.
    now rewrite !(source_frame_swapped T F t) by (assumption || lia). }
  assert (Hswapped : swap_sources T F (swap_sources T F t)
          = mkTensor [T; 2; F]%nat
              (flat_map (fun tau => source_frame F t tau 0 ++ source_frame F t tau 1)
                        (seq 0 T))).
  { unfold swap_sources at 1. f_equal. apply flat_map_ext_in. intros tau Htau.
    apply in_seq in Htau.
    now rewrite !(source_frame_swapped T F t) by (assumption || lia). }
  rewrite Hkept, Hswapped. unfold mse_loss, swap_sources. cbn [size].
  rewrite He, size_eqb_refl. cbn [Py.bind]. f_equal. apply fmin_comm.
Qed.

End PitEdges.

Section KLEdges.

Import Loss.
Context {libm : Libm} {fp : Float}.
Local Open Scope Qc_scope.

(** X20. [_batch_diag] returns the diagonal of any square matrix: entry i of
    the result is the entry (i, i). *)
Theorem batch_diag_reads_the_diagonal :
  forall (n : nat) (m : matrix),
    length m = n -> Forall (fun row => length row = n) m ->
    _batch_diag m = map (fun i => entry m i i) (seq 0 n).
Proof.
  intros n m Hn Hrows. unfold _batch_diag, slice_step.
  rewrite (length_concat_rows n m Hrows), Hn.
  replace ((n * n + (n + 1) - 1) / (n + 1))%nat with n.
  - apply map_ext_in. intros i Hi. apply in_seq in Hi.
    replace (i * (n + 1))%nat with (i * n + i)%nat by lia.
    rewrite (nth_concat_rows n) by (assumption || lia). reflexivity.
  - replace (n * n + (n + 1) - 1)%nat with (n * (n + 1))%nat by lia.
    symmetry. apply Nat.div_mul. lia.
Qed.

(** X21. What is returned has the batch shape of the posteriors followed by
    the shape of the components, and holds one entry per pair; nothing is
    returned unless both sides live in the same dimension. *)
Theorem kl_result_has_batch_and_component_shape :
  forall (q : Normal.t) (p : MultivariateNormal.t) (kl : Tensor Qc),
    kl_normal_multivariatenormals q p = Return kl ->
    size kl = (removelast (size (Normal.loc q))
               ++ removelast (size (MultivariateNormal.loc p)))%list
    /\ well_formed kl
    /\ last_dim (size (MultivariateNormal.loc p)) = last_dim (size (Normal.loc q)).
Proof.
  intros q p kl. unfold kl_normal_multivariatenormals.
  destruct (last_dim (size (Normal.loc q))) as [D |]; [| discriminate].
  cbn [Py.bind].
  destruct (last_dim (size (MultivariateNormal.loc p))) as [D' |]; [| discriminate].
  cbn [Py.bind].
  destruct (Nat.eqb D' D) eqn:ED; [| discriminate]. cbn [Py.assert Py.bind].
  apply Nat.eqb_eq in ED. subst D'.
  destruct (view_rows D (Normal.loc q)) as [q_loc |]; [| discriminate].
  cbn [Py.bind].
  destruct (view_rows D (Normal.scale q)) as [q_scale |]; [| discriminate].
  cbn [Py.bind].
  destruct (view_rows D (MultivariateNormal.loc p)) as [p_loc |]; [| discriminate].
  cbn [Py.bind].
  destruct (view_rows (D * D) (MultivariateNormal.scale_tril p)) as [flat |];
    [| discriminate].
  cbn [Py.bind].
  destruct (_batch_inverse (map (chunk D D) flat)) as [L |]; [| discriminate].
  cbn [Py.bind].
  destruct (negb _); [discriminate |].
  destruct (removelast (size (Normal.loc q))
            ++ removelast (size (MultivariateNormal.loc p)))%list
    as [| n shape]; [discriminate |].
  match goal with
  | |- (if Nat.eqb ?a ?b then _ else _) = _ -> _ => destruct (Nat.eqb a b) eqn:E
  end; [| discriminate].
  intro H. injection H as <-. apply Nat.eqb_eq in E.
  split; [reflexivity |]. split; [| reflexivity].
  unfold well_formed. cbn [size data]. now symmetry.
Qed.

End KLEdges.

(** ** The training script of the mask estimator *)

Section TrainProperties.

Import Train.
Variable V : Type.
Variable eqb : V -> V -> bool.

Lemma forallb_false_iff :
  forall (A : Type) (f : A -> bool) (l : list A),
    forallb f l = false <-> exists a, In a l /\ f a = false.
Proof.
  intros A f l. induction l as [| a l IH]; cbn [forallb].
  - split; [discriminate | intros [a [[] _]]].
  - destruct (f a) eqn:E; cbn [andb].
    + rewrite IH. split; intros [b [Hb Hf]].
      * exists b. split; [now right | exact Hf].
      * destruct Hb as [<- | Hb]; [congruence |]. now exists b.
    + split; [| reflexivity]. intros _. exists a. split; [now left | exact E].
Qed.

Lemma compare_configs_raises_AssertionError_only :
  forall (config init : dict V) (e : exn),
    compare_configs eqb config init = Raise e -> e = AssertionError.
Proof.
  intros config init e. unfold compare_configs.
  destruct (forallb (Py.contains config) (keys init)); cbn [Py.assert Py.bind].
  - discriminate.
  - intro H. now injection H.
Qed.

(** X23. [compare_configs] fails exactly when init.json holds a key that the
    config no longer has, and then with an AssertionError; it raises
    nothing else. *)
Theorem compare_configs_fails_iff_an_init_key_is_gone :
  forall config init : dict V,
    (compare_configs eqb config init = Raise AssertionError
     <-> exists key, In key (keys init) /\ Py.contains config key = false)
    /\ (forall e, compare_configs eqb config init = Raise e -> e = AssertionError).
Proof.
  intros config init. split; [| apply compare_configs_raises_AssertionError_only].
  unfold compare_configs.
  destruct (forallb (Py.contains config) (keys init)) eqn:E;
    cbn [Py.assert Py.bind].
  - split; [discriminate |]. intro H. apply forallb_false_iff in H. congruence.
  - split; [| reflexivity]. intros _. now apply forallb_false_iff.
Qed.

(** X24. The warnings name the right keys: a warning about changed keys is
    given exactly when some key of init.json has another value in the
    config, and it lists exactly those keys; a warning about added keys
    is given exactly when the config has a key that init.json lacks, and
    it lists exactly those. *)
Theorem compare_configs_warns_about_the_right_keys :
  forall (config init : dict V) (ws : list warning),
    compare_configs eqb config init = Return ws ->
    ((exists ks, In (KeysChanged ks) ws)
     <-> exists key, In key (keys init) /\ same_value eqb init config key = false)
    /\ (forall ks key, In (KeysChanged ks) ws ->
          (In key ks
           <-> In key (keys init) /\ same_value eqb init config key = false))
    /\ ((exists ks, In (KeysAdded ks) ws)
        <-> exists key, In key (keys config) /\ Py.contains init key = false)
    /\ (forall ks key, In (KeysAdded ks) ws ->
          (In key ks
           <-> In key (keys config) /\ Py.contains init key = false)).
Proof.
  intros config init ws. unfold compare_configs.
  destruct (forallb (Py.contains config) (keys init)); [| discriminate].
  cbn [Py.assert Py.bind]. intro H. injection H as <-.
  set (changed := filter (fun key => negb (same_value eqb init config key))
                    (keys init)).
  set (added := filter (fun key => negb (Py.contains init key)) (keys config)).
  assert (HC : forall ks,
            In (KeysChanged ks)
               ((if negb (forallb (same_value eqb init config) (keys init))
                 then [KeysChanged changed] else [])
                ++ (if negb (forallb (Py.contains init) (keys config))
                    then [KeysAdded added] else []))
            <-> forallb (same_value eqb init config) (keys init) = false
                /\ ks = changed).
  { intro ks. rewrite in_app_iff.
    destruct (forallb (same_value eqb init config) (keys init));
      destruct (forallb (Py.contains init) (keys config)); cbn [negb In];
      split; intro H; intuition congruence. }
  assert (HA : forall ks,
            In (KeysAdded ks)
               ((if negb (forallb (same_value eqb init config) (keys init))
                 then [KeysChanged changed] else [])
                ++ (if negb (forallb (Py.contains init) (keys config))
                    then [KeysAdded added] else []))
            <-> forallb (Py.contains init) (keys config) = false
                /\ ks = added).
  { intro ks. rewrite in_app_iff.
    destruct (forallb (same_value eqb init config) (keys init));
      destruct (forallb (Py.contains init) (keys config)); cbn [negb In];
      split; intro H; intuition congruence. }
  assert (Hin : forall (f : string -> bool) (l : list string) (key : string),
            In key (filter (fun x => negb (f x)) l) <-> In key l /\ f key = false).
  { intros f l key. rewrite filter_In, negb_true_iff. reflexivity. }
  split; [| split; [| split]].
  - rewrite <- forallb_false_iff. split.
    + intros [ks Hks]. now apply HC in Hks.
    + intro H. exists changed. now apply HC.
  - intros ks key Hks. apply HC in Hks. destruct Hks as [_ ->]. apply Hin.
  - rewrite <- forallb_false_iff. split.
    + intros [ks Hks]. now apply HA in Hks.
    + intro H. exists added. now apply HA.
  - intros ks key Hks. apply HA in Hks. destruct Hks as [_ ->]. apply Hin.
Qed.

(** X25. No warning is given exactly when the config and init.json agree:
    every key of init.json has an equal value in the config and the
    config has no further key. *)
Theorem compare_configs_is_silent_iff_the_configs_agree :
  forall config init : dict V,
    compare_configs eqb config init = Return []
    <-> (forall key, In key (keys init) -> same_value eqb init config key = true)
        /\ (forall key, In key (keys config) -> Py.contains init key = true).
Proof.
  intros config init. unfold compare_configs. rewrite <- !forallb_forall.
  assert (Hsame : forallb (same_value eqb init config) (keys init) = true ->
                  forallb (Py.contains config) (keys init) = true).
  { rewrite !forallb_forall. intros H key Hkey. specialize (H key Hkey).
    unfold same_value in H. unfold Py.contains.
    destruct (Py.get init key); [| discriminate H].
    now destruct (Py.get config key). }
  destruct (forallb (same_value eqb init config) (keys init)) eqn:Ec.
  - rewrite (Hsame eq_refl). cbn [Py.assert Py.bind negb app].
    destruct (forallb (Py.contains init) (keys config)); cbn [negb];
      split; intro H; try discriminate H; try (now split);
      destruct H as [_ H]; discriminate H.
  - split; [| intros [H _]; discriminate H].
    destruct (forallb (Py.contains config) (keys init)); [| discriminate].
    cbn [Py.assert Py.bind negb app]. discriminate.
Qed.

(** X26. What [initialize_trainer_provider] does, case by case: it wants
    exactly one observer; on a fresh directory the tasks 'train' and
    'create_checkpoint' start anew without a warning and every other task
    is a ValueError that names the task and the directory; on a directory
    that holds an init.json the tasks 'train' and 'create_checkpoint'
    always end in an AssertionError, and every other task goes on with
    the warnings of the comparison. *)
Theorem initialize_trainer_provider_case_by_case :
  forall (task : string) (observers : nat) (storage_dir : string)
         (init : option (dict V)) (config : dict V),
    initialize_trainer_provider eqb task observers storage_dir init config
    = if negb (Nat.eqb observers 1) then Raise AssertionError
      else match init, starts_anew task with
           | None, true => Return (mkInitialized true [])
           | None, false => Raise (unknown_task task storage_dir)
           | Some found, true => Raise AssertionError
           | Some found, false =>
               Py.bind (compare_configs eqb config found)
                       (fun ws => Return (mkInitialized false ws))
           end.
Proof.
  intros task observers dir init config. unfold initialize_trainer_provider.
  destruct (Nat.eqb observers 1); cbn [negb Py.assert Py.bind]; [| reflexivity].
  destruct init as [found |].
  - destruct (compare_configs eqb config found) as [ws | e] eqn:E; cbn [Py.bind].
    + destruct (starts_anew task); reflexivity.
    + destruct (starts_anew task); [| reflexivity].
      f_equal.
      exact (compare_configs_raises_AssertionError_only config found e E).
  - destruct (starts_anew task); reflexivity.
Qed.

End TrainProperties.

(** ** The further properties on concrete inputs *)

Ltac no_repeated_key :=
  unfold proper, dict_keys; cbn [map fst];
  repeat (apply NoDup_cons; [cbn; intuition discriminate |]); apply NoDup_nil.

Section FurtherConcreteRuns.

Import Hooks SummaryHook.
Existing Instance TriggerSpec.trigger.
Existing Instance TrainerSpec.methods.
Local Open Scope string_scope.

Lemma update_appends_to_series_witness :
  Py.get (Summary.losses (update one_loss (review_of_losses [("a", z 3)]))) "a"
  = Some [z 1; z 3]
  /\ Py.get (Summary.scalars (update one_loss (review_of_losses [("a", z 3)]))) "a"
     = None.
Proof.
  apply (update_appends_to_series one_loss (review_of_losses [("a", z 3)]) "a");
    no_repeated_key.
Defined.

Lemma update_keeps_latest_snapshot_witness :
  Py.get (Summary.audios
            (update (Summary.make [] [] [] [("a", AudioArray [z 1])] [])
                    (Review.make [] [] [] [("a", AudioArray [z 2])] []))) "a"
  = Some (AudioArray [z 2])
  /\ Py.get (Summary.images
               (update (Summary.make [] [] [] [("a", AudioArray [z 1])] [])
                       (Review.make [] [] [] [("a", AudioArray [z 2])] []))) "a"
     = None.
Proof.
  apply (update_keeps_latest_snapshot
           (Summary.make [] [] [] [("a", AudioArray [z 1])] [])
           (Review.make [] [] [] [("a", AudioArray [z 2])] []) "a");
    no_repeated_key.
Defined.

Lemma update_caps_histograms_witness :
  Forall (fun kv => length (snd kv) <= 100 * 100)
         (Summary.histograms
            (update (Summary.make [] [] [("h", [z 1])] [] [])
                    (Review.make [] [] [("h", mkTensor [2] [z 2; z 3])] [] []))).
Proof.
  apply (update_caps_histograms
           (Summary.make [] [] [("h", [z 1])] [] [])
           (Review.make [] [] [("h", mkTensor [2] [z 2; z 3])] [] [])).
  apply Forall_cons; [cbn; lia | apply Forall_nil].
Defined.

Lemma refused_snapshot_blocks_every_flush_witness :
  fst (dump_summary (mkWorld (hook_holding one_refused_snapshot)
                             (trainer_at 2 mismatched_timings) []))
  = Raise AssertionError
  /\ summary (self (snd (dump_summary
                           (mkWorld (hook_holding one_refused_snapshot)
                                    (trainer_at 2 mismatched_timings) []))))
     = one_refused_snapshot
  /\ trainer (snd (dump_summary
                     (mkWorld (hook_holding one_refused_snapshot)
                              (trainer_at 2 mismatched_timings) [])))
     = trainer_at 2 mismatched_timings.
Proof.
  destruct (refused_snapshot_blocks_every_flush
              (mkWorld (hook_holding one_refused_snapshot)
                       (trainer_at 2 mismatched_timings) [])
              eq_refl) as (H1 & H2 & H3 & _).
  exact (conj H1 (conj H2 H3)).
Defined.

Lemma second_flush_writes_timer_only_witness :
  fst (dump_summary
         (snd (dump_summary (mkWorld (hook_holding one_loss)
                                     (trainer_at 2 mismatched_timings) []))))
  = Return tt.
Proof.
  exact (proj1 (proj2 (proj2
    (second_flush_writes_timer_only
       (mkWorld (hook_holding one_loss) (trainer_at 2 mismatched_timings) [])
       (snd (dump_summary (mkWorld (hook_holding one_loss)
                                   (trainer_at 2 mismatched_timings) [])))
       eq_refl)))).
Defined.

Lemma validation_pass_collects_and_flushes_witness :
  ValidationHook.pre_step
    (mkWorld (ValidationHook.init every_two_iterations
                [review_of_losses [("a", z 1)]; review_of_losses [("a", z 3)]])
             (trainer_at 2 []) [])
  = (Return tt,
     mkWorld
       (with_summary empty_summary_dict
          (log_events [add_scalar "validation/a" (Fin (z 2)) 2]
             (SummaryHook.make every_two_iterations
                (Summary.make [("a", [z 1; z 3])] [] [] [] [])
                "validation" None None
                [review_of_losses [("a", z 1)]; review_of_losses [("a", z 3)]])))
       (trainer_at 2 [])
       ["Starting Validation"; "Finished Validation"]).
Proof.
  rewrite <- mean_of_1_and_3.
  exact (validation_pass_collects_and_flushes
           (ValidationHook.init every_two_iterations
              [review_of_losses [("a", z 1)]; review_of_losses [("a", z 3)]])
           (trainer_at 2 []) []
           [review_of_losses [("a", z 1)]; review_of_losses [("a", z 3)]]
           (trainer_at 2 [])
           (SummaryHook.make every_two_iterations
              (Summary.make [("a", [z 1; z 3])] [] [] [] [])
              "validation" None None
              [review_of_losses [("a", z 1)]; review_of_losses [("a", z 3)]])
           eq_refl eq_refl eq_refl eq_refl eq_refl eq_refl).
Defined.

End FurtherConcreteRuns.

Section FurtherConcreteLosses.

Import Loss.

Lemma cross_entropy_is_nan_iff_all_ignored_witness :
  NaN = NaN <-> Forall (fun c => c = IGNORE_INDEX) (data labels_all_ignored).
Proof.
  apply (cross_entropy_is_nan_iff_all_ignored (libm := first_order)
           logits_3x2 labels_all_ignored NaN);
    reflexivity.
Defined.

Lemma moderate_x_orthonormal : moderate x_orthonormal.
Proof.
  split.
  - exists 2%nat, 2%nat. repeat split; cbn; lia.
  - repeat constructor; discriminate.
Qed.

Lemma moderate_t_one_cluster : moderate t_one_cluster.
Proof.
  split.
  - exists 2%nat, 2%nat. repeat split; cbn; lia.
  - repeat constructor; discriminate.
Qed.

Lemma deep_clustering_loss_of_equal_arguments_witness :
  deep_clustering_loss (ATensor x_orthonormal) (ATensor x_orthonormal)
  = Return (Fin 0%Qc).
Proof.
  apply (deep_clustering_loss_of_equal_arguments x_orthonormal 2 2);
    [reflexivity | lia | apply moderate_x_orthonormal].
Defined.

Lemma deep_clustering_loss_is_a_whole_number_witness :
  exists N : nat,
    size0 x_orthonormal = Return N
    /\ (N = 0 -> Fin 0%Qc = NaN)
    /\ (0 < N -> exists k : Z, Fin 0%Qc = Fin (of_Z k)).
Proof.
  apply (deep_clustering_loss_is_a_whole_number x_orthonormal t_one_cluster).
  - apply moderate_x_orthonormal.
  - apply moderate_t_one_cluster.
  - qc_compute.
Defined.


(** Without a column there are no rows to tell: the packed branch
    raises where the plain branch returns. *)
Lemma packed_sequence_without_columns_raises :
  deep_clustering_loss (APacked (one_sequence 1 (mkTensor [1; 1; 0] [])))
                       (APacked (one_sequence 1 (mkTensor [1; 1; 1] [z 1])))
  = Raise RuntimeError
  /\ deep_clustering_loss (ATensor (mkTensor [1 * 1; 0] []))
                          (ATensor (mkTensor [1 * 1; 1] [z 1]))
     = Return (Fin (z 1)).
Proof. split; qc_compute. Qed.

Lemma pit_mse_loss_needs_two_sources_witness :
  size frame_1x2x2 = size frame_1x2x2
  /\ exists (T F : nat) (more : list nat), size frame_1x2x2 = T :: 2 :: F :: more.
Proof.
  apply (pit_mse_loss_needs_two_sources frame_1x2x2 frame_1x2x2 (Fin 0%Qc)).
  qc_compute.
Defined.

Lemma pit_mse_loss_is_never_negative_witness :
  Fin 0%Qc = NaN \/ exists q : Qc, Fin 0%Qc = Fin q /\ (0 <= q)%Qc.
Proof.
  apply (pit_mse_loss_is_never_negative frame_1x2x2 frame_1x2x2 (Fin 0%Qc)).
  qc_compute.
Defined.

Lemma pit_mse_loss_ignores_the_order_of_sources_witness :
  pit_mse_loss frame_1x2x2 (swap_sources 1 2 frame_1x2x2)
  = pit_mse_loss frame_1x2x2 frame_1x2x2.
Proof.
  apply (pit_mse_loss_ignores_the_order_of_sources 1 2 frame_1x2x2 frame_1x2x2);
    reflexivity.
Defined.

Lemma batch_diag_reads_the_diagonal_witness :
  _batch_diag [[z 1; z 2]; [z 3; z 4]] = [z 1; z 4].
Proof.
  apply (batch_diag_reads_the_diagonal 2 [[z 1; z 2]; [z 3; z 4]]);
    [reflexivity | repeat constructor].
Defined.

Lemma kl_result_has_batch_and_component_shape_witness :
  size kl_of_two_gaussians = [2; 2] /\ well_formed kl_of_two_gaussians.
Proof.
  destruct (kl_result_has_batch_and_component_shape (libm := first_order)
              (fp := Exact.arithmetic)
              two_gaussians (as_multivariate [2] 2 two_gaussians)
              kl_of_two_gaussians)
    as (Hs & Hw & _).
  - vm_compute. reflexivity.
  - exact (conj Hs Hw).
Defined.

End FurtherConcreteLosses.

Section FurtherConcreteConfigs.

Import Train.
Local Open Scope string_scope.

Lemma compare_configs_warns_about_the_right_keys_witness :
  (exists ks, In (KeysChanged ks) [KeysChanged ["lr"]; KeysAdded ["seed"]])
  <-> exists key,
        In key (keys [("lr", 1)])
        /\ same_value Nat.eqb [("lr", 1)] [("lr", 2); ("seed", 0)] key = false.
Proof.
  exact (proj1 (compare_configs_warns_about_the_right_keys nat Nat.eqb
                  [("lr", 2); ("seed", 0)] [("lr", 1)]
                  [KeysChanged ["lr"]; KeysAdded ["seed"]] eq_refl)).
Defined.

End FurtherConcreteConfigs.

